(** * Resume / GitHub-profile analyzer: text pipeline and response recovery

    A shallow embedding of the pure parts of the analyzer:
    - [gemini_analyzer.py]: [parse_gemini_response], [validate_skill_scores];
    - [preprocessor.py]: [remove_extra_whitespace],
      [remove_special_characters], [preprocess];
    - [extractors.py]: [extract_from_pdf], [extract_from_docx],
      [extract_from_txt], [extract_from_doc], [extract];
    - [github_fetcher.py]: [summarize_data].

    A Python [str] is a sequence of Unicode code points: [list Z].  A Python
    exception is an explicit [Raise] result.  Dictionaries whose insertion
    order is observable are association lists with unique keys; the counting
    dictionary and the set of [summarize_data] are stdpp's [gmap] and [gset]. *)

From Stdlib Require Import ZArith List String Ascii Lia Bool Sorting.Sorted
  Sorting.Permutation DecimalString QArith_base.
From stdpp Require Import gmap list.
Import ListNotations.

Local Open Scope Z_scope.

(** ** Python strings *)

Abbreviation str := (list Z).

Definition ord (a : ascii) : Z := Z.of_N (N_of_ascii a).

(** [U "text"]: the Python string literal with these (ASCII) characters. *)
Definition U (s : string) : str := List.map ord (list_ascii_of_string s).

(** [Q "text"]: the same, with every apostrophe of [text] read as a double
    quote (for JSON texts). *)
Definition Q (s : string) : str :=
  List.map (fun c => if c =? 39 then 34 else c) (U s).

Definition NL : Z := 10.

(** [str.isspace] for one character, i.e. CPython's [Py_UNICODE_ISSPACE]; the
    same predicate decides [\s] in a [re] pattern over [str]. *)
Definition isspace (c : Z) : bool :=
  ((9 <=? c) && (c <=? 13)) || ((28 <=? c) && (c <=? 32))
  || (c =? 133) || (c =? 160) || (c =? 5760)
  || ((8192 <=? c) && (c <=? 8202)) || (c =? 8232) || (c =? 8233)
  || (c =? 8239) || (c =? 8287) || (c =? 12288).

Fixpoint lstrip (s : str) : str :=
  match s with
  | c :: s' => if isspace c then lstrip s' else s
  | [] => []
  end.

Definition rstrip (s : str) : str := rev (lstrip (rev s)).

(** [s.strip()] *)
Definition strip (s : str) : str := rstrip (lstrip s).

(** [s.startswith(p)] *)
Fixpoint startswith (p s : str) : bool :=
  match p, s with
  | [], _ => true
  | a :: p', b :: s' => (a =? b) && startswith p' s'
  | _ :: _, [] => false
  end.

(** [s.endswith(p)] *)
Definition endswith (p s : str) : bool := startswith (rev p) (rev s).

(** [s.find(c)] for a one-character needle: the first index, or [-1]. *)
Fixpoint find_from (c : Z) (s : str) (i : Z) : Z :=
  match s with
  | [] => -1
  | x :: s' => if x =? c then i else find_from c s' (i + 1)
  end.

Definition find (c : Z) (s : str) : Z := find_from c s 0.

(** [s.rfind(c)]: the last index, or [-1]. *)
Definition rfind (c : Z) (s : str) : Z :=
  let r := find c (rev s) in
  if r =? -1 then -1 else Z.of_nat (length s) - 1 - r.

(** [s[a:b]] for [0 <= a] and [0 <= b]. *)
Definition slice (s : str) (a b : Z) : str :=
  drop (Z.to_nat a) (take (Z.to_nat b) s).

(** [s.split(sep)] for a one-character separator. *)
Fixpoint split (sep : Z) (s : str) : list str :=
  match s with
  | [] => [[]]
  | c :: s' =>
      if c =? sep then [] :: split sep s'
      else match split sep s' with
           | l :: ls => (c :: l) :: ls
           | [] => [[c]]
           end
  end.

(** [sep.join(parts)] *)
Fixpoint join (sep : str) (parts : list str) : str :=
  match parts with
  | [] => []
  | [x] => x
  | x :: rest => x ++ sep ++ join sep rest
  end.

(** [not s]: the empty string is falsy. *)
Definition falsy (s : str) : bool :=
  match s with [] => true | _ => false end.

(** ** Exceptions and results

    [ValueErrorFrom prefix e] is [ValueError(f"{prefix}{str(e)}")]: the
    message text of a library exception is kept as the exception itself. *)

Inductive exn : Type :=
| JSONDecodeError
| UnicodeDecodeError
| TypeError
| KeyError
| OverflowError
| ImportError
| LibraryError
| ValueError (msg : str)
| ValueErrorFrom (prefix : str) (cause : exn).

Inductive result (A : Type) : Type :=
| Return (a : A)
| Raise (e : exn).
Arguments Return {A} a.
Arguments Raise {A} e.

#[global] Instance result_ret : MRet result := fun A a => Return a.

#[global] Instance result_bind : MBind result := fun A B k r =>
  match r with
  | Return a => k a
  | Raise e => Raise e
  end.

(** ** JSON values and [json.loads]

    [json.loads] belongs to the Python standard library.  The reader below
    follows the grammar of the [json] module's scanner (RFC 8259 plus the
    literals [NaN], [Infinity], [-Infinity]; strict strings; the last of
    two equal keys wins).  The limits of the interpreter (recursion depth,
    digits of an integer literal) are outside the model. *)

Module JSON.

#[local] Unset Elimination Schemes.
Inductive value : Type :=
| Null
| Bool (b : bool)
| Int (z : Z)
| Float (lexeme : str)
| Str (s : str)
| Arr (l : list value)
| Obj (d : list (str * value)).
#[local] Set Elimination Schemes.

Definition is_obj (v : value) : Prop :=
  match v with Obj _ => True | _ => False end.

Fixpoint str_eqb (a b : str) : bool :=
  match a, b with
  | [], [] => true
  | x :: a', y :: b' => (x =? y) && str_eqb a' b'
  | _, _ => false
  end.

(** A [dict]: keys are unique and keep their insertion order. *)
Abbreviation dict := (list (str * value)).

Fixpoint dict_get (d : dict) (k : str) : option value :=
  match d with
  | [] => None
  | (k', v) :: d' => if str_eqb k' k then Some v else dict_get d' k
  end.

(** [k in d] *)
Definition dict_mem (d : dict) (k : str) : bool :=
  match dict_get d k with Some _ => true | None => false end.

(** [d[k] = v] *)
Fixpoint dict_set (d : dict) (k : str) (v : value) : dict :=
  match d with
  | [] => [(k, v)]
  | (k', v') :: d' =>
      if str_eqb k' k then (k', v) :: d' else (k', v') :: dict_set d' k v
  end.

Definition is_ws (c : Z) : bool :=
  (c =? 32) || (c =? 9) || (c =? 10) || (c =? 13).

Definition isdigit (c : Z) : bool := (48 <=? c) && (c <=? 57).

Fixpoint skip_ws (s : str) : str :=
  match s with
  | c :: s' => if is_ws c then skip_ws s' else s
  | [] => []
  end.

Definition hexval (c : Z) : option Z :=
  if isdigit c then Some (c - 48)
  else if (97 <=? c) && (c <=? 102) then Some (c - 87)
  else if (65 <=? c) && (c <=? 70) then Some (c - 55)
  else None.

Definition hex4 (a b c d : Z) : option Z :=
  match hexval a, hexval b, hexval c, hexval d with
  | Some x, Some y, Some z, Some w => Some (((x * 16 + y) * 16 + z) * 16 + w)
  | _, _, _, _ => None
  end.

Definition simple_escape (c : Z) : option Z :=
  if c =? 34 then Some 34 else if c =? 92 then Some 92
  else if c =? 47 then Some 47 else if c =? 98 then Some 8
  else if c =? 102 then Some 12 else if c =? 110 then Some 10
  else if c =? 114 then Some 13 else if c =? 116 then Some 9
  else None.

(** The low surrogate escape [\uXXXX] that may follow a high surrogate. *)
Definition low_surrogate (s : str) : option (Z * str) :=
  match s with
  | b :: u :: h1 :: h2 :: h3 :: h4 :: r =>
      if (b =? 92) && (u =? 117) then
        match hex4 h1 h2 h3 h4 with
        | Some lo => if (56320 <=? lo) && (lo <=? 57343) then Some (lo, r)
                     else None
        | None => None
        end
      else None
  | _ => None
  end.

(** [scanstring]: the text after an opening quote, up to the closing one.
    [skip] characters are passed over first (the tail of a surrogate pair). *)
Fixpoint scanstring (skip : nat) (s : str) (acc : str) : option (str * str) :=
  match s with
  | [] => None
  | c :: s' =>
      match skip with
      | S k => scanstring k s' acc
      | O =>
          if c =? 34 then Some (rev acc, s')
          else if c =? 92 then
            match s' with
            | [] => None
            | e :: s2 =>
                if e =? 117 then
                  match s2 with
                  | h1 :: h2 :: h3 :: h4 :: s3 =>
                      match hex4 h1 h2 h3 h4 with
                      | None => None
                      | Some hi =>
                          if (55296 <=? hi) && (hi <=? 56319) then
                            match low_surrogate s3 with
                            | Some (lo, _) =>
                                scanstring 11 s'
                                  (65536 + ((hi - 55296) * 1024 + (lo - 56320))
                                   :: acc)
                            | None => scanstring 5 s' (hi :: acc)
                            end
                          else scanstring 5 s' (hi :: acc)
                      end
                  | _ => None
                  end
                else
                  match simple_escape e with
                  | Some x => scanstring 1 s' (x :: acc)
                  | None => None
                  end
            end
          else if c <? 32 then None
          else scanstring 0 s' (c :: acc)
      end
  end.

Fixpoint span_digits (s : str) : str * str :=
  match s with
  | c :: s' =>
      if isdigit c then let '(ds, r) := span_digits s' in (c :: ds, r)
      else ([], s)
  | [] => ([], [])
  end.

Definition digits_value (ds : str) : Z :=
  fold_left (fun acc c => acc * 10 + (c - 48)) ds 0.

(** The integer part (an optional minus sign, then a single zero or a
    number without leading zero): sign, digits, rest. *)
Definition match_int (s : str) : option (bool * str * str) :=
  let '(neg, s1) :=
    match s with
    | c :: s' => if c =? 45 then (true, s') else (false, s)
    | [] => (false, s)
    end in
  match s1 with
  | c :: s2 =>
      if c =? 48 then Some (neg, [48], s2)
      else if isdigit c then
        let '(ds, r) := span_digits s2 in Some (neg, c :: ds, r)
      else None
  | [] => None
  end.

(** The fraction [\.[0-9]+], when present. *)
Definition match_frac (s : str) : str * str :=
  match s with
  | c :: s1 =>
      if c =? 46 then
        match span_digits s1 with
        | ([], _) => ([], s)
        | (ds, r) => (c :: ds, r)
        end
      else ([], s)
  | [] => ([], s)
  end.

(** The exponent (e or E, an optional sign, at least one digit), when
    present. *)
Definition match_exp (s : str) : str * str :=
  match s with
  | c :: s1 =>
      if (c =? 101) || (c =? 69) then
        let '(sg, s2) :=
          match s1 with
          | x :: s1' => if (x =? 43) || (x =? 45) then ([x], s1') else ([], s1)
          | [] => ([], s1)
          end in
        match span_digits s2 with
        | ([], _) => ([], s)
        | (ds, r) => (c :: sg ++ ds, r)
        end
      else ([], s)
  | [] => ([], s)
  end.

Definition match_number (s : str) : option (value * str) :=
  match match_int s with
  | None => None
  | Some (neg, ds, r) =>
      let '(fr, r1) := match_frac r in
      let '(ex, r2) := match_exp r1 in
      let sign := if neg then [45] else [] in
      match fr, ex with
      | [], [] =>
          Some (Int (if neg then - digits_value ds else digits_value ds), r2)
      | _, _ => Some (Float (sign ++ ds ++ fr ++ ex), r2)
      end
  end.

Definition literal (name : string) (v : value) (s : str)
  : option (value * str) :=
  if startswith (U name) s then Some (v, drop (length (U name)) s) else None.

Definition first_of {A} (a b : option A) : option A :=
  match a with Some _ => a | None => b end.

(** Values other than strings, objects and arrays. *)
Definition scan_atom (s : str) : option (value * str) :=
  first_of (literal "null" Null s)
  (first_of (literal "true" (Bool true) s)
  (first_of (literal "false" (Bool false) s)
  (first_of (literal "NaN" (Float (U "NaN")) s)
  (first_of (literal "Infinity" (Float (U "Infinity")) s)
  (first_of (literal "-Infinity" (Float (U "-Infinity")) s)
            (match_number s)))))).

(** The outcome of a reader that runs on fuel. *)
Inductive scan (A : Type) : Type :=
| Scanned (a : A) (rest : str)
| Invalid
| Exhausted.
Arguments Scanned {A} a rest.
Arguments Invalid {A}.
Arguments Exhausted {A}.

Definition scan_of {A} (o : option (A * str)) : scan A :=
  match o with
  | Some (a, rest) => Scanned a rest
  | None => Invalid
  end.

(** [scan_once]: one value at the head of [s]; [members] continues an object
    after the opening quote of a key, [elements] an array at an element.
    Every recursive call is made on a shorter text or, from [elements] to
    [scan_once], on the same text, so fuel above twice the length of the
    text is never exhausted. *)
Fixpoint scan_once (fuel : nat) (s : str) : scan value :=
  match fuel with
  | O => Exhausted
  | S f =>
      match s with
      | [] => Invalid
      | c :: s' =>
          if c =? 34 then
            match scanstring 0 s' [] with
            | Some (x, r) => Scanned (Str x) r
            | None => Invalid
            end
          else if c =? 123 then
            match skip_ws s' with
            | c2 :: s2 =>
                if c2 =? 125 then Scanned (Obj []) s2
                else if c2 =? 34 then
                  match members f s2 [] with
                  | Scanned d r => Scanned (Obj d) r
                  | Invalid => Invalid
                  | Exhausted => Exhausted
                  end
                else Invalid
            | [] => Invalid
            end
          else if c =? 91 then
            match skip_ws s' with
            | c2 :: s2 =>
                if c2 =? 93 then Scanned (Arr []) s2
                else
                  match elements f (c2 :: s2) [] with
                  | Scanned l r => Scanned (Arr l) r
                  | Invalid => Invalid
                  | Exhausted => Exhausted
                  end
            | [] => Invalid
            end
          else scan_of (scan_atom s)
      end
  end
with members (fuel : nat) (s : str) (acc : dict) : scan dict :=
  match fuel with
  | O => Exhausted
  | S f =>
      match scanstring 0 s [] with
      | None => Invalid
      | Some (k, r) =>
          match skip_ws r with
          | c :: r1 =>
              if c =? 58 then
                match scan_once f (skip_ws r1) with
                | Invalid => Invalid
                | Exhausted => Exhausted
                | Scanned v r2 =>
                    let acc' := dict_set acc k v in
                    match skip_ws r2 with
                    | c3 :: r3 =>
                        if c3 =? 125 then Scanned acc' r3
                        else if c3 =? 44 then
                          match skip_ws r3 with
                          | q :: r4 =>
                              if q =? 34 then members f r4 acc' else Invalid
                          | [] => Invalid
                          end
                        else Invalid
                    | [] => Invalid
                    end
                end
              else Invalid
          | [] => Invalid
          end
      end
  end
with elements (fuel : nat) (s : str) (acc : list value) : scan (list value) :=
  match fuel with
  | O => Exhausted
  | S f =>
      match scan_once f s with
      | Invalid => Invalid
      | Exhausted => Exhausted
      | Scanned v r =>
          match skip_ws r with
          | c :: r1 =>
              if c =? 93 then Scanned (acc ++ [v]) r1
              else if c =? 44 then elements f (skip_ws r1) (acc ++ [v])
              else Invalid
          | [] => Invalid
          end
      end
  end.

(** The text without the JSON whitespace around it. *)
Definition trim_ws (s : str) : str := rev (skip_ws (rev (skip_ws s))).

(** [decode t]: [t] holds exactly one value. *)
Definition decode (t : str) : option value :=
  match scan_once (S (2 * length t)) t with
  | Scanned v [] => Some v
  | _ => None
  end.

(** [json.loads(s)]: a JSON text is [ws value ws]; [None] stands for
    [json.JSONDecodeError]. *)
Definition loads (s : str) : option value := decode (trim_ws s).

End JSON.


(** ** gemini_analyzer.py *)

Module GeminiAnalyzer.
Import JSON.

(** [needle in hay] for two strings. *)
Fixpoint is_substring (needle hay : str) : bool :=
  startswith needle hay
  || match hay with
     | _ :: hay' => is_substring needle hay'
     | [] => false
     end.

(** [field in container], for a string [field]. *)
Definition py_contains (container : value) (field : str) : result bool :=
  match container with
  | Obj d => Return (dict_mem d field)
  | Arr l =>
      Return (existsb (fun v => match v with
                                | Str x => str_eqb x field
                                | _ => false
                                end) l)
  | Str x => Return (is_substring field x)
  | Null | Bool _ | Int _ | Float _ => Raise TypeError
  end.

(** [container[field] = v], for a string [field]. *)
Definition py_setitem (container : value) (field : str) (v : value)
  : result value :=
  match container with
  | Obj d => Return (Obj (dict_set d field v))
  | _ => Raise TypeError
  end.

(** [container[field]], for a string [field] known to be [in container]. *)
Definition py_getitem (container : value) (field : str) : result value :=
  match container with
  | Obj d => match dict_get d field with
             | Some v => Return v
             | None => Raise KeyError
             end
  | _ => Raise TypeError
  end.

Definition fence_json : str := U "```json".
Definition fence : str := U "```".

(** Lines 87-93: the opening and the closing fence are cut off. *)
Definition strip_fences (cleaned_text : str) : str :=
  let cleaned_text :=
    if startswith fence_json cleaned_text then drop 7 cleaned_text
    else if startswith fence cleaned_text then drop 3 cleaned_text
    else cleaned_text in
  if endswith fence cleaned_text
  then take (length cleaned_text - 3) cleaned_text
  else cleaned_text.

(** Lines 99-103: from the first opening brace to the last closing one. *)
Definition json_span (cleaned_text : str) : str :=
  let start_idx := find 123 cleaned_text in
  let end_idx := rfind 125 cleaned_text in
  if negb (start_idx =? -1) && negb (end_idx =? -1)
  then slice cleaned_text start_idx (end_idx + 1)
  else cleaned_text.

(** The text after the second [strip()], before the search for braces. *)
Definition trimmed (response_text : str) : str :=
  strip (strip_fences (strip response_text)).

(** Lines 84-103 of [parse_gemini_response]: the text handed to
    [json.loads]. *)
Definition clean_response (response_text : str) : str :=
  json_span (trimmed response_text).

Definition required_fields : list str :=
  [U "skills"; U "experience"; U "tech_stack"; U "summary"].

(** The value a missing required field is given. *)
Definition default_for (field : str) : value :=
  if existsb (str_eqb field) [U "experience"; U "tech_stack"] then Obj []
  else if str_eqb field (U "skills") then Arr []
  else Str [].

(** A dictionary after one round of the loop over [required_fields]. *)
Definition fill_field (d : dict) (field : str) : dict :=
  if dict_mem d field then d else dict_set d field (default_for field).

(** The loop over [required_fields]. *)
Fixpoint backfill (fields : list str) (parsed_data : value) : result value :=
  match fields with
  | [] => Return parsed_data
  | field :: rest =>
      present ← py_contains parsed_data field;
      if negb present
      then parsed_data' ← py_setitem parsed_data field (default_for field);
           backfill rest parsed_data'
      else backfill rest parsed_data
  end.

(** The line printed when [json.loads] fails. *)
Definition preview_line (response_text : str) : str :=
  [9888; 65039] ++ U " Failed to parse JSON. Response preview: "
  ++ take 500 response_text ++ U "...".

(** [parse_gemini_response]: the lines printed and the outcome. *)
Definition parse_gemini_response (response_text : str)
  : list str * result value :=
  match loads (clean_response response_text) with
  | None =>
      ([preview_line response_text],
       Raise (ValueErrorFrom (U "Failed to parse Gemini response as JSON: ")
                JSONDecodeError))
  | Some parsed_data =>
      match backfill required_fields parsed_data with
      | Return d => ([], Return d)
      | Raise e =>
          ([], Raise (ValueErrorFrom (U "Error processing Gemini response: ")
                        e))
      end
  end.

(** [int(x)] for a value read from JSON.  The conversions of a float and of
    a string are Python built-ins and are taken as given. *)
Section ScoreNormalizer.
Variable int_of_float : str -> result Z.
Variable int_of_str : str -> result Z.

Definition py_int (x : value) : result Z :=
  match x with
  | Int z => Return z
  | Bool b => Return (if b then 1 else 0)
  | Float lexeme => int_of_float lexeme
  | Str x => int_of_str x
  | Null | Arr _ | Obj _ => Raise TypeError
  end.

(** The body of the loop of [validate_skill_scores]. *)
Definition validate_skill (skill : value) : result value :=
  present ← py_contains skill (U "score");
  if present : bool
  then x ← py_getitem skill (U "score");
       n ← py_int x;
       py_setitem skill (U "score") (Int (Z.max 1 (Z.min 10 n)))
  else py_setitem skill (U "score") (Int 5).

(** An entry the loop body accepts: a dictionary whose score, if there
    is one, is a value [int()] converts. *)
Definition convertible_entry (skill : value) : Prop :=
  exists d, skill = Obj d
    /\ forall x, dict_get d (U "score") = Some x ->
         exists n, py_int x = Return n.

(** [skill'] is [skill] with its score clamped into 1..10, or set to 5
    when it had none; the other keys are untouched. *)
Definition normalized_entry (skill skill' : value) : Prop :=
  exists d d', skill = Obj d /\ skill' = Obj d'
    /\ (dict_get d (U "score") = None ->
        dict_get d' (U "score") = Some (Int 5))
    /\ (forall x n, dict_get d (U "score") = Some x -> py_int x = Return n ->
          dict_get d' (U "score") = Some (Int (Z.max 1 (Z.min 10 n))))
    /\ (exists n, dict_get d' (U "score") = Some (Int n) /\ 1 <= n <= 10)
    /\ (forall k, k <> U "score" -> dict_get d' k = dict_get d k).

(** [validate_skill_scores] updates the dictionaries of [skills] in place
    and returns the list; here the updated list is the result. *)
Fixpoint validate_skill_scores (skills : list value)
  : result (list value) :=
  match skills with
  | [] => Return []
  | skill :: rest =>
      skill' ← validate_skill skill;
      rest' ← validate_skill_scores rest;
      Return (skill' :: rest')
  end.
End ScoreNormalizer.

(** A response that puts [body] between a json fence and a closing fence,
    each on a line of its own, after some [prose]. *)
Definition fenced (prose body : str) : str :=
  prose ++ fence_json ++ [NL] ++ body ++ [NL] ++ fence.

End GeminiAnalyzer.

(** ** preprocessor.py *)

Module TextPreprocessor.

(** [re.sub(r' +', ' ', text)]: a space followed by a space is dropped. *)
Fixpoint collapse_spaces (text : str) : str :=
  match text with
  | [] => []
  | c :: rest =>
      match rest with
      | d :: _ =>
          if (c =? 32) && (d =? 32) then collapse_spaces rest
          else c :: collapse_spaces rest
      | [] => [c]
      end
  end.

(** The index of the last newline in the longest whitespace prefix. *)
Fixpoint last_newline (s : str) : option nat :=
  match s with
  | c :: s' =>
      if isspace c then
        match last_newline s' with
        | Some j => Some (S j)
        | None => if c =? NL then Some O else None
        end
      else None
  | [] => None
  end.

(** [re.sub(r'\n\s*\n+', '\n\n', text)].  At a newline the greedy
    whitespace run is given back up to its last newline, where the match
    ends; [skip] counts characters of a match still to be passed over. *)
Fixpoint collapse_blank_lines (skip : nat) (text : str) : str :=
  match text with
  | [] => []
  | c :: rest =>
      match skip with
      | S k => collapse_blank_lines k rest
      | O =>
          if c =? NL then
            match last_newline rest with
            | Some j => NL :: NL :: collapse_blank_lines (S j) rest
            | None => c :: collapse_blank_lines 0 rest
            end
          else c :: collapse_blank_lines 0 rest
      end
  end.

Definition remove_extra_whitespace (text : str) : str :=
  let text := collapse_spaces text in
  let text := collapse_blank_lines 0 text in
  let lines := List.map strip (split NL text) in
  join [NL] lines.

Definition isalnum_ascii (c : Z) : bool :=
  ((97 <=? c) && (c <=? 122)) || ((65 <=? c) && (c <=? 90))
  || ((48 <=? c) && (c <=? 57)).

(** The punctuation kept by the basic pattern: [.,;:()-+#/]. *)
Definition basic_punctuation : str := U ".,;:()-+#/".

Definition allowed (preserve_basic : bool) (c : Z) : bool :=
  isalnum_ascii c || isspace c
  || (preserve_basic && existsb (Z.eqb c) basic_punctuation).

Definition remove_special_characters (text : str) (preserve_basic : bool)
  : str :=
  List.filter (fun c => allowed preserve_basic c) text.

Definition normalize_text (text : str) : str := text.

(** A character that [preprocess] can return in a word: one the pattern
    keeps and that is not whitespace. *)
Definition visible (preserve_basic : bool) (c : Z) : bool :=
  allowed preserve_basic c && negb (isspace c).

Definition preprocess (text : str) (aggressive : bool) : result str :=
  if falsy text || falsy (strip text)
  then Raise (ValueError (U "Empty text provided for preprocessing"))
  else
    let text := remove_extra_whitespace text in
    let text := remove_special_characters text (negb aggressive) in
    let text := strip text in
    if falsy text
    then Raise (ValueError (U "Text became empty after preprocessing"))
    else Return text.

(** [text.split()]: the longest runs of characters that are not
    whitespace. *)
Fixpoint words (text : str) : list str :=
  match text with
  | [] => []
  | c :: rest =>
      if isspace c then words rest
      else
        match rest with
        | d :: _ =>
            if isspace d then [c] :: words rest
            else match words rest with
                 | w :: ws => (c :: w) :: ws
                 | [] => [[c]]
                 end
        | [] => [[c]]
        end
  end.

(** [sum(len(word) for word in words)] *)
Definition total_length (ws : list str) : nat :=
  foldr (fun w n => (length w + n)%nat) O ws.

(** The dictionary of [get_text_statistics].  [avg_word_length] is the
    exact quotient, which Python rounds to a float. *)
Record statistics : Type := {
  total_characters : nat;
  total_words : nat;
  total_lines : nat;
  avg_word_length : QArith_base.Q
}.

Definition get_text_statistics (text : str) : statistics :=
  let ws := words text in
  let lines := split NL text in
  {| total_characters := length text;
     total_words := length ws;
     total_lines := length lines;
     avg_word_length :=
       match ws with
       | [] => Qmake 0 1
       | _ => Qmake (Z.of_nat (total_length ws)) (Pos.of_nat (length ws))
       end |}.

End TextPreprocessor.

(** ** extractors.py *)

Module TextExtractor.

Abbreviation bytes := (list Byte.byte).

Definition byte_val (b : Byte.byte) : Z := Z.of_N (Byte.to_N b).

(** *** Codecs of the Python standard library *)

Inductive encoding : Type := utf_8 | latin_1 | cp1252 | iso_8859_1.

Definition is_cont (b : Z) : bool := (128 <=? b) && (b <=? 191).

(** Strict UTF-8: shortest forms only, no surrogates, at most U+10FFFF. *)
Fixpoint utf8_decode (bs : list Z) : option str :=
  match bs with
  | [] => Some []
  | b0 :: r0 =>
      if b0 <? 128 then c ← utf8_decode r0; Some (b0 :: c)
      else if (194 <=? b0) && (b0 <=? 223) then
        match r0 with
        | b1 :: r1 =>
            if is_cont b1
            then c ← utf8_decode r1;
                 Some ((b0 - 192) * 64 + (b1 - 128) :: c)
            else None
        | _ => None
        end
      else if (224 <=? b0) && (b0 <=? 239) then
        match r0 with
        | b1 :: b2 :: r2 =>
            if is_cont b1 && is_cont b2
               && negb ((b0 =? 224) && (b1 <? 160))
               && negb ((b0 =? 237) && (159 <? b1))
            then c ← utf8_decode r2;
                 Some (((b0 - 224) * 64 + (b1 - 128)) * 64 + (b2 - 128) :: c)
            else None
        | _ => None
        end
      else if (240 <=? b0) && (b0 <=? 244) then
        match r0 with
        | b1 :: b2 :: b3 :: r3 =>
            if is_cont b1 && is_cont b2 && is_cont b3
               && negb ((b0 =? 240) && (b1 <? 144))
               && negb ((b0 =? 244) && (143 <? b1))
            then c ← utf8_decode r3;
                 Some ((((b0 - 240) * 64 + (b1 - 128)) * 64 + (b2 - 128)) * 64
                       + (b3 - 128) :: c)
            else None
        | _ => None
        end
      else None
  end.

(** Windows-1252, bytes 0x80-0x9F; five of them are undefined. *)
Definition cp1252_high : list (option Z) :=
  [Some 8364; None; Some 8218; Some 402; Some 8222; Some 8230; Some 8224;
   Some 8225; Some 710; Some 8240; Some 352; Some 8249; Some 338; None;
   Some 381; None; None; Some 8216; Some 8217; Some 8220; Some 8221;
   Some 8226; Some 8211; Some 8212; Some 732; Some 8482; Some 353; Some 8250;
   Some 339; None; Some 382; Some 376].

Definition cp1252_char (b : Z) : option Z :=
  if (128 <=? b) && (b <=? 159)
  then mjoin (cp1252_high !! Z.to_nat (b - 128))
  else Some b.

Fixpoint cp1252_decode (bs : list Z) : option str :=
  match bs with
  | [] => Some []
  | b :: r => c ← cp1252_char b; cs ← cp1252_decode r; Some (c :: cs)
  end.

(** [content.decode(enc)]; [None] stands for [UnicodeDecodeError]. *)
Definition decode (enc : encoding) (content : bytes) : option str :=
  let bs := List.map byte_val content in
  match enc with
  | utf_8 => utf8_decode bs
  | latin_1 | iso_8859_1 => Some bs
  | cp1252 => cp1252_decode bs
  end.

(** Reading in text mode translates every line ending to a newline. *)
Fixpoint universal_newlines (s : str) : str :=
  match s with
  | [] => []
  | c :: s' =>
      if c =? 13 then
        NL :: match s' with
              | d :: s'' =>
                  if d =? NL then universal_newlines s''
                  else universal_newlines s'
              | [] => []
              end
      else c :: universal_newlines s'
  end.

(** *** The documents as the libraries present them *)

(** [PyPDF2.PdfReader]: [decrypt] is the outcome of decrypting with the
    empty password, and each page holds the outcome of its [extract_text()]. *)
Record pdf_reader : Type := {
  is_encrypted : bool;
  decrypt : result unit;
  pages : list (result str)
}.

(** [docx.Document]: paragraph texts, and tables as rows of cell texts. *)
Record docx_document : Type := {
  paragraphs : list str;
  tables : list (list (list str))
}.

(** A file on disk: its suffix ([Path(file_path).suffix]), its bytes, and
    what each library makes of it.  [textract_process] raising [ImportError]
    stands for the [textract] module not being installed. *)
Record file : Type := {
  suffix : str;
  content : bytes;
  PdfReader : result pdf_reader;
  Document : result docx_document;
  textract_process : result bytes
}.

(** [isinstance(e, ValueError)]: [UnicodeDecodeError] (through
    [UnicodeError]) and [json.JSONDecodeError] are subclasses of
    [ValueError]; the other exceptions of the model are not. *)
Definition is_value_error (e : exn) : bool :=
  match e with
  | ValueError _ | ValueErrorFrom _ _ | UnicodeDecodeError | JSONDecodeError =>
      true
  | TypeError | KeyError | OverflowError | ImportError | LibraryError => false
  end.

(** A [ValueError], of a subclass too, passes through
    [except ValueError: raise]; anything else is wrapped by
    [except Exception]. *)
Definition reraise {A} (prefix : str) (e : exn) : result A :=
  if is_value_error e then Raise e else Raise (ValueErrorFrom prefix e).

Definition scanned_warning : str :=
  U "[Warning: This appears to be a scanned or image-only PDF. "
  ++ U "No text could be extracted. Please provide a text-based PDF or use OCR.]".

Definition encrypted_message : str :=
  U "PDF is password-protected and cannot be decrypted. "
  ++ U "Please provide an unencrypted version of the file.".

(** The page loop, on the state [(text_content, has_text)]; a page whose
    [extract_text()] raises ends it. *)
Fixpoint pdf_pages (ps : list (result str)) (st : list str * bool)
  : result (list str * bool) :=
  match ps with
  | [] => Return st
  | Return text :: rest =>
      if negb (falsy text) && negb (falsy (strip text))
      then pdf_pages rest (fst st ++ [strip text], true)
      else pdf_pages rest st
  | Raise e :: _ => Raise e
  end.

(** What the page loop keeps true of its state: every text kept is trimmed and not empty,
    and [has_text] tells whether one was kept. *)
Definition pages_invariant (st : list str * bool) : Prop :=
  Forall (fun t => strip t = t /\ t <> []) (fst st)
  /\ snd st = negb (falsy (concat (fst st))).

(** The stripped lines of [text_content] that are not blank, joined by
    newlines. *)
Definition join_stripped (text_content : list str) : str :=
  join [NL]
    (List.map strip
       (List.filter (fun line => negb (falsy (strip line))) text_content)).

Definition extract_from_pdf (f : file) : result str :=
  let prefix := U "Error extracting text from PDF: " in
  match PdfReader f with
  | Raise e => reraise prefix e
  | Return pdf =>
      match (if is_encrypted pdf then decrypt pdf else Return tt) with
      | Raise _ => Raise (ValueError encrypted_message)
      | Return _ =>
          match pdf_pages (pages pdf) ([], false) with
          | Raise e => reraise prefix e
          | Return (text_content, has_text) =>
              let text_content :=
                if negb has_text then text_content ++ [scanned_warning]
                else text_content in
              Return (join_stripped text_content)
          end
      end
  end.

(** [line for line in lines if line] joined by newlines. *)
Definition join_nonempty (lines : list str) : str :=
  join [NL] (List.filter (fun line => negb (falsy line)) lines).

Definition nonblank_stripped (texts : list str) : list str :=
  List.map strip (List.filter (fun t => negb (falsy (strip t))) texts).

Definition extract_from_docx (f : file) : result str :=
  match Document f with
  | Raise e => Raise (ValueErrorFrom (U "Error extracting text from DOCX: ") e)
  | Return doc =>
      let text_content :=
        nonblank_stripped (paragraphs doc)
        ++ nonblank_stripped (concat (concat (tables doc))) in
      Return (join_nonempty text_content)
  end.

(** The clean-up shared by the TXT and DOC paths. *)
Definition clean_lines (text : str) : str :=
  join_nonempty (List.map strip (split NL text)).

Definition encodings : list encoding := [utf_8; latin_1; cp1252; iso_8859_1].

Definition undecodable_message : str :=
  U "Unable to decode file with common encodings: "
  ++ U "utf-8, latin-1, cp1252, iso-8859-1".

(** The loop over [encodings]; a [UnicodeDecodeError] moves on to the next. *)
Fixpoint try_encodings (encs : list encoding) (content : bytes) : result str :=
  match encs with
  | [] => Raise (ValueError undecodable_message)
  | enc :: rest =>
      match decode enc content with
      | Some text => Return (clean_lines (universal_newlines text))
      | None => try_encodings rest content
      end
  end.

Definition extract_from_txt (f : file) : result str :=
  try_encodings encodings (content f).

Definition missing_textract_message : str :=
  U "Legacy .doc file format requires 'textract' library. "
  ++ U "Please install it: pip install textract".

Definition extract_from_doc (f : file) : result str :=
  let prefix := U "Error extracting text from DOC: " in
  match textract_process f with
  | Raise ImportError => Raise (ValueError missing_textract_message)
  | Raise e => Raise (ValueErrorFrom prefix e)
  | Return out =>
      match decode utf_8 out with
      | None => Raise (ValueErrorFrom prefix UnicodeDecodeError)
      | Some text => Return (clean_lines text)
      end
  end.

(** [s.lower()] on the ASCII letters.  No other character lowers to a
    letter of the four known suffixes, so the dispatch below is exact. *)
Definition lower (s : str) : str :=
  List.map (fun c => if (65 <=? c) && (c <=? 90) then c + 32 else c) s.

Definition extract (f : file) : result str :=
  let extension := lower (suffix f) in
  if JSON.str_eqb extension (U ".pdf") then extract_from_pdf f
  else if JSON.str_eqb extension (U ".docx") then extract_from_docx f
  else if JSON.str_eqb extension (U ".doc") then extract_from_doc f
  else if JSON.str_eqb extension (U ".txt") then extract_from_txt f
  else Raise (ValueError (U "Unsupported file format: " ++ extension)).

(** [str(n)] for a natural number. *)
Definition decimal (n : nat) : str := U (NilEmpty.string_of_uint (Nat.to_uint n)).

(** What the generator yields for a page without text. *)
Definition no_text_placeholder (page_num : nat) : str :=
  U "[Page " ++ decimal (page_num + 1) ++ U ": No extractable text]".

(** The loop of [extract_from_pdf_generator] from page [page_num] on: the
    items yielded, and the exception of the page that ends the iteration. *)
Fixpoint stream_pages (ps : list (result str)) (page_num : nat)
  : list str * option exn :=
  match ps with
  | [] => ([], None)
  | Return text :: rest =>
      let item :=
        if negb (falsy text) && negb (falsy (strip text)) then strip text
        else no_text_placeholder page_num in
      let '(items, e) := stream_pages rest (S page_num) in
      (item :: items, e)
  | Raise e :: _ => ([], Some e)
  end.

(** [extract_from_pdf_generator]: the items a consumer that runs the
    generator to its end receives, and the [ValueError] that ends it, if
    any.  Every exception, the one for a password included, is wrapped. *)
Definition extract_from_pdf_generator (f : file) : list str * option exn :=
  let prefix := U "Error extracting PDF: " in
  match PdfReader f with
  | Raise e => ([], Some (ValueErrorFrom prefix e))
  | Return pdf =>
      match (if is_encrypted pdf then decrypt pdf else Return tt) with
      | Raise _ =>
          ([], Some (ValueErrorFrom prefix
                       (ValueError (U "PDF is password-protected"))))
      | Return _ =>
          let '(items, e) := stream_pages (pages pdf) 0 in
          (items, option_map (ValueErrorFrom prefix) e)
      end
  end.

End TextExtractor.

(** ** github_fetcher.py *)

Module GitHubFetcher.

(** A repository record of the GitHub API, with the keys [summarize_data]
    reads.  [None] is JSON [null] (or, for [topics], an absent key). *)
Record repo : Type := {
  name : str;
  description : option str;
  language : option str;
  stargazers_count : Z;
  forks_count : Z;
  topics : option (list str);
  html_url : str;
  updated_at : str;
  size : Z;
  fork : bool
}.

(** An entry of [repos_summary]. *)
Record repo_summary : Type := {
  rs_name : str;
  rs_description : str;
  rs_language : str;
  stars : Z;
  forks : Z;
  rs_topics : list str;
  url : str;
  rs_updated_at : str;
  rs_size : Z
}.

(** [x or default] for an optional string: [None] and the empty string are
    falsy. *)
Definition or_default (x : option str) (default : str) : str :=
  match x with
  | Some (c :: r) => c :: r
  | _ => default
  end.

Definition truthy (x : option str) : bool :=
  match x with
  | Some (_ :: _) => true
  | _ => false
  end.

(** The variables the loop over [repo_data] updates. *)
Record acc : Type := {
  language_count : gmap str nat;
  total_stars : Z;
  total_forks : Z;
  topics_used : gset str;
  repos_summary : list repo_summary
}.

Definition acc0 : acc :=
  {| language_count := ∅; total_stars := 0; total_forks := 0;
     topics_used := ∅; repos_summary := [] |}.

(** The guard of the [continue]: a fork without stars. *)
Definition skipped (r : repo) : bool :=
  fork r && (stargazers_count r =? 0).

(** [language_count[language] += 1] on a [defaultdict(int)]. *)
Definition count_language (language : str) (m : gmap str nat) : gmap str nat :=
  <[language := S (default O (m !! language))]> m.

Definition summary_of (r : repo) : repo_summary :=
  {| rs_name := name r;
     rs_description := or_default (description r) (U "No description");
     rs_language := or_default (language r) (U "Not specified");
     stars := stargazers_count r;
     forks := forks_count r;
     rs_topics := default [] (topics r);
     url := html_url r;
     rs_updated_at := updated_at r;
     rs_size := size r |}.

(** One iteration of the loop. *)
Definition step (a : acc) (r : repo) : acc :=
  if skipped r then a
  else
    {| language_count :=
         if truthy (language r)
         then count_language (default [] (language r)) (language_count a)
         else language_count a;
       total_stars := total_stars a + stargazers_count r;
       total_forks := total_forks a + forks_count r;
       topics_used := topics_used a ∪ list_to_set (default [] (topics r));
       repos_summary := repos_summary a ++ [summary_of r] |}.

(** [repos_summary.sort(key=lambda x: x["stars"], reverse=True)]: a stable
    sort, so entries with equal stars keep their order. *)
Fixpoint insert_by_stars (x : repo_summary) (l : list repo_summary)
  : list repo_summary :=
  match l with
  | [] => [x]
  | y :: l' =>
      if stars x <? stars y then y :: insert_by_stars x l' else x :: y :: l'
  end.

Definition sort_by_stars (l : list repo_summary) : list repo_summary :=
  foldr insert_by_stars [] l.

(** The [stats] and [repositories] parts of the summary.  The [user] part
    copies fields of [user_data], and [activity_metrics] holds rounded
    floating-point ratios; neither is described here. *)
Record summary : Type := {
  total_repositories : nat;
  languages_used : gmap str nat;
  total_stars_earned : Z;
  total_forks_stat : Z;
  topics_explored : gset str;
  repositories : list repo_summary
}.

Definition summarize_data (repo_data : list repo) : summary :=
  let a := fold_left step repo_data acc0 in
  {| total_repositories := length repo_data;
     languages_used := language_count a;
     total_stars_earned := total_stars a;
     total_forks_stat := total_forks a;
     topics_explored := topics_used a;
     repositories := take 20 (sort_by_stars (repos_summary a)) |}.

(** The repositories the loop does not skip. *)
Definition kept (repo_data : list repo) : list repo :=
  List.filter (fun r => negb (skipped r)) repo_data.

(** How many repositories of a list name the language [l]. *)
Definition language_uses (l : str) (repos : list repo) : nat :=
  length (List.filter
            (fun r => truthy (language r)
                      && JSON.str_eqb (default [] (language r)) l) repos).

(** Entries in descending order of stars. *)
Definition by_stars_desc (x y : repo_summary) : Prop := stars y <= stars x.

End GitHubFetcher.

(** ** github_analyzer.py *)

Module GitHubProfileAnalyzer.

(** A record handed to the logger. *)
Inductive log_record : Type :=
| LogInfo (msg : str)
| LogError (msg : str)
| LogErrorFrom (prefix : str) (cause : exn).

(** [parse_response]: the records logged and the outcome.  Lines 149-167
    clean the response as lines 84-103 of [parse_gemini_response] do. *)
Definition parse_response (response_text : str)
  : list log_record * result JSON.value :=
  match JSON.loads (GeminiAnalyzer.clean_response response_text) with
  | Some parsed =>
      ([LogInfo (U "Successfully parsed GitHub analysis response")],
       Return parsed)
  | None =>
      ([LogErrorFrom (U "Failed to parse JSON: ") JSONDecodeError;
        LogError (U "Response preview: " ++ take 500 response_text
                  ++ U "...")],
       Raise (ValueErrorFrom (U "Failed to parse analysis response: ")
                JSONDecodeError))
  end.

End GitHubProfileAnalyzer.

(** ** main.py *)

Module Main.

(** [settings.ALLOWED_EXTENSIONS], a set. *)
Definition ALLOWED_EXTENSIONS : list str :=
  [U ".pdf"; U ".docx"; U ".doc"; U ".txt"].

(** What a handler raises: a Python exception or an [HTTPException].  The
    detail of an [HTTPException] is a text, a text that ends with [str(e)]
    of what was caught, or the text that lists the allowed extensions (in
    the order the set happens to yield them). *)
Inductive failure : Type :=
| PyError (e : exn)
| HTTPException (status_code : Z) (detail : detail)
with detail : Type :=
| Message (msg : str)
| MessageFrom (prefix : str) (cause : failure)
| InvalidFileFormat.

(** An uploaded file: its name, the suffix of that name
    ([Path(file.filename).suffix]), and the file [save_upload_file] leaves
    on disk, or the exception of the copy. *)
Record upload : Type := {
  filename : str;
  filename_suffix : str;
  saved : result TextExtractor.file
}.

Definition validate_file (u : upload) : option failure :=
  let file_ext := TextExtractor.lower (filename_suffix u) in
  if negb (existsb (JSON.str_eqb file_ext) ALLOWED_EXTENSIONS)
  then Some (HTTPException 400 InvalidFileFormat)
  else if falsy (filename u)
  then Some (HTTPException 400 (Message (U "No file provided")))
  else None.

Definition save_upload_file (u : upload) : failure + TextExtractor.file :=
  match saved u with
  | Return f => inr f
  | Raise e =>
      inl (HTTPException 500 (MessageFrom (U "Failed to save file: ")
                                (PyError e)))
  end.

(** Line 174, the test before the 400 for a resume with too little text. *)
Definition insufficient_text (raw_text : str) : bool :=
  falsy raw_text || (length (strip raw_text) <? 50)%nat.

(** [x[:1000] + "..." if len(x) > 1000 else x] *)
Definition preview (x : str) : str :=
  if (1000 <? length x)%nat then take 1000 x ++ U "..." else x.

(** The body returned by [extract_text_only]. *)
Record extract_text_response : Type := {
  status : str;
  response_filename : str;
  raw_text : str;
  cleaned_text : str;
  response_statistics : TextPreprocessor.statistics
}.

Definition lift {A} (r : result A) : failure + A :=
  match r with
  | Return a => inr a
  | Raise e => inl (PyError e)
  end.

(** The [try] block of [extract_text_only]. *)
Definition extract_text_steps (u : upload) : failure + extract_text_response :=
  match validate_file u with
  | Some e => inl e
  | None =>
      match save_upload_file u with
      | inl e => inl e
      | inr f =>
          match lift (TextExtractor.extract f) with
          | inl e => inl e
          | inr raw =>
              match lift (TextPreprocessor.preprocess raw false) with
              | inl e => inl e
              | inr cleaned =>
                  inr {| status := U "success";
                         response_filename := filename u;
                         raw_text := preview raw;
                         cleaned_text := preview cleaned;
                         response_statistics :=
                           TextPreprocessor.get_text_statistics cleaned |}
              end
          end
      end
  end.

(** [extract_text_only]: whatever the [try] block raises, an
    [HTTPException] included, is caught by [except Exception] and raised
    again as a 500.  The removal of the saved file in [finally] leaves no
    trace in the result. *)
Definition extract_text_only (u : upload) : failure + extract_text_response :=
  match extract_text_steps u with
  | inr response => inr response
  | inl e =>
      inl (HTTPException 500 (MessageFrom (U "Text extraction failed: ") e))
  end.

(** What [analyze_resume] holds when it calls Gemini. *)
Record prepared : Type := {
  prepared_raw : str;
  prepared_cleaned : str;
  prepared_stats : TextPreprocessor.statistics
}.

(** Lines 158-183, the [try] block of [analyze_resume] up to the call of
    Gemini; [analyze_resume_and_github] starts in the same way. *)
Definition analyze_resume_steps (gemini_configured : bool) (u : upload)
  : failure + prepared :=
  if negb gemini_configured
  then inl (HTTPException 503
              (Message (U "Gemini AI service not configured. "
                        ++ U "Please set GOOGLE_API_KEY.")))
  else
    match validate_file u with
    | Some e => inl e
    | None =>
        match save_upload_file u with
        | inl e => inl e
        | inr f =>
            match lift (TextExtractor.extract f) with
            | inl e => inl e
            | inr raw =>
                if insufficient_text raw
                then inl (HTTPException 400
                            (Message (U "Insufficient text content in resume")))
                else
                  match lift (TextPreprocessor.preprocess raw false) with
                  | inl e => inl e
                  | inr cleaned =>
                      inr {| prepared_raw := raw;
                             prepared_cleaned := cleaned;
                             prepared_stats :=
                               TextPreprocessor.get_text_statistics cleaned |}
                  end
            end
        end
    end.

(** [analyze_resume] up to the call of Gemini, with its [except] clauses:
    an [HTTPException] is raised again as it is, any other exception
    becomes a 500. *)
Definition analyze_resume_until_gemini (gemini_configured : bool) (u : upload)
  : failure + prepared :=
  match analyze_resume_steps gemini_configured u with
  | inr p => inr p
  | inl (HTTPException status_code detail) =>
      inl (HTTPException status_code detail)
  | inl (PyError e) =>
      inl (HTTPException 500 (MessageFrom (U "Analysis failed: ") (PyError e)))
  end.

End Main.

(** * Properties *)

(** ** Strings *)

Section StringFacts.
Implicit Types (s t p : str) (c : Z).

Lemma lstrip_app_nonspace p c s :
  isspace c = false -> lstrip (p ++ c :: s) = lstrip p ++ c :: s.
Proof.
  intros Hc. induction p as [|x p IH]; simpl.
  - now rewrite Hc.
  - destruct (isspace x); auto.
Qed.

Lemma lstrip_all_space p : Forall (fun c => isspace c = true) p -> lstrip p = [].
Proof.
  induction 1 as [|x p Hx _ IH]; simpl; auto. now rewrite Hx.
Qed.

Lemma lstrip_incl s c : In c (lstrip s) -> In c s.
Proof.
  induction s as [|x s IH]; simpl; [auto|].
  destruct (isspace x); simpl; auto.
Qed.

Lemma lstrip_idem s : lstrip (lstrip s) = lstrip s.
Proof.
  induction s as [|x s IH]; simpl; auto.
  destruct (isspace x) eqn:E; auto. simpl. now rewrite E.
Qed.

Lemma rstrip_snoc_nonspace s c t :
  isspace c = false -> Forall (fun x => isspace x = true) t ->
  rstrip (s ++ c :: t) = s ++ [c].
Proof.
  intros Hc Ht. unfold rstrip.
  rewrite rev_app_distr. simpl. rewrite <- app_assoc. simpl.
  rewrite lstrip_app_nonspace by assumption.
  rewrite lstrip_all_space.
  - simpl. rewrite rev_involutive. reflexivity.
  - apply Forall_rev; assumption.
Qed.

Lemma rstrip_cons_nonspace c s :
  isspace c = false -> rstrip (c :: s) = c :: rstrip s.
Proof.
  intros Hc. unfold rstrip. simpl.
  rewrite <- (app_nil_r (rev s ++ [c])), <- app_assoc. simpl.
  rewrite lstrip_app_nonspace by assumption.
  rewrite rev_app_distr. reflexivity.
Qed.

Lemma rstrip_idem s : rstrip (rstrip s) = rstrip s.
Proof. unfold rstrip. now rewrite rev_involutive, lstrip_idem. Qed.

Lemma strip_idem s : strip (strip s) = strip s.
Proof.
  unfold strip. destruct (lstrip s) as [|a u] eqn:E; [reflexivity|].
  assert (Ha : isspace a = false).
  { clear -E. induction s as [|x s IH]; simpl in E; [discriminate|].
    destruct (isspace x) eqn:Ex; [auto|]. now inversion E; subst. }
  rewrite rstrip_cons_nonspace by assumption. simpl. rewrite Ha.
  rewrite rstrip_cons_nonspace by assumption. now rewrite rstrip_idem.
Qed.

(** A text that starts and ends with characters that are not whitespace
    is what [strip] leaves of it, whatever whitespace surrounds it. *)
Lemma strip_delimited p a mid b t :
  isspace a = false -> isspace b = false ->
  Forall (fun x => isspace x = true) t ->
  strip (p ++ (a :: mid ++ [b]) ++ t) = lstrip p ++ a :: mid ++ [b].
Proof.
  intros Ha Hb Ht. unfold strip. simpl.
  rewrite lstrip_app_nonspace by assumption.
  replace (lstrip p ++ a :: (mid ++ [b]) ++ t)
    with ((lstrip p ++ a :: mid) ++ b :: t)
    by (rewrite <- ?app_assoc; simpl; rewrite <- ?app_assoc; reflexivity).
  rewrite rstrip_snoc_nonspace by assumption.
  now rewrite <- app_assoc.
Qed.

Lemma strip_incl s c : In c (strip s) -> In c s.
Proof.
  unfold strip, rstrip. intros H.
  apply lstrip_incl. apply in_rev in H. apply lstrip_incl in H.
  now apply in_rev in H.
Qed.

Lemma find_from_ge c s i : find_from c s i = -1 \/ i <= find_from c s i.
Proof.
  revert i. induction s as [|x s IH]; intros i; simpl; [auto|].
  destruct (x =? c); [right; lia|]. destruct (IH (i + 1)); [auto | right; lia].
Qed.

Lemma find_from_app c p s i :
  ~ In c p -> find_from c (p ++ c :: s) i = i + Z.of_nat (length p).
Proof.
  revert i. induction p as [|x p IH]; intros i Hp; simpl.
  - rewrite Z.eqb_refl. lia.
  - destruct (Z.eqb_spec x c); [exfalso; apply Hp; now left|].
    rewrite IH by (intros H; apply Hp; now right). lia.
Qed.

Lemma find_from_absent c s i : ~ In c s -> find_from c s i = -1.
Proof.
  revert i. induction s as [|x s IH]; intros i Hs; simpl; [reflexivity|].
  destruct (Z.eqb_spec x c); [exfalso; apply Hs; now left|].
  apply IH. intros H; apply Hs; now right.
Qed.

Lemma find_app c p s : ~ In c p -> find c (p ++ c :: s) = Z.of_nat (length p).
Proof. intros. unfold find. now rewrite find_from_app. Qed.

Lemma find_absent c s : ~ In c s -> find c s = -1.
Proof. apply find_from_absent. Qed.

Lemma rfind_snoc c s : rfind c (s ++ [c]) = Z.of_nat (length s).
Proof.
  unfold rfind, find. rewrite rev_app_distr. simpl. rewrite Z.eqb_refl.
  simpl. rewrite length_app. simpl. lia.
Qed.

Lemma rfind_absent c s : ~ In c s -> rfind c s = -1.
Proof.
  intros Hs. unfold rfind. rewrite find_absent; [reflexivity|].
  intros Hin. apply Hs. now apply in_rev.
Qed.

Lemma slice_app_exact p s :
  slice (p ++ s) (Z.of_nat (length p)) (Z.of_nat (length (p ++ s))) = s.
Proof.
  unfold slice. rewrite !Nat2Z.id, firstn_all, drop_app_length. reflexivity.
Qed.

Lemma startswith_app p s : startswith p (p ++ s) = true.
Proof. induction p as [|x p IH]; simpl; [reflexivity|]. now rewrite Z.eqb_refl. Qed.

Lemma endswith_app p s : endswith p (s ++ p) = true.
Proof. unfold endswith. rewrite rev_app_distr. apply startswith_app. Qed.

Lemma join_nonempty_head sep x l : x <> [] -> join sep (x :: l) <> [].
Proof. destruct x; [congruence|]. destruct l; simpl; congruence. Qed.
End StringFacts.

(** ** Lines *)

Section LineFacts.
Implicit Types (s t l : str) (ls : list str).

Lemma all_space_strip s :
  Forall (fun c => isspace c = true) s -> strip s = [].
Proof. intros H. unfold strip. now rewrite lstrip_all_space. Qed.

Lemma lstrip_nil_all_space s :
  lstrip s = [] -> Forall (fun c => isspace c = true) s.
Proof.
  induction s as [|c s IH]; simpl; [constructor|].
  destruct (isspace c) eqn:E; [|discriminate]. intros H. constructor; auto.
Qed.

Lemma rstrip_nil s : rstrip s = [] -> lstrip (rev s) = [].
Proof.
  unfold rstrip. intros H. apply (f_equal (@rev Z)) in H.
  now rewrite rev_involutive in H.
Qed.

(** [strip] leaves nothing exactly of the texts made of whitespace. *)
Lemma strip_nil_iff s : strip s = [] <-> Forall (fun c => isspace c = true) s.
Proof.
  split; [|apply all_space_strip].
  unfold strip. intros H. apply rstrip_nil, lstrip_nil_all_space in H.
  apply Forall_rev in H. rewrite rev_involutive in H.
  destruct (lstrip s) as [|a u] eqn:E; [now apply lstrip_nil_all_space|].
  exfalso. assert (Ha : isspace a = false).
  { clear -E. induction s as [|x s IH]; simpl in E; [discriminate|].
    destruct (isspace x) eqn:Ex; [auto|]. now inversion E; subst. }
  inversion H; congruence.
Qed.

Lemma split_cons sep s : exists l ls, split sep s = l :: ls.
Proof.
  induction s as [|c s (l & ls & IH)]; simpl; [eauto|].
  destruct (c =? sep); [eauto|]. rewrite IH. eauto.
Qed.

Lemma split_no_sep sep s : Forall (fun l => ~ In sep l) (split sep s).
Proof.
  induction s as [|c s IH]; simpl.
  - repeat constructor. auto.
  - destruct (Z.eqb_spec c sep).
    + constructor; auto.
    + destruct (split sep s) as [|l ls]; [repeat constructor; simpl; tauto|].
      inversion IH; subst. constructor; [|assumption].
      simpl. tauto.
Qed.

Lemma join_cons sep l l' ls :
  join sep (l :: l' :: ls) = l ++ sep ++ join sep (l' :: ls).
Proof. reflexivity. Qed.

(** Splitting at a separator and joining with it gives the text back. *)
Lemma join_split sep s : join [sep] (split sep s) = s.
Proof.
  induction s as [|c s IH]; [reflexivity|]. simpl.
  destruct (Z.eqb_spec c sep).
  - subst c. destruct (split_cons sep s) as (l & ls & E).
    rewrite E in *. rewrite join_cons, IH. reflexivity.
  - destruct (split_cons sep s) as (l & ls & E). rewrite E in *.
    destruct ls as [|l' ls].
    + simpl in *. now rewrite IH.
    + rewrite join_cons. rewrite join_cons in IH. rewrite <- IH.
      reflexivity.
Qed.

(** Joining lines that hold no separator and splitting again gives the
    lines back. *)
Lemma split_join sep l ls :
  Forall (fun x => ~ In sep x) (l :: ls) ->
  split sep (join [sep] (l :: ls)) = l :: ls.
Proof.
  revert l. induction ls as [|l' ls IH]; intros l H.
  - simpl. inversion H as [|? ? Hl _]; subst. clear H.
    induction l as [|c l IHl]; [reflexivity|]. simpl.
    destruct (Z.eqb_spec c sep); [exfalso; apply Hl; now left|].
    rewrite IHl by (intros Hin; apply Hl; now right). reflexivity.
  - inversion H as [|? ? Hl Hrest]; subst. rewrite join_cons.
    specialize (IH l' Hrest). clear H.
    induction l as [|c l IHl]; simpl.
    + rewrite Z.eqb_refl. simpl in IH. now rewrite IH.
    + destruct (Z.eqb_spec c sep); [exfalso; apply Hl; now left|].
      simpl in IHl. rewrite IHl by (intros Hin; apply Hl; now right).
      reflexivity.
Qed.

Lemma in_join sep ls c :
  In c (join sep ls) -> In c sep \/ exists l, In l ls /\ In c l.
Proof.
  induction ls as [|l ls IH]; simpl; [tauto|].
  destruct ls as [|l' ls].
  - intros H. right. eauto.
  - intros H. apply in_app_or in H as [H|H]; [right; eauto|].
    apply in_app_or in H as [H|H]; [now left|].
    destruct (IH H) as [|(x & Hx & Hc)]; [now left|]. right. eauto.
Qed.

Lemma in_join_r sep ls l c : In l ls -> In c l -> In c (join sep ls).
Proof.
  induction ls as [|x ls IH]; simpl; [tauto|].
  intros [->|H] Hc.
  - destruct ls; [assumption|]. apply in_or_app. now left.
  - destruct ls as [|y ls]; [destruct H|].
    apply in_or_app. right. apply in_or_app. right. now apply IH.
Qed.

Lemma in_split sep s l c : In l (split sep s) -> In c l -> In c s.
Proof.
  intros Hl Hc. rewrite <- (join_split sep s). eapply in_join_r; eassumption.
Qed.

End LineFacts.

(** ** The JSON reader *)

Section JSONFacts.
Import JSON.
Implicit Types (s r t : str) (d : dict) (v : value).

Lemma str_eqb_eq a b : str_eqb a b = true <-> a = b.
Proof.
  revert b. induction a as [|x a IH]; intros [|y b]; simpl; try easy.
  rewrite andb_true_iff, Z.eqb_eq, IH. split.
  - intros [-> ->]; reflexivity.
  - intros [= -> ->]; auto.
Qed.

Lemma str_eqb_refl a : str_eqb a a = true.
Proof. now apply str_eqb_eq. Qed.

Lemma str_eqb_neq a b : a <> b -> str_eqb a b = false.
Proof.
  intros H. destruct (str_eqb a b) eqn:E; [|reflexivity].
  now apply str_eqb_eq in E.
Qed.

Lemma dict_get_set_eq d k v : dict_get (dict_set d k v) k = Some v.
Proof.
  induction d as [|[k' v'] d IH]; simpl.
  - now rewrite str_eqb_refl.
  - destruct (str_eqb k' k) eqn:E; simpl; now rewrite E.
Qed.

Lemma dict_get_set_ne d k k' v :
  k <> k' -> dict_get (dict_set d k v) k' = dict_get d k'.
Proof.
  intros Hne. induction d as [|[k0 v0] d IH]; simpl.
  - now rewrite str_eqb_neq.
  - destruct (str_eqb k0 k) eqn:E; simpl.
    + apply str_eqb_eq in E. subst k0. now rewrite str_eqb_neq.
    + now rewrite IH.
Qed.

Lemma is_ws_isspace c : is_ws c = true -> isspace c = true.
Proof.
  unfold is_ws. rewrite !orb_true_iff, !Z.eqb_eq.
  intros [[[->| ->]| ->]| ->]; reflexivity.
Qed.

Lemma skip_ws_split s :
  exists w, s = w ++ skip_ws s /\ Forall (fun c => is_ws c = true) w.
Proof.
  induction s as [|c s (w & Hs & Hw)]; simpl.
  - exists []. auto.
  - destruct (is_ws c) eqn:E.
    + exists (c :: w). split; [simpl; congruence | now constructor].
    + exists []. auto.
Qed.

Lemma skip_ws_suffix s : skip_ws s `suffix_of` s.
Proof. destruct (skip_ws_split s) as (w & Hs & _). now exists w. Qed.

Lemma skip_ws_nonspace c s : is_ws c = false -> skip_ws (c :: s) = c :: s.
Proof. intros H. simpl. now rewrite H. Qed.

(** Every text is its [trim_ws] between two runs of JSON whitespace. *)
Lemma trim_ws_split s :
  exists w1 w2, s = w1 ++ trim_ws s ++ w2
    /\ Forall (fun c => is_ws c = true) w1
    /\ Forall (fun c => is_ws c = true) w2.
Proof.
  destruct (skip_ws_split s) as (w1 & Hs & Hw1).
  destruct (skip_ws_split (rev (skip_ws s))) as (w2 & Hr & Hw2).
  exists w1, (rev w2). split; [|split; [assumption | now apply Forall_rev]].
  unfold trim_ws. rewrite <- rev_app_distr, <- Hr, rev_involutive. exact Hs.
Qed.

Lemma trim_ws_delimited a mid b :
  is_ws a = false -> is_ws b = false ->
  trim_ws (a :: mid ++ [b]) = a :: mid ++ [b].
Proof.
  intros Ha Hb. unfold trim_ws. rewrite skip_ws_nonspace by assumption.
  assert (E : rev (a :: mid ++ [b]) = b :: rev (a :: mid)).
  { change (a :: mid ++ [b]) with ((a :: mid) ++ [b]).
    now rewrite rev_app_distr. }
  rewrite E, skip_ws_nonspace by assumption.
  rewrite <- E. apply rev_involutive.
Qed.

Lemma scanstring_suffix k s acc x r :
  scanstring k s acc = Some (x, r) -> r `suffix_of` s.
Proof.
  revert k acc. induction s as [|c s IH]; intros k acc H; simpl in H.
  - discriminate.
  - apply suffix_cons_r. destruct k as [|k]; [|eauto].
    repeat case_match; simplify_eq; eauto; done.
Qed.

Lemma span_digits_app s ds r : span_digits s = (ds, r) -> s = ds ++ r.
Proof.
  revert ds r. induction s as [|c s IH]; intros ds r H; simpl in H.
  - now inversion H.
  - destruct (isdigit c); [|now inversion H].
    destruct (span_digits s) as [ds' r'] eqn:E. inversion H; subst.
    simpl. f_equal. now apply IH.
Qed.

Lemma span_digits_suffix s ds r : span_digits s = (ds, r) -> r `suffix_of` s.
Proof. intros H. exists ds. now apply span_digits_app. Qed.

Lemma match_int_suffix s neg ds r :
  match_int s = Some (neg, ds, r) -> r `suffix_of` s.
Proof.
  unfold match_int. intros H.
  repeat case_match; simplify_eq;
    repeat match goal with
      | E : span_digits _ = _ |- _ => apply span_digits_suffix in E
      end;
    solve [done | eauto 4 using suffix_cons_r].
Qed.

Lemma match_frac_suffix s fr r : match_frac s = (fr, r) -> r `suffix_of` s.
Proof.
  unfold match_frac. intros H.
  repeat case_match; simplify_eq;
    repeat match goal with
      | E : span_digits _ = _ |- _ => apply span_digits_suffix in E
      end;
    solve [done | eauto 4 using suffix_cons_r].
Qed.

Lemma match_exp_suffix s ex r : match_exp s = (ex, r) -> r `suffix_of` s.
Proof.
  unfold match_exp. intros H.
  repeat case_match; simplify_eq;
    repeat match goal with
      | E : span_digits _ = _ |- _ => apply span_digits_suffix in E
      end;
    solve [done | eauto 4 using suffix_cons_r].
Qed.

Lemma match_number_spec s v r :
  match_number s = Some (v, r) -> r `suffix_of` s /\ ~ is_obj v.
Proof.
  unfold match_number. intros H.
  destruct (match_int s) as [[[neg ds] r0]|] eqn:Ei; [|discriminate].
  destruct (match_frac r0) as [fr r1] eqn:Ef.
  destruct (match_exp r1) as [ex r2] eqn:Ee.
  apply match_int_suffix in Ei. apply match_frac_suffix in Ef.
  apply match_exp_suffix in Ee.
  assert (r2 `suffix_of` s) by (etrans; [|etrans]; eassumption).
  destruct fr, ex; inversion H; subst; auto.
Qed.

Lemma literal_spec name v0 s v r :
  literal name v0 s = Some (v, r) -> r `suffix_of` s /\ v = v0.
Proof.
  unfold literal. destruct (startswith _ _); [|discriminate].
  intros [= <- <-]. split; [apply suffix_drop | reflexivity].
Qed.

Lemma scan_atom_spec s v r :
  scan_atom s = Some (v, r) -> r `suffix_of` s /\ ~ is_obj v.
Proof.
  unfold scan_atom, first_of. intros H.
  repeat match type of H with
    | match ?l with _ => _ end = _ =>
        let E := fresh "E" in
        destruct l as [[]|] eqn:E;
        [apply literal_spec in E as [? ->]; inversion H; subst; auto|]
    end.
  now apply match_number_spec.
Qed.

Lemma is_ws_false_123 : is_ws 123 = false. Proof. reflexivity. Qed.
Lemma is_ws_false_125 : is_ws 125 = false. Proof. reflexivity. Qed.

(** What the reader returns is a suffix of its input, and an object was
    read from a text in braces. *)
Lemma scan_spec fuel :
  (forall s v r, scan_once fuel s = Scanned v r ->
     r `suffix_of` s
     /\ (is_obj v -> exists s', s = 123 :: s' /\ (125 :: r) `suffix_of` s'))
  /\ (forall s acc d r, members fuel s acc = Scanned d r ->
        (125 :: r) `suffix_of` s)
  /\ (forall s acc l r, elements fuel s acc = Scanned l r ->
        r `suffix_of` s).
Proof.
  induction fuel as [|f (IHs & IHm & IHe)]; [repeat split; discriminate|].
  split; [|split].
  - intros s v r H. simpl in H. destruct s as [|c s']; [discriminate|].
    destruct (Z.eqb_spec c 34).
    { destruct (scanstring 0 s' []) as [[x r0]|] eqn:E; [|discriminate].
      inversion H; subst. apply scanstring_suffix in E.
      split; [by apply suffix_cons_r | intros []]. }
    destruct (Z.eqb_spec c 123).
    { subst c. pose proof (skip_ws_suffix s') as Hs.
      destruct (skip_ws s') as [|c2 s2]; [discriminate|].
      destruct (Z.eqb_spec c2 125).
      { inversion H; subst. split.
        - apply suffix_cons_r. etrans; [|exact Hs]. by apply suffix_cons_r.
        - intros _. eauto. }
      destruct (Z.eqb_spec c2 34); [|discriminate].
      destruct (members f s2 []) as [d r0| |] eqn:E; try discriminate.
      inversion H; subst. apply IHm in E.
      assert ((125 :: r) `suffix_of` s').
      { etrans; [exact E|]. etrans; [|exact Hs]. by apply suffix_cons_r. }
      split; [|eauto].
      apply suffix_cons_r. etrans; [|eassumption]. by apply suffix_cons_r. }
    destruct (Z.eqb_spec c 91).
    { pose proof (skip_ws_suffix s') as Hs.
      destruct (skip_ws s') as [|c2 s2]; [discriminate|].
      destruct (Z.eqb_spec c2 93).
      { inversion H; subst. split; [|intros []].
        apply suffix_cons_r. etrans; [|exact Hs]. by apply suffix_cons_r. }
      destruct (elements f (c2 :: s2) []) as [l r0| |] eqn:E;
        try discriminate.
      inversion H; subst. apply IHe in E. split; [|intros []].
      apply suffix_cons_r. by etrans. }
    destruct (scan_atom (c :: s')) as [[v0 r0]|] eqn:E; [|discriminate].
    inversion H; subst.
    apply scan_atom_spec in E as [H1 H2]. split; [assumption | tauto].
  - intros s acc d r H. simpl in H.
    destruct (scanstring 0 s []) as [[k r0]|] eqn:Ek; [|discriminate].
    apply scanstring_suffix in Ek.
    pose proof (skip_ws_suffix r0) as H0.
    destruct (skip_ws r0) as [|c r1]; [discriminate|].
    destruct (c =? 58); [|discriminate].
    destruct (scan_once f (skip_ws r1)) as [v r2| |] eqn:Ev;
      try discriminate.
    apply IHs in Ev as [Ev _].
    pose proof (skip_ws_suffix r1) as H1.
    pose proof (skip_ws_suffix r2) as H2.
    assert (Hr2 : r2 `suffix_of` s).
    { etrans; [exact Ev|]. etrans; [exact H1|].
      etrans; [|exact Ek]. etrans; [|exact H0]. by apply suffix_cons_r. }
    destruct (skip_ws r2) as [|c3 r3]; [discriminate|].
    destruct (Z.eqb_spec c3 125).
    { inversion H; subst. etrans; [exact H2 | exact Hr2]. }
    destruct (c3 =? 44); [|discriminate].
    pose proof (skip_ws_suffix r3) as H3.
    destruct (skip_ws r3) as [|q r4]; [discriminate|].
    destruct (q =? 34); [|discriminate].
    apply IHm in H. etrans; [exact H|].
    etrans; [|exact Hr2]. etrans; [|exact H2].
    apply suffix_cons_r. etrans; [|exact H3]. by apply suffix_cons_r.
  - intros s acc l r H. simpl in H.
    destruct (scan_once f s) as [v r0| |] eqn:Ev; try discriminate.
    apply IHs in Ev as [Ev _].
    pose proof (skip_ws_suffix r0) as H0.
    destruct (skip_ws r0) as [|c r1]; [discriminate|].
    destruct (c =? 93).
    { inversion H; subst. etrans; [|exact Ev]. etrans; [|exact H0].
      by apply suffix_cons_r. }
    destruct (c =? 44); [|discriminate].
    apply IHe in H. etrans; [exact H|].
    etrans; [apply skip_ws_suffix|]. etrans; [|exact Ev].
    etrans; [|exact H0]. by apply suffix_cons_r.
Qed.

Lemma scan_once_suffix fuel s v r :
  scan_once fuel s = Scanned v r -> r `suffix_of` s.
Proof. intros H. now apply (scan_spec fuel) in H. Qed.

(** Fuel above twice the length of the text is never exhausted. *)
Lemma scan_fuel fuel :
  (forall s, (2 * length s < fuel)%nat -> scan_once fuel s <> Exhausted)
  /\ (forall s acc, (2 * length s < fuel)%nat ->
        members fuel s acc <> Exhausted)
  /\ (forall s acc, (2 * length s + 1 < fuel)%nat ->
        elements fuel s acc <> Exhausted).
Proof.
  induction fuel as [|f (IHs & IHm & IHe)]; [repeat split; intros; lia|].
  split; [|split].
  - intros s Hf. simpl. destruct s as [|c s']; [discriminate|].
    simpl in Hf. pose proof (suffix_length _ _ (skip_ws_suffix s')) as Hs.
    destruct (c =? 34); [now destruct (scanstring 0 s' []) as [[]|]|].
    destruct (c =? 123).
    { destruct (skip_ws s') as [|c2 s2]; [discriminate|]. simpl in Hs.
      destruct (c2 =? 125); [discriminate|].
      destruct (c2 =? 34); [|discriminate].
      specialize (IHm s2 []).
      destruct (members f s2 []); try discriminate.
      intros _. apply IHm; [lia | reflexivity]. }
    destruct (c =? 91).
    { destruct (skip_ws s') as [|c2 s2]; [discriminate|]. simpl in Hs.
      destruct (c2 =? 93); [discriminate|].
      specialize (IHe (c2 :: s2) []).
      destruct (elements f (c2 :: s2) []); try discriminate.
      intros _. apply IHe; [simpl; lia | reflexivity]. }
    now destruct (scan_atom (c :: s')) as [[]|].
  - intros s acc Hf. simpl.
    destruct (scanstring 0 s []) as [[k r0]|] eqn:Ek; [|discriminate].
    apply scanstring_suffix, suffix_length in Ek.
    pose proof (suffix_length _ _ (skip_ws_suffix r0)) as H0.
    destruct (skip_ws r0) as [|c r1]; [discriminate|]. simpl in H0.
    destruct (c =? 58); [|discriminate].
    pose proof (suffix_length _ _ (skip_ws_suffix r1)) as H1.
    specialize (IHs (skip_ws r1)).
    destruct (scan_once f (skip_ws r1)) as [v r2| |] eqn:Ev;
      [|discriminate | intros _; apply IHs; [lia | reflexivity]].
    apply scan_once_suffix, suffix_length in Ev.
    pose proof (suffix_length _ _ (skip_ws_suffix r2)) as H2.
    destruct (skip_ws r2) as [|c3 r3]; [discriminate|]. simpl in H2.
    destruct (c3 =? 125); [discriminate|].
    destruct (c3 =? 44); [|discriminate].
    pose proof (suffix_length _ _ (skip_ws_suffix r3)) as H3.
    destruct (skip_ws r3) as [|q r4]; [discriminate|]. simpl in H3.
    destruct (q =? 34); [|discriminate].
    apply IHm. lia.
  - intros s acc Hf. simpl.
    specialize (IHs s).
    destruct (scan_once f s) as [v r0| |] eqn:Ev;
      [|discriminate | intros _; apply IHs; [lia | reflexivity]].
    apply scan_once_suffix, suffix_length in Ev.
    pose proof (suffix_length _ _ (skip_ws_suffix r0)) as H0.
    destruct (skip_ws r0) as [|c r1]; [discriminate|]. simpl in H0.
    destruct (c =? 93); [discriminate|].
    destruct (c =? 44); [|discriminate].
    pose proof (suffix_length _ _ (skip_ws_suffix r1)) as H1.
    apply IHe. lia.
Qed.

(** [decode] never stops for lack of fuel: [None] is a text that is not
    one JSON value. *)
Lemma decode_fuel t : scan_once (S (2 * length t)) t <> Exhausted.
Proof. apply scan_fuel. lia. Qed.

Lemma decode_object_shape t d :
  decode t = Some (Obj d) -> exists mid, t = 123 :: mid ++ [125].
Proof.
  unfold decode. intros H.
  destruct (scan_once _ t) as [v [|]| |] eqn:E; try discriminate.
  inversion H; subst.
  apply scan_spec in E as [_ E]. destruct (E I) as (s' & -> & [mid ->]).
  eauto.
Qed.

(** A text that [loads] reads as an object is a text in braces between
    two runs of JSON whitespace, and [loads] reads the same object from
    the text in braces alone. *)
Lemma loads_object_shape s d :
  loads s = Some (Obj d) ->
  exists w1 mid w2,
    s = w1 ++ (123 :: mid ++ [125]) ++ w2
    /\ Forall (fun c => isspace c = true) w1
    /\ Forall (fun c => isspace c = true) w2
    /\ loads (123 :: mid ++ [125]) = Some (Obj d).
Proof.
  unfold loads. intros H.
  destruct (decode_object_shape _ _ H) as [mid Hmid].
  destruct (trim_ws_split s) as (w1 & w2 & Hs & Hw1 & Hw2).
  exists w1, mid, w2. rewrite <- Hmid.
  split; [exact Hs|]. split; [|split].
  - eapply Forall_impl; [exact Hw1 | apply is_ws_isspace].
  - eapply Forall_impl; [exact Hw2 | apply is_ws_isspace].
  - rewrite Hmid at 1. rewrite trim_ws_delimited by reflexivity.
    rewrite <- Hmid. exact H.
Qed.
End JSONFacts.

(** ** The recovery parser *)

Section RecoveryFacts.
Import JSON GeminiAnalyzer.
Implicit Types (r s t p : str) (d : dict).

Lemma in_drop (n : nat) s c : In c (drop n s) -> In c s.
Proof.
  intros H. rewrite <- (firstn_skipn n s). apply in_or_app. now right.
Qed.

Lemma in_take (n : nat) s c : In c (take n s) -> In c s.
Proof.
  intros H. rewrite <- (firstn_skipn n s). apply in_or_app. now left.
Qed.

Lemma strip_fences_incl s c : In c (strip_fences s) -> In c s.
Proof.
  unfold strip_fences. intros H.
  repeat case_match; eauto using in_drop, in_take.
Qed.

Lemma trimmed_incl r c : In c (trimmed r) -> In c r.
Proof.
  unfold trimmed. intros H.
  now apply strip_incl, strip_fences_incl, strip_incl in H.
Qed.

Lemma json_span_no_pair t :
  ~ (In 123 t /\ In 125 t) -> json_span t = t.
Proof.
  intros H. unfold json_span.
  destruct (Z.eqb_spec (find 123 t) (-1)) as [|H1]; [reflexivity|].
  destruct (Z.eqb_spec (rfind 125 t) (-1)) as [|H2]; [reflexivity|].
  exfalso. apply H. split.
  - destruct (in_dec Z.eq_dec 123 t) as [|Hn]; [assumption|].
    now apply find_absent in Hn.
  - destruct (in_dec Z.eq_dec 125 t) as [|Hn]; [assumption|].
    now apply rfind_absent in Hn.
Qed.

(** The search for braces cuts a brace-free prefix off a text in braces. *)
Lemma json_span_delimited p mid :
  ~ In 123 p -> json_span (p ++ 123 :: mid ++ [125]) = 123 :: mid ++ [125].
Proof.
  intros Hp. unfold json_span. cbv zeta.
  rewrite find_app by assumption.
  assert (E : rfind 125 (p ++ 123 :: mid ++ [125])
              = Z.of_nat (length (p ++ 123 :: mid))).
  { rewrite <- (rfind_snoc 125 (p ++ 123 :: mid)). f_equal.
    now rewrite <- app_assoc. }
  rewrite E.
  destruct (Z.eqb_spec (Z.of_nat (length p)) (-1)); [lia|].
  destruct (Z.eqb_spec (Z.of_nat (length (p ++ 123 :: mid))) (-1)); [lia|].
  simpl andb. cbv iota.
  replace (Z.of_nat (length (p ++ 123 :: mid)) + 1)
    with (Z.of_nat (length (p ++ 123 :: mid ++ [125]))).
  - apply slice_app_exact.
  - rewrite !length_app. simpl. rewrite length_app. simpl. lia.
Qed.

Lemma strip_fences_object mid :
  strip_fences (123 :: mid ++ [125]) = 123 :: mid ++ [125].
Proof.
  unfold strip_fences.
  change (startswith fence_json (123 :: mid ++ [125])) with false.
  change (startswith fence (123 :: mid ++ [125])) with false.
  cbv iota. unfold endswith.
  change (123 :: mid ++ [125]) with ((123 :: mid) ++ [125]) at 1.
  rewrite rev_app_distr. reflexivity.
Qed.

(** A fenced text: the opening fence is cut within the first characters,
    the closing fence is cut off. *)
Lemma strip_fences_fenced (a b : str) :
  (7 <= length a)%nat ->
  exists n, strip_fences (a ++ b ++ fence) = drop n a ++ b.
Proof.
  intros Ha. unfold strip_fences.
  assert (H : forall n, (n <= 7)%nat ->
            (if endswith fence (drop n (a ++ b ++ fence))
             then take (length (drop n (a ++ b ++ fence)) - 3)
                    (drop n (a ++ b ++ fence))
             else drop n (a ++ b ++ fence)) = drop n a ++ b).
  { intros n Hn. rewrite drop_app_le by lia.
    rewrite app_assoc, endswith_app.
    apply take_app_length'. rewrite length_app. simpl. lia. }
  destruct (startswith fence_json _).
  - exists 7%nat. now apply H.
  - destruct (startswith fence _).
    + exists 3%nat. apply H. lia.
    + exists 0%nat. apply (H 0%nat). lia.
Qed.

Lemma not_in_whitespace c w :
  isspace c = false -> Forall (fun x => isspace x = true) w -> ~ In c w.
Proof.
  intros Hc Hw Hin. rewrite List.Forall_forall in Hw.
  apply Hw in Hin. congruence.
Qed.

(** The bare body: a text in braces, with whitespace around it. *)
Lemma clean_response_object w1 mid w2 :
  Forall (fun c => isspace c = true) w1 ->
  Forall (fun c => isspace c = true) w2 ->
  clean_response (w1 ++ (123 :: mid ++ [125]) ++ w2) = 123 :: mid ++ [125].
Proof.
  intros H1 H2. unfold clean_response, trimmed.
  rewrite strip_delimited by (reflexivity || assumption).
  rewrite lstrip_all_space by assumption. simpl app at 1.
  rewrite strip_fences_object.
  pose proof (strip_delimited [] 123 mid 125 [] eq_refl eq_refl
                (List.Forall_nil _)) as E.
  simpl in E. rewrite app_nil_r in E. simpl. rewrite E.
  apply (json_span_delimited []). auto.
Qed.

(** The fenced body after brace-free prose. *)
Lemma clean_response_fenced p w1 mid w2 :
  ~ In 123 p ->
  Forall (fun c => isspace c = true) w1 ->
  Forall (fun c => isspace c = true) w2 ->
  clean_response (fenced p (w1 ++ (123 :: mid ++ [125]) ++ w2))
  = 123 :: mid ++ [125].
Proof.
  intros Hp H1 H2. unfold clean_response, trimmed, fenced.
  set (body := w1 ++ (123 :: mid ++ [125]) ++ w2).
  (* the first strip only removes whitespace in front of the prose *)
  assert (E0 : strip (p ++ fence_json ++ [NL] ++ body ++ [NL] ++ fence)
               = (lstrip p ++ fence_json) ++ ([NL] ++ body ++ [NL]) ++ fence).
  { pose proof (strip_delimited p 96
                  ([96; 96; 106; 115; 111; 110] ++ [NL] ++ body ++ [NL]
                   ++ [96; 96]) 96 [] eq_refl eq_refl (List.Forall_nil _)) as E.
    rewrite app_nil_r in E.
    replace (p ++ fence_json ++ [NL] ++ body ++ [NL] ++ fence)
      with (p ++ 96 :: ([96; 96; 106; 115; 111; 110] ++ [NL] ++ body
                         ++ [NL] ++ [96; 96]) ++ [96]).
    - rewrite E. change fence_json with [96; 96; 96; 106; 115; 111; 110].
      change fence with [96; 96; 96].
      rewrite <- ?app_assoc. simpl. rewrite <- ?app_assoc. reflexivity.
    - change fence_json with [96; 96; 96; 106; 115; 111; 110].
      change fence with [96; 96; 96].
      rewrite <- ?app_assoc. simpl. rewrite <- ?app_assoc. reflexivity. }
  rewrite E0.
  destruct (strip_fences_fenced (lstrip p ++ fence_json)
              ([NL] ++ body ++ [NL])) as [n En].
  { rewrite length_app. change (length fence_json) with 7%nat. lia. }
  rewrite <- app_assoc in En. rewrite <- ?app_assoc. rewrite <- ?app_assoc in En.
  rewrite En. clear En E0.
  set (q := drop n (lstrip p ++ fence_json)).
  assert (Hq : ~ In 123 q).
  { intros H. apply in_drop, in_app_or in H as [H|H].
    - apply Hp. now apply lstrip_incl.
    - change fence_json with [96; 96; 96; 106; 115; 111; 110] in H.
      simpl in H. intuition discriminate. }
  unfold body.
  replace (q ++ [NL] ++ (w1 ++ (123 :: mid ++ [125]) ++ w2) ++ [NL])
    with ((q ++ [NL] ++ w1) ++ (123 :: mid ++ [125]) ++ w2 ++ [NL])
    by (rewrite <- ?app_assoc; simpl; rewrite <- ?app_assoc; reflexivity).
  rewrite strip_delimited; try reflexivity.
  - apply json_span_delimited. intros H.
    apply lstrip_incl, in_app_or in H as [H|H]; [now apply Hq|].
    simpl in H. destruct H as [H|H]; [discriminate|].
    revert H. now apply not_in_whitespace.
  - apply Forall_app. split; [assumption|]. now repeat constructor.
Qed.

Lemma backfill_object fields d :
  backfill fields (Obj d) = Return (Obj (fold_left fill_field fields d)).
Proof.
  revert d. induction fields as [|f fs IH]; intros d; [reflexivity|].
  simpl. unfold fill_field at 2. unfold mbind, result_bind. simpl.
  destruct (dict_mem d f); simpl; apply IH.
Qed.

Lemma dict_get_filled fields d k :
  dict_get (fold_left fill_field fields d) k
  = match dict_get d k with
    | Some v => Some v
    | None => if existsb (str_eqb k) fields then Some (default_for k)
              else None
    end.
Proof.
  revert d. induction fields as [|f fs IH]; intros d; simpl.
  - now destruct (dict_get d k).
  - rewrite IH. unfold fill_field, dict_mem.
    destruct (dict_get d f) as [vf|] eqn:Ef.
    + destruct (dict_get d k) eqn:Ek; [reflexivity|].
      destruct (str_eqb k f) eqn:E; [|reflexivity].
      apply str_eqb_eq in E. congruence.
    + destruct (str_eqb k f) eqn:E.
      * apply str_eqb_eq in E. subst k.
        now rewrite dict_get_set_eq, Ef.
      * rewrite dict_get_set_ne; [reflexivity|].
        intros ->. now rewrite str_eqb_refl in E.
Qed.
End RecoveryFacts.

Section RecoveryTheorems.
Import JSON GeminiAnalyzer.

(** C1. Whenever the cleaned text of a response reads as a JSON object,
    [parse_gemini_response] prints nothing and returns a dictionary in which
    each of the four required keys is present: a key of the object keeps its
    value, a missing [skills] is the empty list, a missing [experience] or
    [tech_stack] the empty dictionary, a missing [summary] the empty string.
    No other key is added or changed. *)
Theorem parse_backfills_required_keys (r : str) (d : dict) :
  loads (clean_response r) = Some (Obj d) ->
  exists d',
    parse_gemini_response r = ([], Return (Obj d'))
    /\ dict_get d' (U "skills")
       = Some (default (Arr []) (dict_get d (U "skills")))
    /\ dict_get d' (U "experience")
       = Some (default (Obj []) (dict_get d (U "experience")))
    /\ dict_get d' (U "tech_stack")
       = Some (default (Obj []) (dict_get d (U "tech_stack")))
    /\ dict_get d' (U "summary")
       = Some (default (Str []) (dict_get d (U "summary")))
    /\ (forall k, ~ In k required_fields -> dict_get d' k = dict_get d k).
Proof.
  intros H. exists (fold_left fill_field required_fields d).
  split.
  { unfold parse_gemini_response. now rewrite H, backfill_object. }
  repeat split.
  1-4: rewrite dict_get_filled; destruct (dict_get _ _); reflexivity.
  intros k Hk. rewrite dict_get_filled.
  destruct (dict_get d k); [reflexivity|].
  destruct (existsb (str_eqb k) required_fields) eqn:E; [|reflexivity].
  apply existsb_exists in E as (f & Hf & E). apply str_eqb_eq in E.
  subst f. contradiction.
Qed.

Lemma parse_backfills_required_keys_witness :
  loads (clean_response (Q "{'skills': [], 'experience': {}, 'tech_stack': {}}"))
  = Some (Obj [(U "skills", Arr []); (U "experience", Obj []);
               (U "tech_stack", Obj [])])
  /\ exists d',
       parse_gemini_response
         (Q "{'skills': [], 'experience': {}, 'tech_stack': {}}")
       = ([], Return (Obj d'))
       /\ dict_get d' (U "summary") = Some (Str []).
Proof.
  split; [vm_compute; reflexivity|].
  destruct (parse_backfills_required_keys
              (Q "{'skills': [], 'experience': {}, 'tech_stack': {}}")
              [(U "skills", Arr []); (U "experience", Obj []);
               (U "tech_stack", Obj [])])
    as (d' & H0 & _ & _ & _ & H4 & _); [vm_compute; reflexivity|].
  exists d'. split; [exact H0 | exact H4].
Defined.

(** C2, as stated, fails: prose that itself contains an opening brace moves
    the start of the slice into the prose, and the parser rejects a response
    whose body alone it accepts. *)
Lemma fenced_prose_with_brace_differs :
  loads (U "{}") = Some (Obj [])
  /\ snd (parse_gemini_response (fenced (U "Result {json}: ") (U "{}")))
     <> snd (parse_gemini_response (U "{}")).
Proof. split; [vm_compute; reflexivity | vm_compute; discriminate]. Qed.

(** C2, amended. For every text [body] that [json.loads] reads as an object
    and every prose without an opening brace, the response that puts [body]
    in json fences after the prose is parsed to the same outcome as [body]
    alone: the object read from [body], back-filled, with nothing printed. *)
Theorem fenced_response_same_as_bare (prose body : str) (d : dict) :
  loads body = Some (Obj d) ->
  ~ In 123 prose ->
  parse_gemini_response (fenced prose body) = parse_gemini_response body
  /\ parse_gemini_response body
     = ([], Return (Obj (fold_left fill_field required_fields d))).
Proof.
  intros Hb Hp.
  destruct (loads_object_shape _ _ Hb) as (w1 & mid & w2 & -> & H1 & H2 & HX).
  unfold parse_gemini_response.
  rewrite clean_response_fenced, clean_response_object by assumption.
  rewrite HX, backfill_object. split; reflexivity.
Qed.

Lemma fenced_response_same_as_bare_witness :
  parse_gemini_response (fenced (U "Sure! ") (Q "{'skills': []}"))
  = parse_gemini_response (Q "{'skills': []}").
Proof.
  apply (fenced_response_same_as_bare (U "Sure! ") (Q "{'skills': []}")
           [(U "skills", Arr [])]).
  - vm_compute; reflexivity.
  - vm_compute. intuition discriminate.
Defined.

(** The claim C3 has the failure carry the preview.  At the response
    [abc] the preview is printed, and the [ValueError] raised holds the
    prefix and the message of the decoder only (Expecting value: line 1
    column 1 (char 0)); the response [xyz], whose preview is another one,
    fails with the same exception. *)
Lemma preview_printed_not_carried :
  parse_gemini_response (U "abc")
  = ([[9888; 65039] ++ U " Failed to parse JSON. Response preview: abc..."],
     Raise (ValueErrorFrom (U "Failed to parse Gemini response as JSON: ")
              JSONDecodeError))
  /\ snd (parse_gemini_response (U "xyz"))
     = snd (parse_gemini_response (U "abc"))
  /\ fst (parse_gemini_response (U "xyz"))
     <> fst (parse_gemini_response (U "abc")).
Proof.
  split; [vm_compute; reflexivity|].
  split; [vm_compute; reflexivity|].
  vm_compute. discriminate.
Qed.

(** C3, amended: the preview is printed, not carried.  A response without
    a pair of braces is not sliced: the whole trimmed text goes to
    [json.loads].  The call fails with the failed-to-parse [ValueError],
    whose message is the prefix and the message of the decoder, exactly
    when [json.loads] rejects that text.  It has then printed one line:
    the warning sign, the words before the preview, the first 500
    characters of the response as it came, and three dots.  When the text
    is read, nothing is printed. *)
Theorem unbraced_response_fails_on_parse_only (r : str) :
  ~ (In 123 r /\ In 125 r) ->
  clean_response r = trimmed r
  /\ (loads (trimmed r) = None
      <-> parse_gemini_response r
          = ([[9888; 65039] ++ U " Failed to parse JSON. Response preview: "
              ++ take 500 r ++ U "..."],
             Raise (ValueErrorFrom
                      (U "Failed to parse Gemini response as JSON: ")
                      JSONDecodeError)))
  /\ (loads (trimmed r) = None
      <-> snd (parse_gemini_response r)
          = Raise (ValueErrorFrom
                     (U "Failed to parse Gemini response as JSON: ")
                     JSONDecodeError))
  /\ (loads (trimmed r) <> None -> fst (parse_gemini_response r) = [])
  /\ (length (take 500 r) <= 500)%nat
  /\ (length ([9888; 65039]%Z
              ++ U " Failed to parse JSON. Response preview: "
              ++ take 500 r ++ U "...") <= 546)%nat.
Proof.
  intros H.
  assert (E : clean_response r = trimmed r).
  { apply json_span_no_pair. intros [H1 H2].
    apply H. split; now apply trimmed_incl. }
  split; [exact E|].
  unfold parse_gemini_response, preview_line. rewrite E.
  destruct (loads (trimmed r)) as [v|].
  - split; [split; [discriminate|]|split; [split; [discriminate|]|]].
    + destruct (backfill required_fields v); discriminate.
    + destruct (backfill required_fields v); discriminate.
    + split; [now destruct (backfill required_fields v)|].
      rewrite !length_app, length_take.
      change (length (U " Failed to parse JSON. Response preview: "))
        with 41%nat.
      change (length (U "...")) with 3%nat.
      change (length [9888; 65039]) with 2%nat. lia.
  - split; [tauto|]. split; [tauto|]. split; [congruence|].
    rewrite !length_app, length_take.
    change (length (U " Failed to parse JSON. Response preview: "))
      with 41%nat.
    change (length (U "...")) with 3%nat.
    change (length [9888; 65039]) with 2%nat. lia.
Qed.

Lemma unbraced_response_fails_on_parse_only_witness :
  ~ (In 123 (U "I cannot help with that.")
     /\ In 125 (U "I cannot help with that."))
  /\ parse_gemini_response (U "I cannot help with that.")
     = ([[9888; 65039]
         ++ U " Failed to parse JSON. Response preview: "
         ++ U "I cannot help with that." ++ U "..."],
        Raise (ValueErrorFrom (U "Failed to parse Gemini response as JSON: ")
                 JSONDecodeError)).
Proof.
  assert (H : ~ (In 123 (U "I cannot help with that.")
                 /\ In 125 (U "I cannot help with that."))).
  { vm_compute. intuition discriminate. }
  split; [exact H|].
  destruct (unbraced_response_fails_on_parse_only _ H) as (_ & [Hp _] & _).
  apply Hp. vm_compute; reflexivity.
Defined.
End RecoveryTheorems.

(** ** The score normalizer *)

Section ScoreFacts.
Import JSON GeminiAnalyzer.
Variable int_of_float : str -> result Z.
Variable int_of_str : str -> result Z.

Local Abbreviation py_int := (py_int int_of_float int_of_str).
Local Abbreviation validate_skill := (validate_skill int_of_float int_of_str).

Lemma validate_skill_missing (d : dict) :
  dict_get d (U "score") = None ->
  validate_skill (Obj d) = Return (Obj (dict_set d (U "score") (Int 5))).
Proof.
  intros H. unfold GeminiAnalyzer.validate_skill, py_contains, dict_mem.
  now rewrite H.
Qed.

Lemma validate_skill_present (d : dict) (x : value) (n : Z) :
  dict_get d (U "score") = Some x -> py_int x = Return n ->
  validate_skill (Obj d)
  = Return (Obj (dict_set d (U "score") (Int (Z.max 1 (Z.min 10 n))))).
Proof.
  intros H Hn.
  unfold GeminiAnalyzer.validate_skill, py_contains, py_getitem, dict_mem.
  rewrite H. unfold mbind, result_bind. now rewrite Hn.
Qed.

Lemma validate_skill_normalizes (skill : value) :
  convertible_entry int_of_float int_of_str skill ->
  exists skill',
    validate_skill skill = Return skill'
    /\ normalized_entry int_of_float int_of_str skill skill'.
Proof.
  intros (d & -> & Hd).
  assert (Hscore : U "score" <> [] ) by discriminate.
  destruct (dict_get d (U "score")) as [x|] eqn:E.
  - destruct (Hd x eq_refl) as [n Hn].
    eexists. split; [now apply (validate_skill_present d x n)|].
    exists d. eexists. repeat split.
    + rewrite E. discriminate.
    + intros x' n' Hx' Hn'. rewrite E in Hx'. inversion Hx'; subst x'.
      rewrite Hn in Hn'. inversion Hn'; subst n'. apply dict_get_set_eq.
    + eexists. split; [apply dict_get_set_eq | lia].
    + intros k Hk. apply dict_get_set_ne. congruence.
  - eexists. split; [now apply validate_skill_missing|].
    exists d. eexists. repeat split.
    + intros _. apply dict_get_set_eq.
    + intros x n Hx. rewrite E in Hx. discriminate.
    + eexists. split; [apply dict_get_set_eq | lia].
    + intros k Hk. apply dict_get_set_ne. congruence.
Qed.
End ScoreFacts.

(** The claim C4 has the normalizer total.  A score that [int()] does not
    convert makes line 180 raise: [null] a [TypeError], whatever the
    conversions of floats and of texts do. *)
Lemma null_score_raises :
  GeminiAnalyzer.validate_skill_scores
    (fun _ => Raise OverflowError) (fun _ => Raise (ValueError []))
    [JSON.Obj [(U "name", JSON.Str (U "Python")); (U "score", JSON.Int 7)];
     JSON.Obj [(U "name", JSON.Str (U "Go")); (U "score", JSON.Null)]]
  = Raise TypeError.
Proof. reflexivity. Qed.

(** C4, amended to the lists on which [int()] converts every score.
    [validate_skill_scores] returns on every list of skill dictionaries
    whose score, where present, is a value [int()] converts (an integer in
    particular): the result has one entry per input entry, in order, whose
    score is the converted value clamped into 1..10, or 5 where the entry
    had no score; no other key changes.  An integer score [z] becomes
    [max 1 (min 10 z)], a boolean score 1 (both booleans, as [int()] gives
    0 or 1).  An out-of-range or missing score never makes the call
    fail. *)
Theorem validate_skill_scores_clamps
    (int_of_float int_of_str : str -> result Z) (skills : list JSON.value) :
  Forall (GeminiAnalyzer.convertible_entry int_of_float int_of_str) skills ->
  exists out,
    GeminiAnalyzer.validate_skill_scores int_of_float int_of_str skills
    = Return out
    /\ Forall2 (GeminiAnalyzer.normalized_entry int_of_float int_of_str)
         skills out
    /\ Forall2
         (fun skill skill' =>
            exists d d',
              skill = JSON.Obj d /\ skill' = JSON.Obj d'
              /\ (forall z,
                    JSON.dict_get d (U "score") = Some (JSON.Int z) ->
                    JSON.dict_get d' (U "score")
                    = Some (JSON.Int (Z.max 1 (Z.min 10 z))))
              /\ (forall b,
                    JSON.dict_get d (U "score") = Some (JSON.Bool b) ->
                    JSON.dict_get d' (U "score") = Some (JSON.Int 1))
              /\ (JSON.dict_get d (U "score") = None ->
                  JSON.dict_get d' (U "score") = Some (JSON.Int 5)))
         skills out.
Proof.
  induction 1 as [|skill rest Hs _ (out & Hout & Hall & Hint)].
  - exists []. split; [reflexivity|]. split; constructor.
  - destruct (validate_skill_normalizes _ _ _ Hs) as (skill' & Hv & Hn).
    exists (skill' :: out). split; [simpl; now rewrite Hv, Hout|].
    split; [now constructor|]. constructor; [|exact Hint].
    destruct Hn as (d & d' & -> & -> & Hnone & Hsome & _ & _).
    exists d, d'. split; [reflexivity|]. split; [reflexivity|].
    split; [|split; [|exact Hnone]].
    + intros z Hz. exact (Hsome (JSON.Int z) z Hz eq_refl).
    + intros b Hb.
      rewrite (Hsome (JSON.Bool b) (if b then 1 else 0) Hb eq_refl).
      now destruct b.
Qed.

Lemma validate_skill_scores_clamps_witness :
  GeminiAnalyzer.validate_skill_scores
    (fun _ => Raise OverflowError) (fun _ => Raise (ValueError []))
    [JSON.Obj [(U "name", JSON.Str (U "Python")); (U "score", JSON.Int 15)];
     JSON.Obj [(U "name", JSON.Str (U "Rust")); (U "score", JSON.Int 0)];
     JSON.Obj [(U "name", JSON.Str (U "Go"))]]
  = Return
      [JSON.Obj [(U "name", JSON.Str (U "Python")); (U "score", JSON.Int 10)];
       JSON.Obj [(U "name", JSON.Str (U "Rust")); (U "score", JSON.Int 1)];
       JSON.Obj [(U "name", JSON.Str (U "Go")); (U "score", JSON.Int 5)]].
Proof.
  destruct (validate_skill_scores_clamps
              (fun _ => Raise OverflowError) (fun _ => Raise (ValueError []))
              [JSON.Obj [(U "name", JSON.Str (U "Python"));
                         (U "score", JSON.Int 15)];
               JSON.Obj [(U "name", JSON.Str (U "Rust"));
                         (U "score", JSON.Int 0)];
               JSON.Obj [(U "name", JSON.Str (U "Go"))]])
    as (out & Hout & _ & _).
  - repeat constructor; eexists; (split; [reflexivity|]);
      intros x Hx; vm_compute in Hx; inversion Hx; eexists; reflexivity.
  - rewrite Hout. f_equal.
    assert (E : Return out
                = Return
                    [JSON.Obj [(U "name", JSON.Str (U "Python"));
                               (U "score", JSON.Int 10)];
                     JSON.Obj [(U "name", JSON.Str (U "Rust"));
                               (U "score", JSON.Int 1)];
                     JSON.Obj [(U "name", JSON.Str (U "Go"));
                               (U "score", JSON.Int 5)]])
      by (rewrite <- Hout; reflexivity).
    now inversion E.
Defined.

(** The three scores of the specification: 15, 0 and none. *)
Example validate_skill_scores_examples :
  GeminiAnalyzer.validate_skill_scores
    (fun _ => Raise OverflowError) (fun _ => Raise (ValueError []))
    [JSON.Obj [(U "score", JSON.Int 15)]; JSON.Obj [(U "score", JSON.Int 0)];
     JSON.Obj [(U "name", JSON.Str (U "Go"))]]
  = Return [JSON.Obj [(U "score", JSON.Int 10)];
            JSON.Obj [(U "score", JSON.Int 1)];
            JSON.Obj [(U "name", JSON.Str (U "Go")); (U "score", JSON.Int 5)]].
Proof. reflexivity. Qed.

(** ** The preprocessor *)

Section PreprocessorFacts.
Import TextPreprocessor.

Lemma preprocess_return (text : str) (aggressive : bool) (s : str) :
  preprocess text aggressive = Return s ->
  s = strip (remove_special_characters (remove_extra_whitespace text)
               (negb aggressive))
  /\ s <> [].
Proof.
  unfold preprocess. intros H.
  destruct (falsy text || falsy (strip text)); [discriminate|].
  destruct (strip _) as [|c u] eqn:E; simpl in H; [discriminate|].
  inversion H; subst. split; [reflexivity | discriminate].
Qed.

(** What [preprocess] returns has no whitespace at either end, so no blank
    line at either end. *)
Lemma preprocess_trimmed (text : str) (aggressive : bool) (s : str) :
  preprocess text aggressive = Return s -> strip s = s /\ s <> [].
Proof.
  intros H. apply preprocess_return in H as [-> Hne].
  split; [apply strip_idem | exact Hne].
Qed.

(** What [preprocess] returns holds allowed characters only. *)
Lemma preprocess_allowed (text : str) (aggressive : bool) (s : str) :
  preprocess text aggressive = Return s ->
  Forall (fun c => allowed (negb aggressive) c = true) s.
Proof.
  intros H. apply preprocess_return in H as [-> _].
  apply List.Forall_forall. intros c Hc.
  apply strip_incl in Hc. unfold remove_special_characters in Hc.
  apply filter_In in Hc. tauto.
Qed.

(** C5, at the input "R & D": the ampersand is removed after the runs of
    spaces were collapsed, which leaves two spaces side by side; a second
    pass collapses them.  So [preprocess (preprocess x)] differs from
    [preprocess x], in the default mode and in the aggressive mode. *)
Theorem preprocess_second_pass_differs :
  preprocess (U "R & D") false = Return (U "R  D")
  /\ preprocess (U "R  D") false = Return (U "R D")
  /\ preprocess (U "R & D") true = Return (U "R  D")
  /\ preprocess (U "R  D") true = Return (U "R D").
Proof. repeat split; vm_compute; reflexivity. Qed.

(** C6, at the input "R & D": the text returned holds a run of two
    spaces. *)
Theorem preprocess_leaves_space_run :
  preprocess (U "R & D") false = Return [82; 32; 32; 68]
  /\ preprocess (U "R & D") true = Return [82; 32; 32; 68].
Proof. split; vm_compute; reflexivity. Qed.
End PreprocessorFacts.

(** ** The extractor *)

Section ExtractorFacts.
Import TextExtractor.

Lemma latin_1_decodes (content : bytes) :
  decode latin_1 content = Some (List.map byte_val content).
Proof. reflexivity. Qed.

Lemma try_encodings_utf8_or_latin1 (content : bytes) :
  try_encodings encodings content
  = Return (clean_lines (universal_newlines
              (default (List.map byte_val content) (decode utf_8 content)))).
Proof.
  unfold encodings, try_encodings, decode.
  destruct (utf8_decode _); reflexivity.
Qed.

Lemma concat_kept_nonempty (l : list str) :
  Forall (fun t => strip t = t /\ t <> []) l ->
  falsy (concat l) = match l with [] => true | _ => false end.
Proof.
  intros H. destruct H as [|t l [_ Ht] _]; [reflexivity|].
  simpl. destruct t; [contradiction | reflexivity].
Qed.

Lemma pdf_pages_invariant (ps : list (result str)) (st : list str * bool) :
  Forall (fun p => exists t, p = Return t) ps ->
  pages_invariant st ->
  exists st',
    pdf_pages ps st = Return st' /\ pages_invariant st'
    /\ (Forall (fun p => forall t, p = Return t -> strip t = []) ps ->
        st' = st).
Proof.
  intros Hps. revert st.
  induction Hps as [|p ps [t ->] _ IH]; intros st Hst; simpl.
  - exists st. auto.
  - destruct t as [|c u]; simpl.
    { destruct (IH st Hst) as (st' & H1 & H2 & H3).
      exists st'. split; [exact H1|]. split; [exact H2|].
      intros Hb. apply H3. now inversion Hb. }
    destruct (strip (c :: u)) as [|c' u'] eqn:E; simpl.
    { destruct (IH st Hst) as (st' & H1 & H2 & H3).
      exists st'. split; [exact H1|]. split; [exact H2|].
      intros Hb. apply H3. now inversion Hb. }
    destruct (IH (fst st ++ [c' :: u'], true)) as (st' & H1 & H2 & H3).
    { destruct Hst as [Hk _]. split; simpl.
      - apply Forall_app. split; [exact Hk|].
        constructor; [|constructor]. split; [|discriminate].
        rewrite <- E. apply strip_idem.
      - rewrite concat_app. simpl.
        destruct (concat (fst st)); reflexivity. }
    exists st'. split; [exact H1|]. split; [exact H2|].
    intros Hb. inversion Hb as [|? ? Hp _]; subst.
    specialize (Hp _ eq_refl). congruence.
Qed.

Lemma join_stripped_kept (l : list str) :
  Forall (fun t => strip t = t /\ t <> []) l -> join_stripped l = join [NL] l.
Proof.
  intros H. unfold join_stripped. f_equal.
  induction H as [|t l [Hs Hne] _ IH]; [reflexivity|].
  simpl. rewrite Hs. destruct t; [contradiction|]. simpl.
  rewrite Hs. f_equal. exact IH.
Qed.
End ExtractorFacts.

(** *** When the extracted text is empty *)

Section EmptinessFacts.
Import TextExtractor.

Lemma join_nonempty_nil_iff (lines : list str) :
  join_nonempty lines = [] <-> Forall (fun l => l = []) lines.
Proof.
  unfold join_nonempty. induction lines as [|l lines IH]; [easy|].
  simpl. destruct l as [|c l]; simpl.
  - rewrite IH. split; [now constructor | now inversion 1].
  - split; [|inversion 1; discriminate].
    destruct (List.filter _ lines); discriminate.
Qed.

Lemma lines_all_space (t : str) :
  Forall (fun l => Forall (fun c => isspace c = true) l) (split NL t)
  <-> Forall (fun c => isspace c = true) t.
Proof.
  rewrite !List.Forall_forall. split.
  - intros H c Hc. rewrite <- (join_split NL t) in Hc.
    apply in_join in Hc as [[<-|[]]|(l & Hl & Hc)]; [reflexivity|].
    specialize (H l Hl). rewrite List.Forall_forall in H. now apply H.
  - intros H l Hl. apply List.Forall_forall. intros c Hc.
    apply H. eapply in_split; eassumption.
Qed.

(** The clean-up of the TXT and DOC paths leaves nothing exactly of the
    texts made of whitespace. *)
Lemma clean_lines_nil_iff (t : str) :
  clean_lines t = [] <-> Forall (fun c => isspace c = true) t.
Proof.
  unfold clean_lines. rewrite join_nonempty_nil_iff, <- lines_all_space.
  rewrite Forall_map. apply Forall_iff. intros l. apply strip_nil_iff.
Qed.

Lemma universal_newlines_all_space (s : str) :
  (Forall (fun c => isspace c = true) (universal_newlines s)
   <-> Forall (fun c => isspace c = true) s)
  /\ forall c,
       Forall (fun c => isspace c = true) (universal_newlines (c :: s))
       <-> Forall (fun c => isspace c = true) (c :: s).
Proof.
  induction s as [|d s [IH1 IH2]].
  - split; [reflexivity|]. intros c. simpl.
    destruct (Z.eqb_spec c 13) as [->|]; [|reflexivity].
    split; intros _; now repeat constructor.
  - split; [apply IH2|]. intros c.
    change (universal_newlines (c :: d :: s))
      with (if c =? 13
            then NL :: (if d =? NL then universal_newlines s
                        else universal_newlines (d :: s))
            else c :: universal_newlines (d :: s)).
    destruct (Z.eqb_spec c 13) as [->|].
    + destruct (Z.eqb_spec d NL) as [->|].
      * rewrite !Forall_cons_iff, IH1. change (isspace 13) with true.
        change (isspace NL) with true. tauto.
      * rewrite Forall_cons_iff, (IH2 d), (Forall_cons_iff _ 13).
        change (isspace 13) with true. change (isspace NL) with true. tauto.
    + rewrite Forall_cons_iff, (IH2 d), (Forall_cons_iff _ c). tauto.
Qed.

Lemma nonblank_stripped_all_empty (texts : list str) :
  Forall (fun l => l = []) (nonblank_stripped texts)
  <-> Forall (fun t => Forall (fun c => isspace c = true) t) texts.
Proof.
  unfold nonblank_stripped. induction texts as [|t texts IH]; [easy|].
  simpl. rewrite Forall_cons_iff, <- IH, <- strip_nil_iff.
  destruct (strip t) as [|c u] eqn:E; simpl; [tauto|].
  rewrite Forall_cons_iff, E. intuition discriminate.
Qed.
End EmptinessFacts.

Section ExtractorTheorems.
Import TextExtractor.

(** C7, as stated, fails for the formats other than PDF: a TXT file that
    holds a space and a newline, and a DOCX document whose only paragraph
    is blank, are extracted to the empty string, and nothing flags it. *)
Lemma blank_txt_extracts_empty :
  extract {| suffix := U ".txt"; content := [Byte.x20; Byte.x0a];
             PdfReader := Raise LibraryError; Document := Raise LibraryError;
             textract_process := Raise ImportError |}
  = Return []
  /\ extract {| suffix := U ".docx"; content := [Byte.x50; Byte.x4b];
                PdfReader := Raise LibraryError;
                Document := Return {| paragraphs := [U " "]; tables := [] |};
                textract_process := Raise ImportError |}
     = Return [].
Proof. split; vm_compute; reflexivity. Qed.

(** C7, amended: the sentinel belongs to the PDF path alone, and the
    other paths return the empty string for a document without text, and
    only for such a document.

    PDF.  For a file with the suffix of a PDF (in any letter case) that
    the reader opens, that decrypts with the empty password if it is
    encrypted, and whose pages all yield their text, [extract] returns a
    text that is not empty; when no page yields a character other than
    whitespace, it returns the warning line for a scanned or image-only
    document.

    TXT, DOCX, DOC.  [extract] returns the empty string exactly when the
    text of the document is whitespace throughout: the decoded content of
    a TXT file (UTF-8, else Latin-1), every paragraph and table cell of a
    DOCX document that opens, the UTF-8 output of [textract] for a DOC
    file. *)
Theorem extract_empty_only_without_text (f : file) :
  (forall pdf,
     lower (suffix f) = U ".pdf" ->
     PdfReader f = Return pdf ->
     (is_encrypted pdf = true -> decrypt pdf = Return tt) ->
     Forall (fun p => exists t, p = Return t) (pages pdf) ->
     exists s,
       extract f = Return s /\ s <> []
       /\ (Forall (fun p => forall t, p = Return t -> strip t = [])
             (pages pdf) ->
           s = scanned_warning))
  /\ (forall text,
        lower (suffix f) = U ".txt" ->
        decode utf_8 (content f) = Some text
        \/ (decode utf_8 (content f) = None
            /\ decode latin_1 (content f) = Some text) ->
        exists s,
          extract f = Return s
          /\ (s = [] <-> Forall (fun c => isspace c = true) text))
  /\ (forall doc,
        lower (suffix f) = U ".docx" ->
        Document f = Return doc ->
        exists s,
          extract f = Return s
          /\ (s = []
              <-> Forall (fun t => Forall (fun c => isspace c = true) t)
                    (paragraphs doc ++ concat (concat (tables doc)))))
  /\ (forall out text,
        lower (suffix f) = U ".doc" ->
        textract_process f = Return out ->
        decode utf_8 out = Some text ->
        exists s,
          extract f = Return s
          /\ (s = [] <-> Forall (fun c => isspace c = true) text)).
Proof.
  split; [|split; [|split]].
  - intros pdf Hsuffix Hreader Hdecrypt Hpages.
    unfold extract. rewrite Hsuffix.
    change (JSON.str_eqb (U ".pdf") (U ".pdf")) with true. cbv iota.
    unfold extract_from_pdf. rewrite Hreader.
    assert (Hd : (if is_encrypted pdf then decrypt pdf else Return tt)
                 = Return tt).
    { destruct (is_encrypted pdf); [now apply Hdecrypt | reflexivity]. }
    rewrite Hd.
    destruct (pdf_pages_invariant (pages pdf) ([], false) Hpages)
      as ([tc ht] & Hrun & [Hkept Hflag] & Hblank).
    { split; [constructor | reflexivity]. }
    rewrite Hrun. simpl in Hkept, Hflag.
    rewrite concat_kept_nonempty in Hflag by assumption.
    destruct tc as [|t l]; subst ht; simpl negb; cbv iota.
    + exists scanned_warning. split; [reflexivity|].
      split; [discriminate | reflexivity].
    + eexists. split; [reflexivity|]. split.
      * rewrite join_stripped_kept by assumption.
        apply join_nonempty_head. inversion Hkept; tauto.
      * intros Hb. apply Hblank in Hb. discriminate.
  - intros text Hsuffix Htext.
    unfold extract. rewrite Hsuffix.
    change (JSON.str_eqb (U ".txt") (U ".pdf")) with false.
    change (JSON.str_eqb (U ".txt") (U ".docx")) with false.
    change (JSON.str_eqb (U ".txt") (U ".doc")) with false.
    change (JSON.str_eqb (U ".txt") (U ".txt")) with true. cbv iota.
    unfold extract_from_txt. rewrite try_encodings_utf8_or_latin1.
    assert (E : default (List.map byte_val (content f))
                  (decode utf_8 (content f)) = text).
    { destruct Htext as [->|[-> H]]; [reflexivity|].
      rewrite latin_1_decodes in H. now inversion H. }
    rewrite E. eexists. split; [reflexivity|].
    rewrite clean_lines_nil_iff.
    apply (proj1 (universal_newlines_all_space text)).
  - intros doc Hsuffix Hdoc.
    unfold extract. rewrite Hsuffix.
    change (JSON.str_eqb (U ".docx") (U ".pdf")) with false.
    change (JSON.str_eqb (U ".docx") (U ".docx")) with true. cbv iota.
    unfold extract_from_docx. rewrite Hdoc.
    eexists. split; [reflexivity|].
    rewrite join_nonempty_nil_iff, !Forall_app, !nonblank_stripped_all_empty.
    reflexivity.
  - intros out text Hsuffix Hout Htext.
    unfold extract. rewrite Hsuffix.
    change (JSON.str_eqb (U ".doc") (U ".pdf")) with false.
    change (JSON.str_eqb (U ".doc") (U ".docx")) with false.
    change (JSON.str_eqb (U ".doc") (U ".doc")) with true. cbv iota.
    unfold extract_from_doc. rewrite Hout, Htext.
    eexists. split; [reflexivity|]. apply clean_lines_nil_iff.
Qed.

Lemma extract_empty_only_without_text_witness :
  extract {| suffix := U ".PDF"; content := [];
             PdfReader :=
               Return {| is_encrypted := false; decrypt := Return tt;
                         pages := [Return (U "  "); Return []] |};
             Document := Raise LibraryError;
             textract_process := Raise ImportError |}
  = Return scanned_warning
  /\ exists s,
       extract {| suffix := U ".txt";
                  content := [Byte.x20; Byte.x43; Byte.x0d; Byte.x0a];
                  PdfReader := Raise LibraryError;
                  Document := Raise LibraryError;
                  textract_process := Raise ImportError |}
       = Return s
       /\ s <> [].
Proof.
  split.
  - destruct (proj1 (extract_empty_only_without_text
                {| suffix := U ".PDF"; content := [];
                   PdfReader :=
                     Return {| is_encrypted := false; decrypt := Return tt;
                               pages := [Return (U "  "); Return []] |};
                   Document := Raise LibraryError;
                   textract_process := Raise ImportError |})
                {| is_encrypted := false; decrypt := Return tt;
                   pages := [Return (U "  "); Return []] |})
      as (s & Hs & _ & Hblank).
    + vm_compute; reflexivity.
    + reflexivity.
    + simpl. discriminate.
    + repeat constructor; eexists; reflexivity.
    + rewrite Hs. f_equal. apply Hblank.
      repeat constructor; intros t Ht; inversion Ht; vm_compute; reflexivity.
  - destruct (proj1 (proj2 (extract_empty_only_without_text
                {| suffix := U ".txt";
                   content := [Byte.x20; Byte.x43; Byte.x0d; Byte.x0a];
                   PdfReader := Raise LibraryError;
                   Document := Raise LibraryError;
                   textract_process := Raise ImportError |}))
                [32; 67; 13; 10])
      as (s & Hs & Hempty); [reflexivity | left; reflexivity|].
    exists s. split; [exact Hs|]. intros E.
    apply Hempty in E. inversion E as [|? ? _ E'].
    inversion E' as [|? ? Hc _]. discriminate.
Defined.

(** C8, at a file holding the four bytes 93 48 69 94 (hexadecimal), the
    word Hi between curly quotes in CP1252.  The bytes are not UTF-8 and
    CP1252 would decode them to U+201C H i U+201D, but Latin-1 comes first
    in the list and accepts them: the text extracted holds the control
    characters U+0093 and U+0094 in place of the quotes. *)
Theorem cp1252_quotes_decoded_as_latin_1 :
  decode utf_8 [Byte.x93; Byte.x48; Byte.x69; Byte.x94] = None
  /\ decode cp1252 [Byte.x93; Byte.x48; Byte.x69; Byte.x94]
     = Some [8220; 72; 105; 8221]
  /\ extract {| suffix := U ".txt";
                content := [Byte.x93; Byte.x48; Byte.x69; Byte.x94];
                PdfReader := Raise LibraryError;
                Document := Raise LibraryError;
                textract_process := Raise ImportError |}
     = Return [147; 72; 105; 148].
Proof. repeat split; vm_compute; reflexivity. Qed.

(** C10. [extract_from_txt] returns for every content: the text decoded as
    UTF-8 when the content is valid UTF-8 and as Latin-1 otherwise, then
    cleaned up.  The error for a content that no encoding of the list
    decodes is never raised. *)
Theorem extract_from_txt_always_decodes (f : file) :
  extract_from_txt f
  = Return (clean_lines (universal_newlines
              (default (List.map byte_val (content f))
                 (decode utf_8 (content f)))))
  /\ extract_from_txt f <> Raise (ValueError undecodable_message).
Proof.
  unfold extract_from_txt. rewrite try_encodings_utf8_or_latin1.
  split; [reflexivity | discriminate].
Qed.
End ExtractorTheorems.

(** ** The profile summary *)

Section SummaryFacts.
Import GitHubFetcher.

Lemma step_skipped (a : acc) (r : repo) : skipped r = true -> step a r = a.
Proof. unfold step. now intros ->. Qed.

Lemma fold_step_kept (repos : list repo) (a : acc) :
  fold_left step repos a = fold_left step (kept repos) a.
Proof.
  revert a. induction repos as [|r repos IH]; intros a; [reflexivity|].
  unfold kept. simpl. destruct (skipped r) eqn:E; simpl.
  - rewrite step_skipped by assumption. apply IH.
  - apply IH.
Qed.

Lemma kept_app (l1 l2 : list repo) : kept (l1 ++ l2) = kept l1 ++ kept l2.
Proof. apply List.filter_app. Qed.

Lemma kept_without (pre post : list repo) (r : repo) :
  skipped r = true -> kept (pre ++ r :: post) = kept (pre ++ post).
Proof.
  intros H. rewrite !kept_app. unfold kept at 2. simpl. now rewrite H.
Qed.

Lemma kept_not_skipped (repos : list repo) :
  Forall (fun r => skipped r = false) (kept repos).
Proof.
  apply List.Forall_forall. intros r Hr. apply filter_In in Hr as [_ Hr].
  now destruct (skipped r).
Qed.

Lemma fold_step_summaries (repos : list repo) (a : acc) :
  Forall (fun r => skipped r = false) repos ->
  repos_summary (fold_left step repos a)
  = repos_summary a ++ List.map summary_of repos.
Proof.
  intros H. revert a.
  induction H as [|r repos Hr _ IH]; intros a; simpl.
  - now rewrite app_nil_r.
  - rewrite IH. unfold step. rewrite Hr. simpl. now rewrite <- app_assoc.
Qed.

Lemma fold_step_stars (repos : list repo) (a : acc) :
  Forall (fun r => skipped r = false) repos ->
  total_stars (fold_left step repos a)
  = total_stars a + foldr (fun r n => stargazers_count r + n) 0 repos.
Proof.
  intros H. revert a.
  induction H as [|r repos Hr _ IH]; intros a; simpl; [lia|].
  rewrite IH. unfold step. rewrite Hr. simpl. lia.
Qed.

Lemma fold_step_forks (repos : list repo) (a : acc) :
  Forall (fun r => skipped r = false) repos ->
  total_forks (fold_left step repos a)
  = total_forks a + foldr (fun r n => forks_count r + n) 0 repos.
Proof.
  intros H. revert a.
  induction H as [|r repos Hr _ IH]; intros a; simpl; [lia|].
  rewrite IH. unfold step. rewrite Hr. simpl. lia.
Qed.

Lemma fold_step_topics (repos : list repo) (a : acc) :
  Forall (fun r => skipped r = false) repos ->
  topics_used (fold_left step repos a)
  = topics_used a
    ∪ foldr (fun r t => list_to_set (default [] (topics r)) ∪ t) ∅ repos.
Proof.
  intros H. revert a.
  induction H as [|r repos Hr _ IH]; intros a; simpl.
  - now rewrite union_empty_r_L.
  - rewrite IH. unfold step. rewrite Hr. simpl. now rewrite (assoc_L (∪)).
Qed.

Lemma fold_step_languages (repos : list repo) (a : acc) (l : str) :
  Forall (fun r => skipped r = false) repos ->
  language_count (fold_left step repos a) !! l
  = match language_uses l repos with
    | O => language_count a !! l
    | S n => Some (default O (language_count a !! l) + S n)%nat
    end.
Proof.
  intros H. revert a.
  induction H as [|r repos Hr _ IH]; intros a; [reflexivity|].
  simpl fold_left. rewrite IH. unfold step. rewrite Hr.
  unfold language_uses. simpl List.filter. simpl language_count.
  destruct (truthy (language r)) eqn:Et; simpl andb.
  - destruct (JSON.str_eqb (default [] (language r)) l) eqn:El.
    + apply str_eqb_eq in El. subst l. unfold count_language.
      rewrite lookup_insert_eq. simpl length.
      destruct (length _); simpl; f_equal; lia.
    + assert (default [] (language r) <> l).
      { intros E. rewrite E, str_eqb_refl in El. discriminate. }
      unfold count_language. rewrite lookup_insert_ne by assumption.
      reflexivity.
  - reflexivity.
Qed.

Lemma insert_by_stars_perm (x : repo_summary) (l : list repo_summary) :
  Permutation (insert_by_stars x l) (x :: l).
Proof.
  induction l as [|y l IH]; simpl; [reflexivity|].
  destruct (stars x <? stars y); [|reflexivity].
  rewrite IH. apply perm_swap.
Qed.

Lemma sort_by_stars_perm (l : list repo_summary) :
  Permutation (sort_by_stars l) l.
Proof.
  induction l as [|x l IH]; simpl; [reflexivity|].
  rewrite insert_by_stars_perm. now constructor.
Qed.

Lemma insert_by_stars_sorted (x : repo_summary) (l : list repo_summary) :
  StronglySorted by_stars_desc l ->
  StronglySorted by_stars_desc (insert_by_stars x l).
Proof.
  induction 1 as [|y l Hl IH Hy]; simpl.
  - repeat constructor.
  - destruct (Z.ltb_spec (stars x) (stars y)).
    + constructor; [exact IH|].
      rewrite insert_by_stars_perm. constructor; [|exact Hy].
      unfold by_stars_desc. lia.
    + constructor; [now constructor|].
      constructor; [unfold by_stars_desc; lia|].
      eapply Forall_impl; [exact Hy|].
      unfold by_stars_desc. intros z Hz. simpl in Hz. lia.
Qed.

Lemma sort_by_stars_sorted (l : list repo_summary) :
  StronglySorted by_stars_desc (sort_by_stars l).
Proof.
  induction l as [|x l IH]; simpl; [constructor|].
  now apply insert_by_stars_sorted.
Qed.

Lemma take_sorted (n : nat) (l : list repo_summary) :
  StronglySorted by_stars_desc l -> StronglySorted by_stars_desc (take n l).
Proof.
  intros H. revert n. induction H as [|x l Hl IH Hx]; intros [|n]; simpl;
    try constructor; [apply IH | now apply Forall_take].
Qed.
End SummaryFacts.

Section SummaryTheorems.
Import GitHubFetcher.

(** C9. For every list of repositories, [summarize_data] counts all of them
    in [total_repositories]; the language counts, the star and fork totals,
    the topics and the repository entries are those of the repositories
    that are not forks without stars, so that taking such a fork out of the
    list changes nothing but lowers [total_repositories] by one; and
    [repositories] holds the first 20 entries of the kept repositories in
    descending order of stars. *)
Theorem summarize_data_skips_starless_forks (repo_data : list repo) :
  total_repositories (summarize_data repo_data) = length repo_data
  /\ (forall pre r post,
        repo_data = pre ++ r :: post ->
        fork r = true -> stargazers_count r = 0 ->
        languages_used (summarize_data repo_data)
        = languages_used (summarize_data (pre ++ post))
        /\ total_stars_earned (summarize_data repo_data)
           = total_stars_earned (summarize_data (pre ++ post))
        /\ total_forks_stat (summarize_data repo_data)
           = total_forks_stat (summarize_data (pre ++ post))
        /\ topics_explored (summarize_data repo_data)
           = topics_explored (summarize_data (pre ++ post))
        /\ repositories (summarize_data repo_data)
           = repositories (summarize_data (pre ++ post))
        /\ total_repositories (summarize_data repo_data)
           = S (total_repositories (summarize_data (pre ++ post))))
  /\ (forall l,
        languages_used (summarize_data repo_data) !! l
        = match language_uses l (kept repo_data) with
          | O => None
          | S n => Some (S n)
          end)
  /\ total_stars_earned (summarize_data repo_data)
     = foldr (fun r n => stargazers_count r + n) 0 (kept repo_data)
  /\ total_forks_stat (summarize_data repo_data)
     = foldr (fun r n => forks_count r + n) 0 (kept repo_data)
  /\ topics_explored (summarize_data repo_data)
     = foldr (fun r t => list_to_set (default [] (topics r)) ∪ t) ∅
         (kept repo_data)
  /\ repositories (summarize_data repo_data)
     = take 20 (sort_by_stars (List.map summary_of (kept repo_data)))
  /\ Permutation (sort_by_stars (List.map summary_of (kept repo_data)))
       (List.map summary_of (kept repo_data))
  /\ StronglySorted by_stars_desc (repositories (summarize_data repo_data))
  /\ (length (repositories (summarize_data repo_data)) <= 20)%nat.
Proof.
  pose proof (kept_not_skipped repo_data) as Hk.
  assert (Hrepos : repositories (summarize_data repo_data)
                   = take 20 (sort_by_stars
                                (List.map summary_of (kept repo_data)))).
  { unfold summarize_data. simpl.
    now rewrite fold_step_kept, fold_step_summaries. }
  split; [reflexivity|]. split.
  { intros pre r post -> Hfork Hstars.
    assert (Hskip : skipped r = true).
    { unfold skipped. now rewrite Hfork, Hstars. }
    unfold summarize_data. simpl.
    rewrite (fold_step_kept (pre ++ r :: post)), (fold_step_kept (pre ++ post)).
    rewrite kept_without by assumption.
    repeat split. rewrite !length_app. simpl. lia. }
  split.
  { intros l. unfold summarize_data. simpl.
    rewrite fold_step_kept, fold_step_languages by assumption.
    simpl. rewrite lookup_empty. simpl.
    destruct (language_uses l (kept repo_data)); reflexivity. }
  split.
  { unfold summarize_data. simpl.
    rewrite fold_step_kept, fold_step_stars by assumption. simpl. lia. }
  split.
  { unfold summarize_data. simpl.
    rewrite fold_step_kept, fold_step_forks by assumption. simpl. lia. }
  split.
  { unfold summarize_data. simpl.
    rewrite fold_step_kept, fold_step_topics by assumption. simpl.
    now rewrite union_empty_l_L. }
  split; [exact Hrepos|].
  split; [apply sort_by_stars_perm|].
  rewrite Hrepos. split.
  - apply take_sorted, sort_by_stars_sorted.
  - rewrite length_take. lia.
Qed.

Lemma summarize_data_skips_starless_forks_witness :
  total_repositories
    (summarize_data
       [{| name := U "fork-of-linux"; description := None;
           language := Some (U "C"); stargazers_count := 0;
           forks_count := 0; topics := None; html_url := U "https://f";
           updated_at := U "2024"; size := 9; fork := true |};
        {| name := U "own"; description := Some (U "mine");
           language := Some (U "Python"); stargazers_count := 3;
           forks_count := 1; topics := Some [U "ml"]; html_url := U "https://o";
           updated_at := U "2025"; size := 4; fork := false |}])
  = 2%nat
  /\ total_stars_earned
       (summarize_data
          [{| name := U "fork-of-linux"; description := None;
              language := Some (U "C"); stargazers_count := 0;
              forks_count := 0; topics := None; html_url := U "https://f";
              updated_at := U "2024"; size := 9; fork := true |};
           {| name := U "own"; description := Some (U "mine");
              language := Some (U "Python"); stargazers_count := 3;
              forks_count := 1; topics := Some [U "ml"];
              html_url := U "https://o"; updated_at := U "2025"; size := 4;
              fork := false |}])
     = 3.
Proof.
  destruct (summarize_data_skips_starless_forks
              [{| name := U "fork-of-linux"; description := None;
                  language := Some (U "C"); stargazers_count := 0;
                  forks_count := 0; topics := None; html_url := U "https://f";
                  updated_at := U "2024"; size := 9; fork := true |};
               {| name := U "own"; description := Some (U "mine");
                  language := Some (U "Python"); stargazers_count := 3;
                  forks_count := 1; topics := Some [U "ml"];
                  html_url := U "https://o"; updated_at := U "2025";
                  size := 4; fork := false |}])
    as (Hn & Hskip & _).
  split; [exact Hn|].
  destruct (Hskip [] _ _ eq_refl eq_refl eq_refl) as (_ & Hstars & _).
  rewrite Hstars. reflexivity.
Defined.
End SummaryTheorems.


(** * Further properties of the code *)

(** ** More on the extractor *)

Section MoreExtractorFacts.
Import TextExtractor.

Lemma stripped_nonempty_lines (ys : list str) :
  Forall (fun x => x <> [] /\ strip x = x
                   /\ exists y, In y ys /\ forall c, In c x -> In c y)
    (List.filter (fun line => negb (falsy line)) (List.map strip ys)).
Proof.
  apply List.Forall_forall. intros x Hx.
  apply filter_In in Hx as [Hx Hne]. apply in_map_iff in Hx as (y & <- & Hy).
  split; [now destruct (strip y)|]. split; [apply strip_idem|].
  exists y. split; [assumption|]. intros c. apply strip_incl.
Qed.

(** The lines of a cleaned text: none is empty, each is trimmed. *)
Lemma clean_lines_tidy (t : str) :
  clean_lines t = []
  \/ Forall (fun l => l <> [] /\ strip l = l) (split NL (clean_lines t)).
Proof.
  unfold clean_lines, join_nonempty.
  pose proof (stripped_nonempty_lines (split NL t)) as H.
  destruct (List.filter _ _) as [|l ls]; [now left|]. right.
  rewrite split_join.
  - eapply Forall_impl; [exact H|]. simpl. tauto.
  - eapply Forall_impl; [exact H|]. simpl.
    intros x (_ & _ & y & Hy & Hxy) Hin. apply Hxy in Hin.
    pose proof (split_no_sep NL t) as Hs.
    rewrite List.Forall_forall in Hs. now apply (Hs y).
Qed.

Lemma clean_lines_incl (t : str) (c : Z) :
  In c (clean_lines t) -> c = NL \/ In c t.
Proof.
  unfold clean_lines, join_nonempty. intros H.
  apply in_join in H as [[H|[]]|(l & Hl & Hc)]; [now left|]. right.
  apply filter_In in Hl as [Hl _]. apply in_map_iff in Hl as (y & <- & Hy).
  apply strip_incl in Hc. eapply in_split; eassumption.
Qed.

Lemma universal_newlines_no_cr (s : str) :
  ~ In 13 (universal_newlines s)
  /\ forall c, ~ In 13 (universal_newlines (c :: s)).
Proof.
  induction s as [|d s [IH1 IH2]].
  - split; [simpl; tauto|]. intros c. simpl.
    destruct (Z.eqb_spec c 13); simpl; intuition (try discriminate; lia).
  - split; [apply IH2|]. intros c.
    change (universal_newlines (c :: d :: s))
      with (if c =? 13
            then NL :: (if d =? NL then universal_newlines s
                        else universal_newlines (d :: s))
            else c :: universal_newlines (d :: s)).
    destruct (Z.eqb_spec c 13).
    + destruct (d =? NL); simpl; intros [H|H]; try discriminate;
        [now apply IH1 | now apply (IH2 d)].
    + simpl. intros [H|H]; [congruence | now apply (IH2 d)].
Qed.

Lemma pdf_pages_texts (texts : list str) (st : list str * bool) :
  pdf_pages (List.map Return texts) st
  = Return (fst st ++ nonblank_stripped texts,
            snd st || existsb (fun t => negb (falsy (strip t))) texts).
Proof.
  revert st. induction texts as [|t texts IH]; intros [tc ht]; simpl.
  - now rewrite app_nil_r, orb_false_r.
  - assert (Hc : negb (falsy t) && negb (falsy (strip t))
                 = negb (falsy (strip t))) by now destruct t.
    rewrite Hc. unfold nonblank_stripped. simpl List.filter.
    destruct (negb (falsy (strip t))); rewrite IH; simpl.
    + now rewrite <- app_assoc, orb_true_r.
    + reflexivity.
Qed.

Lemma pdf_pages_raise (pre : list str) (e : exn) (post : list (result str))
    (st : list str * bool) :
  pdf_pages (List.map Return pre ++ Raise e :: post) st = Raise e.
Proof.
  revert st. induction pre as [|t pre IH]; intros st; simpl; [reflexivity|].
  destruct (negb (falsy t) && negb (falsy (strip t))); apply IH.
Qed.

Lemma nonblank_stripped_kept (texts : list str) :
  Forall (fun t => strip t = t /\ t <> []) (nonblank_stripped texts).
Proof.
  unfold nonblank_stripped. apply List.Forall_forall. intros x Hx.
  apply in_map_iff in Hx as (y & <- & Hy). apply filter_In in Hy as [_ Hy].
  split; [apply strip_idem | now destruct (strip y)].
Qed.

Lemma nonblank_stripped_nil (texts : list str) :
  existsb (fun t => negb (falsy (strip t))) texts = false ->
  nonblank_stripped texts = [].
Proof.
  unfold nonblank_stripped. induction texts as [|t texts IH]; simpl;
    [reflexivity|].
  destruct (negb (falsy (strip t))); simpl; [discriminate | exact IH].
Qed.

Lemma placeholder_shape (n : nat) :
  no_text_placeholder n
  = 91 :: (U "Page " ++ decimal (n + 1) ++ U ": No extractable text")
      ++ [93].
Proof.
  unfold no_text_placeholder.
  change (U "[Page ") with (91 :: U "Page ").
  change (U ": No extractable text]") with (U ": No extractable text" ++ [93]).
  simpl. now rewrite <- !app_assoc.
Qed.

Lemma placeholder_trimmed (n : nat) :
  strip (no_text_placeholder n) = no_text_placeholder n
  /\ no_text_placeholder n <> [].
Proof.
  rewrite placeholder_shape. split; [|discriminate].
  pose proof (strip_delimited [] 91
                (U "Page " ++ decimal (n + 1) ++ U ": No extractable text")
                93 [] eq_refl eq_refl (List.Forall_nil _)) as E.
  rewrite app_nil_r in E. exact E.
Qed.

Lemma stream_pages_texts (texts : list str) (n : nat) :
  exists items,
    stream_pages (List.map Return texts) n = (items, None)
    /\ length items = length texts
    /\ Forall (fun item => strip item = item /\ item <> []) items
    /\ forall i t, texts !! i = Some t ->
         items !! i
         = Some (if falsy (strip t) then no_text_placeholder (n + i)
                 else strip t).
Proof.
  revert n. induction texts as [|t texts IH]; intros n; simpl.
  - exists []. repeat split; [constructor | intros i t H; discriminate].
  - destruct (IH (S n)) as (items & E & Hlen & Hall & Hidx). rewrite E.
    eexists. split; [reflexivity|]. split; [simpl; now rewrite Hlen|].
    assert (Hc : negb (falsy t) && negb (falsy (strip t))
                 = negb (falsy (strip t))) by now destruct t.
    rewrite Hc. split.
    + constructor; [|exact Hall].
      destruct (strip t) as [|c u] eqn:Et; simpl.
      * apply placeholder_trimmed.
      * split; [rewrite <- Et; apply strip_idem | discriminate].
    + intros [|i] t' H; simpl in *.
      * inversion H; subst. rewrite Nat.add_0_r.
        now destruct (falsy (strip t')).
      * rewrite (Hidx i t' H). now rewrite Nat.add_succ_r.
Qed.
End MoreExtractorFacts.

Section MoreExtractorTheorems.
Import TextExtractor.

(** X1. A file whose suffix, in lower case, is none of .pdf, .docx, .doc
    and .txt is refused by [extract] with the unsupported-format error,
    which names the lower-cased suffix; no reader is run on it.  The
    suffix is taken to be ASCII, where [lower] is all of [str.lower]. *)
Theorem extract_unsupported_suffix (f : file) :
  Forall (fun c => 0 <= c < 128) (suffix f) ->
  ~ In (lower (suffix f)) [U ".pdf"; U ".docx"; U ".doc"; U ".txt"] ->
  extract f
  = Raise (ValueError (U "Unsupported file format: " ++ lower (suffix f))).
Proof.
  intros _ H. unfold extract.
  rewrite !str_eqb_neq; [reflexivity|..];
    intros E; apply H; rewrite E; simpl; tauto.
Qed.

Lemma extract_unsupported_suffix_witness :
  extract {| suffix := U ".RTF"; content := [Byte.x7b];
             PdfReader := Raise LibraryError; Document := Raise LibraryError;
             textract_process := Raise ImportError |}
  = Raise (ValueError (U "Unsupported file format: .rtf")).
Proof.
  apply (extract_unsupported_suffix
           {| suffix := U ".RTF"; content := [Byte.x7b];
              PdfReader := Raise LibraryError;
              Document := Raise LibraryError;
              textract_process := Raise ImportError |}).
  - change (U ".RTF") with [46; 82; 84; 70]. simpl suffix.
    repeat (constructor; [lia|]). constructor.
  - vm_compute. intuition discriminate.
Defined.

(** X2. For a PDF that opens, decrypts if need be, and whose pages all
    yield their text, [extract_from_pdf] returns the trimmed texts of the
    pages that are not blank, in page order, joined by single newlines; the
    warning line is returned only when every page is blank. *)
Theorem extract_from_pdf_text (f : file) (pdf : pdf_reader)
    (texts : list str) :
  PdfReader f = Return pdf ->
  (is_encrypted pdf = true -> decrypt pdf = Return tt) ->
  pages pdf = List.map Return texts ->
  extract_from_pdf f
  = Return (if existsb (fun t => negb (falsy (strip t))) texts
            then join [NL] (nonblank_stripped texts)
            else scanned_warning).
Proof.
  intros Hreader Hdecrypt Hpages. unfold extract_from_pdf.
  rewrite Hreader.
  assert (Hd : (if is_encrypted pdf then decrypt pdf else Return tt)
               = Return tt).
  { destruct (is_encrypted pdf); [now apply Hdecrypt | reflexivity]. }
  rewrite Hd, Hpages, pdf_pages_texts. simpl.
  destruct (existsb _ texts) eqn:E; simpl.
  - now rewrite join_stripped_kept by apply nonblank_stripped_kept.
  - rewrite nonblank_stripped_nil by assumption. reflexivity.
Qed.

Lemma extract_from_pdf_text_witness :
  extract_from_pdf
    {| suffix := U ".pdf"; content := [];
       PdfReader :=
         Return {| is_encrypted := true; decrypt := Return tt;
                   pages := [Return (U " Jane Doe "); Return (U "  ");
                             Return (U "Python")] |};
       Document := Raise LibraryError;
       textract_process := Raise ImportError |}
  = Return (U "Jane Doe" ++ [NL] ++ U "Python").
Proof.
  apply (extract_from_pdf_text
           {| suffix := U ".pdf"; content := [];
              PdfReader :=
                Return {| is_encrypted := true; decrypt := Return tt;
                          pages := [Return (U " Jane Doe "); Return (U "  ");
                                    Return (U "Python")] |};
              Document := Raise LibraryError;
              textract_process := Raise ImportError |}
           {| is_encrypted := true; decrypt := Return tt;
              pages := [Return (U " Jane Doe "); Return (U "  ");
                        Return (U "Python")] |}
           [U " Jane Doe "; U "  "; U "Python"]); reflexivity.
Defined.

(** X3. When [extract_text()] raises on a page, [extract_from_pdf] raises
    too and returns none of the text of the pages before it: a
    [ValueError] of the page, one of a subclass such as
    [UnicodeDecodeError] included, is raised as it is; any other exception
    is wrapped in the error-extracting [ValueError]. *)
Theorem extract_from_pdf_page_error (f : file) (pdf : pdf_reader)
    (pre : list str) (e : exn) (post : list (result str)) :
  PdfReader f = Return pdf ->
  (is_encrypted pdf = true -> decrypt pdf = Return tt) ->
  pages pdf = List.map Return pre ++ Raise e :: post ->
  extract_from_pdf f
  = match e with
    | ValueError _ | ValueErrorFrom _ _ | UnicodeDecodeError
    | JSONDecodeError => Raise e
    | TypeError | KeyError | OverflowError | ImportError | LibraryError =>
        Raise (ValueErrorFrom (U "Error extracting text from PDF: ") e)
    end.
Proof.
  intros Hreader Hdecrypt Hpages. unfold extract_from_pdf.
  rewrite Hreader.
  assert (Hd : (if is_encrypted pdf then decrypt pdf else Return tt)
               = Return tt).
  { destruct (is_encrypted pdf); [now apply Hdecrypt | reflexivity]. }
  rewrite Hd, Hpages, pdf_pages_raise. now destruct e.
Qed.

Lemma extract_from_pdf_page_error_witness :
  extract_from_pdf
    {| suffix := U ".pdf"; content := [];
       PdfReader :=
         Return {| is_encrypted := false; decrypt := Return tt;
                   pages := [Return (U "Jane Doe"); Raise KeyError;
                             Return (U "Python")] |};
       Document := Raise LibraryError;
       textract_process := Raise ImportError |}
  = Raise (ValueErrorFrom (U "Error extracting text from PDF: ") KeyError).
Proof.
  apply (extract_from_pdf_page_error
           {| suffix := U ".pdf"; content := [];
              PdfReader :=
                Return {| is_encrypted := false; decrypt := Return tt;
                          pages := [Return (U "Jane Doe"); Raise KeyError;
                                    Return (U "Python")] |};
              Document := Raise LibraryError;
              textract_process := Raise ImportError |}
           {| is_encrypted := false; decrypt := Return tt;
              pages := [Return (U "Jane Doe"); Raise KeyError;
                        Return (U "Python")] |}
           [U "Jane Doe"] KeyError [Return (U "Python")]);
    [reflexivity | discriminate | reflexivity].
Defined.

(** X4. An encrypted PDF on which [decrypt] with the empty password
    raises: both PDF paths fail before any page is read, but not alike.
    [extract_from_pdf] raises its password-protected [ValueError] as it
    is; [extract_from_pdf_generator] yields nothing and wraps its own
    password error in the error-extracting [ValueError]. *)
Theorem encrypted_pdf_errors (f : file) (pdf : pdf_reader) (e : exn) :
  PdfReader f = Return pdf ->
  is_encrypted pdf = true ->
  decrypt pdf = Raise e ->
  extract_from_pdf f = Raise (ValueError encrypted_message)
  /\ extract_from_pdf_generator f
     = ([], Some (ValueErrorFrom (U "Error extracting PDF: ")
                    (ValueError (U "PDF is password-protected")))).
Proof.
  intros Hreader Henc Hdec.
  unfold extract_from_pdf, extract_from_pdf_generator.
  rewrite Hreader, Henc, Hdec. split; reflexivity.
Qed.

Lemma encrypted_pdf_errors_witness :
  extract_from_pdf
    {| suffix := U ".pdf"; content := [];
       PdfReader :=
         Return {| is_encrypted := true; decrypt := Raise LibraryError;
                   pages := [Return (U "Jane Doe")] |};
       Document := Raise LibraryError;
       textract_process := Raise ImportError |}
  = Raise (ValueError encrypted_message).
Proof.
  apply (encrypted_pdf_errors
           {| suffix := U ".pdf"; content := [];
              PdfReader :=
                Return {| is_encrypted := true; decrypt := Raise LibraryError;
                          pages := [Return (U "Jane Doe")] |};
              Document := Raise LibraryError;
              textract_process := Raise ImportError |}
           {| is_encrypted := true; decrypt := Raise LibraryError;
              pages := [Return (U "Jane Doe")] |} LibraryError);
    reflexivity.
Defined.

(** X5. The generator yields one item for each page of a PDF that opens,
    decrypts if need be, and whose pages all yield their text: the trimmed
    text of the page, or for a blank page the placeholder with the number
    of the page, counted from 1.  No item is empty or has whitespace at
    either end, and the iteration ends without an exception. *)
Theorem pdf_generator_items (f : file) (pdf : pdf_reader) (texts : list str) :
  PdfReader f = Return pdf ->
  (is_encrypted pdf = true -> decrypt pdf = Return tt) ->
  pages pdf = List.map Return texts ->
  exists items,
    extract_from_pdf_generator f = (items, None)
    /\ length items = length texts
    /\ Forall (fun item => strip item = item /\ item <> []) items
    /\ forall i t, texts !! i = Some t ->
         items !! i
         = Some (if falsy (strip t) then no_text_placeholder i else strip t).
Proof.
  intros Hreader Hdecrypt Hpages. unfold extract_from_pdf_generator.
  rewrite Hreader.
  assert (Hd : (if is_encrypted pdf then decrypt pdf else Return tt)
               = Return tt).
  { destruct (is_encrypted pdf); [now apply Hdecrypt | reflexivity]. }
  rewrite Hd, Hpages.
  destruct (stream_pages_texts texts 0) as (items & E & H1 & H2 & H3).
  rewrite E. exists items. repeat split; assumption.
Qed.

Lemma pdf_generator_items_witness :
  extract_from_pdf_generator
    {| suffix := U ".pdf"; content := [];
       PdfReader :=
         Return {| is_encrypted := false; decrypt := Return tt;
                   pages := [Return (U " Jane Doe "); Return (U "  ")] |};
       Document := Raise LibraryError;
       textract_process := Raise ImportError |}
  = ([U "Jane Doe"; U "[Page 2: No extractable text]"], None).
Proof.
  destruct (pdf_generator_items
              {| suffix := U ".pdf"; content := [];
                 PdfReader :=
                   Return {| is_encrypted := false; decrypt := Return tt;
                             pages := [Return (U " Jane Doe ");
                                       Return (U "  ")] |};
                 Document := Raise LibraryError;
                 textract_process := Raise ImportError |}
              {| is_encrypted := false; decrypt := Return tt;
                 pages := [Return (U " Jane Doe "); Return (U "  ")] |}
              [U " Jane Doe "; U "  "])
    as (items & E & _); [reflexivity | discriminate | reflexivity |].
  rewrite E. vm_compute in E. inversion E. reflexivity.
Defined.

(** X6. [extract_from_txt] returns a text without carriage return in which
    no line is empty and no line has whitespace at either end (the text
    may be empty). *)
Theorem extract_from_txt_lines (f : file) :
  exists s,
    extract_from_txt f = Return s
    /\ ~ In 13 s
    /\ (s = [] \/ Forall (fun l => l <> [] /\ strip l = l) (split NL s)).
Proof.
  unfold extract_from_txt. rewrite try_encodings_utf8_or_latin1.
  eexists. split; [reflexivity|]. split.
  - intros H. apply clean_lines_incl in H as [H|H]; [discriminate|].
    now apply universal_newlines_no_cr in H.
  - apply clean_lines_tidy.
Qed.

(** X7. The clean-up of the TXT and DOC paths is idempotent: cleaning a
    cleaned text changes nothing. *)
Theorem clean_lines_idempotent (t : str) :
  clean_lines (clean_lines t) = clean_lines t.
Proof.
  destruct (clean_lines_tidy t) as [E|H]; [now rewrite E|].
  unfold clean_lines at 1. unfold join_nonempty.
  set (ls := split NL (clean_lines t)) in *.
  assert (E : List.filter (fun line => negb (falsy line)) (List.map strip ls)
              = ls).
  { induction H as [|l ls' [Hne Hs] _ IH]; [reflexivity|].
    simpl. rewrite Hs. destruct l; [contradiction|]. simpl. now rewrite IH. }
  rewrite E. apply join_split.
Qed.

(** X8. [extract_from_doc] raises the install hint for the missing
    [textract] library exactly when importing it fails; every other
    failure is wrapped in the error-extracting [ValueError]; and a text it
    returns has no empty line and no line with whitespace at either end. *)
Theorem extract_from_doc_outcomes (f : file) :
  (extract_from_doc f = Raise (ValueError missing_textract_message)
   <-> textract_process f = Raise ImportError)
  /\ (forall e, extract_from_doc f = Raise e ->
        e = ValueError missing_textract_message
        \/ exists cause,
             e = ValueErrorFrom (U "Error extracting text from DOC: ") cause)
  /\ (forall s, extract_from_doc f = Return s ->
        s = [] \/ Forall (fun l => l <> [] /\ strip l = l) (split NL s)).
Proof.
  unfold extract_from_doc.
  destruct (textract_process f) as [out|e].
  - destruct (decode utf_8 out) as [text|].
    + repeat split; try discriminate.
      intros s [= <-]. apply clean_lines_tidy.
    + repeat split; try discriminate.
      intros e [= <-]. eauto.
  - destruct e; repeat split; try discriminate; try reflexivity;
      intros e' [= <-]; eauto.
Qed.

(** X9. Once the DOCX document opens, [extract_from_docx] returns: the
    trimmed texts of the paragraphs that are not blank, followed by those
    of the table cells (tables, rows and cells in document order), joined
    by single newlines. *)
Theorem extract_from_docx_text (f : file) (doc : docx_document) :
  Document f = Return doc ->
  extract_from_docx f
  = Return (join [NL]
              (nonblank_stripped
                 (paragraphs doc ++ concat (concat (tables doc))))).
Proof.
  intros H. unfold extract_from_docx. rewrite H. f_equal.
  unfold join_nonempty. f_equal.
  assert (E : forall texts,
            List.filter (fun line => negb (falsy line))
              (nonblank_stripped texts) = nonblank_stripped texts).
  { intros texts. pose proof (nonblank_stripped_kept texts) as Hk.
    induction Hk as [|x l [_ Hx] _ IH]; [reflexivity|].
    simpl. destruct x; [contradiction|]. simpl. now rewrite IH. }
  rewrite List.filter_app, !E.
  unfold nonblank_stripped. now rewrite List.filter_app, List.map_app.
Qed.

Lemma extract_from_docx_text_witness :
  extract_from_docx
    {| suffix := U ".docx"; content := [];
       PdfReader := Raise LibraryError;
       Document :=
         Return {| paragraphs := [U "Jane Doe"; U " "];
                   tables := [[[U "Python "; U ""]; [U "Rust"]]] |};
       textract_process := Raise ImportError |}
  = Return (U "Jane Doe" ++ [NL] ++ U "Python" ++ [NL] ++ U "Rust").
Proof.
  rewrite (extract_from_docx_text _
             {| paragraphs := [U "Jane Doe"; U " "];
                tables := [[[U "Python "; U ""]; [U "Rust"]]] |});
    reflexivity.
Defined.
End MoreExtractorTheorems.

(** ** More on the preprocessor *)

Section MorePreprocessorFacts.
Import TextPreprocessor.
Implicit Types (t s : str) (c : Z).

Lemma collapse_spaces_in t c : In c (collapse_spaces t) <-> In c t.
Proof.
  induction t as [|x t IH]; [reflexivity|]. simpl.
  destruct t as [|d t']; [reflexivity|].
  destruct (Z.eqb_spec x 32); [destruct (Z.eqb_spec d 32)|]; simpl andb;
    cbv iota.
  - subst x d. rewrite IH. simpl. tauto.
  - change (In c (x :: collapse_spaces (d :: t')) <-> In c (x :: d :: t')).
    simpl In at 1. rewrite IH. reflexivity.
  - change (In c (x :: collapse_spaces (d :: t')) <-> In c (x :: d :: t')).
    simpl In at 1. rewrite IH. reflexivity.
Qed.

Lemma last_newline_spaces s j :
  last_newline s = Some j ->
  Forall (fun c => isspace c = true) (take (S j) s).
Proof.
  revert j. induction s as [|c s IH]; intros j H; simpl in H; [discriminate|].
  destruct (isspace c) eqn:Ec; [|discriminate].
  destruct (last_newline s) as [j'|] eqn:E.
  - inversion H; subst. simpl. constructor; [assumption|]. now apply IH.
  - destruct (c =? NL); [|discriminate]. inversion H; subst.
    simpl. constructor; [assumption|]. rewrite take_0. constructor.
Qed.

Lemma collapse_blank_lines_incl k t c :
  In c (collapse_blank_lines k t) -> In c t.
Proof.
  revert k. induction t as [|x t IH]; intros k; simpl; [tauto|].
  destruct k as [|k]; [|intros H; right; eauto].
  destruct (Z.eqb_spec x NL).
  - destruct (last_newline t).
    + simpl. intros [H|[H|H]]; [left; congruence | left; congruence |].
      right. eauto.
    + simpl. intros [H|H]; [now left | right; eauto].
  - simpl. intros [H|H]; [now left | right; eauto].
Qed.

Lemma strip_lines_incl t c :
  In c (join [NL] (List.map strip (split NL t))) -> c = NL \/ In c t.
Proof.
  intros H. apply in_join in H as [[H|[]]|(l & Hl & Hc)]; [now left|].
  right. apply in_map_iff in Hl as (y & <- & Hy). apply strip_incl in Hc.
  eapply in_split; eassumption.
Qed.

(** Every character of the result is a newline or a character of the
    text. *)
Lemma remove_extra_whitespace_incl t c :
  In c (remove_extra_whitespace t) -> c = NL \/ In c t.
Proof.
  unfold remove_extra_whitespace. intros H.
  apply strip_lines_incl in H as [->|H]; [now left|]. right.
  apply collapse_blank_lines_incl in H. now apply collapse_spaces_in.
Qed.

Lemma words_spec t :
  Forall (fun w => w <> [] /\ Forall (fun c => isspace c = false) w) (words t).
Proof.
  induction t as [|c t IH]; simpl; [constructor|].
  destruct (isspace c) eqn:Ec; [assumption|].
  destruct t as [|d t']; [repeat constructor; [discriminate | assumption]|].
  destruct (isspace d) eqn:Ed.
  - constructor; [|assumption]. split; [discriminate|]. now repeat constructor.
  - destruct (words (d :: t')) as [|w ws].
    + repeat constructor; [discriminate | assumption].
    + inversion IH as [|? ? [Hw1 Hw2] Hws]; subst.
      constructor; [|assumption]. split; [discriminate|]. now constructor.
Qed.

(** Every character of a text is in one of its words or is whitespace. *)
Lemma words_total_length t :
  (total_length (words t) + length (List.filter isspace t) = length t)%nat.
Proof.
  induction t as [|c t IH]; [reflexivity|].
  change (words (c :: t))
    with (if isspace c then words t
          else match t with
               | d :: _ =>
                   if isspace d then [c] :: words t
                   else match words t with
                        | w :: ws => (c :: w) :: ws
                        | [] => [[c]]
                        end
               | [] => [[c]]
               end).
  simpl List.filter. simpl length.
  destruct (isspace c) eqn:Ec; simpl length; [lia|].
  destruct t as [|d t']; [reflexivity|].
  destruct (isspace d) eqn:Ed.
  - simpl total_length. simpl total_length in IH. simpl length in *. lia.
  - assert (Hw : exists w ws, words (d :: t') = w :: ws).
    { simpl. rewrite Ed. destruct t' as [|e t'']; [eauto|].
      destruct (isspace e); [eauto|]. destruct (words (e :: t'')); eauto. }
    destruct Hw as (w & ws & Hw). rewrite Hw in *.
    simpl total_length in *. simpl length in *. lia.
Qed.

Lemma words_nil_iff t : words t = [] <-> Forall (fun c => isspace c = true) t.
Proof.
  split.
  - intros H. pose proof (words_total_length t) as E. rewrite H in E.
    simpl in E. clear H. induction t as [|c t IH]; [constructor|].
    simpl in E. pose proof (filter_length_le isspace t).
    destruct (isspace c) eqn:Ec; simpl in E; [|lia].
    constructor; [assumption|]. apply IH. lia.
  - induction 1 as [|c t Hc _ IH]; [reflexivity|]. simpl. now rewrite Hc.
Qed.

Lemma split_length t :
  length (split NL t) = S (length (List.filter (Z.eqb NL) t)).
Proof.
  induction t as [|c t IH]; [reflexivity|].
  change (List.filter (Z.eqb NL) (c :: t))
    with (if NL =? c then c :: List.filter (Z.eqb NL) t
          else List.filter (Z.eqb NL) t).
  change (split NL (c :: t))
    with (if c =? NL then [] :: split NL t
          else match split NL t with
               | l :: ls => (c :: l) :: ls
               | [] => [[c]]
               end).
  rewrite (Z.eqb_sym NL c).
  destruct (c =? NL); [simpl length; now rewrite IH|].
  destruct (split NL t) as [|l ls]; simpl length in *;
    [discriminate | exact IH].
Qed.

Local Abbreviation nonspace := (fun c : Z => negb (isspace c)).

Lemma nonspace_collapse_spaces t :
  List.filter nonspace (collapse_spaces t) = List.filter nonspace t.
Proof.
  induction t as [|x t IH]; [reflexivity|].
  change (collapse_spaces (x :: t))
    with (match t with
          | d :: _ =>
              if (x =? 32) && (d =? 32) then collapse_spaces t
              else x :: collapse_spaces t
          | [] => [x]
          end).
  destruct t as [|d t']; [reflexivity|].
  destruct (Z.eqb_spec x 32) as [->|Hx]; [destruct (d =? 32)|]; simpl andb;
    cbv iota.
  - rewrite IH. reflexivity.
  - change (List.filter nonspace (32 :: ?l)) with (List.filter nonspace l).
    rewrite IH. reflexivity.
  - change (List.filter nonspace (x :: collapse_spaces (d :: t')))
      with (if nonspace x
            then x :: List.filter nonspace (collapse_spaces (d :: t'))
            else List.filter nonspace (collapse_spaces (d :: t'))).
    rewrite IH. reflexivity.
Qed.

Lemma nonspace_collapse_blank_lines k t :
  Forall (fun x => isspace x = true) (take k t) ->
  List.filter nonspace (collapse_blank_lines k t) = List.filter nonspace t.
Proof.
  revert k. induction t as [|x t IH]; intros k Hk; [reflexivity|].
  destruct k as [|k].
  - simpl collapse_blank_lines.
    assert (H0 : List.filter nonspace (collapse_blank_lines 0 t)
                 = List.filter nonspace t).
    { apply IH. rewrite take_0. constructor. }
    destruct (Z.eqb_spec x NL) as [->|Hx].
    + destruct (last_newline t) as [j|] eqn:E.
      * change (List.filter nonspace (NL :: NL :: ?l))
          with (List.filter nonspace l).
        change (List.filter nonspace (NL :: t)) with (List.filter nonspace t).
        apply IH. now apply last_newline_spaces.
      * simpl. now rewrite H0.
    + simpl. now rewrite H0.
  - simpl in Hk. inversion Hk as [|? ? Hx Hk']; subst.
    simpl. rewrite Hx. simpl. now apply IH.
Qed.

Lemma nonspace_lstrip s : List.filter nonspace (lstrip s) = List.filter nonspace s.
Proof.
  induction s as [|c s IH]; [reflexivity|]. simpl.
  destruct (isspace c) eqn:Ec; simpl; [exact IH|]. now rewrite Ec.
Qed.

Lemma nonspace_rev s :
  List.filter nonspace (rev s) = rev (List.filter nonspace s).
Proof.
  induction s as [|c s IH]; [reflexivity|]. simpl.
  rewrite List.filter_app, IH. simpl.
  destruct (isspace c); simpl; [now rewrite app_nil_r | reflexivity].
Qed.

Lemma nonspace_strip s : List.filter nonspace (strip s) = List.filter nonspace s.
Proof.
  unfold strip, rstrip.
  now rewrite nonspace_rev, nonspace_lstrip, nonspace_rev, rev_involutive,
    nonspace_lstrip.
Qed.

Lemma nonspace_join ls :
  List.filter nonspace (join [NL] ls)
  = concat (List.map (List.filter nonspace) ls).
Proof.
  induction ls as [|l ls IH]; [reflexivity|].
  destruct ls as [|l' ls]; [simpl; now rewrite app_nil_r|].
  rewrite join_cons, !List.filter_app, IH. reflexivity.
Qed.

Lemma nonspace_strip_lines t :
  List.filter nonspace (join [NL] (List.map strip (split NL t)))
  = List.filter nonspace t.
Proof.
  rewrite nonspace_join, List.map_map.
  rewrite (List.map_ext _ _ nonspace_strip).
  now rewrite <- nonspace_join, join_split.
Qed.

(** [remove_extra_whitespace] changes whitespace only. *)
Lemma nonspace_remove_extra_whitespace t :
  List.filter nonspace (remove_extra_whitespace t) = List.filter nonspace t.
Proof.
  unfold remove_extra_whitespace.
  rewrite nonspace_strip_lines, nonspace_collapse_blank_lines,
    nonspace_collapse_spaces; [reflexivity|].
  rewrite take_0. constructor.
Qed.

Lemma nonspace_allowed pb t :
  List.filter nonspace (List.filter (allowed pb) t)
  = List.filter (visible pb) t.
Proof.
  induction t as [|c t IH]; [reflexivity|]. unfold visible in *. simpl.
  destruct (allowed pb c); simpl; [|exact IH].
  destruct (isspace c); simpl; [exact IH | now rewrite IH].
Qed.

Lemma visible_nonspace pb t :
  List.filter (visible pb) t
  = List.filter (allowed pb) (List.filter nonspace t).
Proof.
  induction t as [|c t IH]; [reflexivity|]. unfold visible in *. simpl.
  destruct (isspace c); simpl.
  - rewrite andb_false_r. exact IH.
  - rewrite andb_true_r. destruct (allowed pb c); now rewrite IH.
Qed.

(** The characters of the cleaned text that are not whitespace are the
    visible characters of the input, in their order. *)
Lemma nonspace_cleaned text aggressive :
  List.filter nonspace
    (strip (remove_special_characters (remove_extra_whitespace text)
              (negb aggressive)))
  = List.filter (visible (negb aggressive)) text.
Proof.
  rewrite nonspace_strip. unfold remove_special_characters.
  rewrite nonspace_allowed, !visible_nonspace.
  now rewrite nonspace_remove_extra_whitespace.
Qed.

Lemma falsy_strip s :
  falsy (strip s) = forallb isspace s.
Proof.
  destruct (forallb isspace s) eqn:E.
  - assert (H : strip s = []).
    { apply strip_nil_iff, List.Forall_forall.
      exact (proj1 (forallb_forall _ _) E). }
    now rewrite H.
  - destruct (strip s) eqn:Es; [|reflexivity].
    apply strip_nil_iff in Es. rewrite List.Forall_forall in Es.
    apply (proj2 (forallb_forall _ _)) in Es. congruence.
Qed.

Lemma filter_nil_existsb (f : Z -> bool) l :
  falsy (List.filter f l) = negb (existsb f l).
Proof.
  induction l as [|c l IH]; [reflexivity|]. simpl.
  destruct (f c); [reflexivity | exact IH].
Qed.

(** The three outcomes of [preprocess], read off the input. *)
Lemma preprocess_cases text aggressive :
  preprocess text aggressive =
    if forallb isspace text
    then Raise (ValueError (U "Empty text provided for preprocessing"))
    else if existsb (visible (negb aggressive)) text
    then Return (strip (remove_special_characters
                          (remove_extra_whitespace text) (negb aggressive)))
    else Raise (ValueError (U "Text became empty after preprocessing")).
Proof.
  unfold preprocess. rewrite falsy_strip.
  assert (E1 : falsy text || forallb isspace text = forallb isspace text).
  { destruct text; reflexivity. }
  rewrite E1. destruct (forallb isspace text); [reflexivity|].
  rewrite falsy_strip.
  assert (E2 : forallb isspace
                 (remove_special_characters (remove_extra_whitespace text)
                    (negb aggressive))
               = negb (existsb (visible (negb aggressive)) text)).
  { rewrite <- filter_nil_existsb, <- nonspace_cleaned, nonspace_strip.
    generalize (remove_special_characters (remove_extra_whitespace text)
                  (negb aggressive)).
    intros u. induction u as [|c u IH]; [reflexivity|]. simpl.
    destruct (isspace c); [exact IH | reflexivity]. }
  rewrite E2. destruct (existsb _ text); reflexivity.
Qed.

Lemma split_absent sep s : ~ In sep s -> split sep s = [s].
Proof.
  induction s as [|c s IH]; [reflexivity|]. simpl. intros H.
  destruct (Z.eqb_spec c sep); [exfalso; apply H; now left|].
  rewrite IH by tauto. reflexivity.
Qed.

(** No step of [remove_extra_whitespace] brings in a character the text
    did not have. *)
Lemma remove_extra_whitespace_from_input t c :
  In c (remove_extra_whitespace t) -> In c t.
Proof.
  intros H. destruct (remove_extra_whitespace_incl _ _ H) as [->|]; [|easy].
  destruct (in_dec Z.eq_dec NL t) as [|Hn]; [assumption|]. exfalso.
  unfold remove_extra_whitespace in H.
  assert (Hu : ~ In NL (collapse_blank_lines 0 (collapse_spaces t))).
  { intros Hi. apply Hn.
    apply collapse_blank_lines_incl in Hi. now apply collapse_spaces_in. }
  rewrite (split_absent _ _ Hu) in H. simpl in H.
  apply Hu. now apply strip_incl.
Qed.

Lemma collapse_spaces_length t : (length (collapse_spaces t) <= length t)%nat.
Proof.
  induction t as [|x t IH]; [reflexivity|].
  change (collapse_spaces (x :: t))
    with (match t with
          | d :: _ =>
              if (x =? 32) && (d =? 32) then collapse_spaces t
              else x :: collapse_spaces t
          | [] => [x]
          end).
  destruct t as [|d t']; [reflexivity|].
  destruct ((x =? 32) && (d =? 32)); simpl length in *; lia.
Qed.

Lemma last_newline_lt s j : last_newline s = Some j -> (j < length s)%nat.
Proof.
  revert j. induction s as [|c s IH]; intros j H; simpl in H; [discriminate|].
  destruct (isspace c); [|discriminate].
  destruct (last_newline s) as [j'|].
  - inversion H; subst. specialize (IH j' eq_refl). simpl. lia.
  - destruct (c =? NL); [|discriminate]. inversion H; subst. simpl. lia.
Qed.

Lemma collapse_blank_lines_length k t :
  (length (collapse_blank_lines k t) + Nat.min k (length t) <= length t)%nat.
Proof.
  revert k. induction t as [|x t IH]; intros k; [simpl; lia|].
  destruct k as [|k].
  - simpl collapse_blank_lines. pose proof (IH 0%nat) as H0.
    destruct (x =? NL).
    + destruct (last_newline t) as [j|] eqn:E.
      * apply last_newline_lt in E. specialize (IH (S j)).
        simpl length. lia.
      * simpl length. lia.
    + simpl length. lia.
  - specialize (IH k). simpl collapse_blank_lines. simpl length. lia.
Qed.

Lemma lstrip_length s : (length (lstrip s) <= length s)%nat.
Proof.
  induction s as [|c s IH]; [reflexivity|]. simpl.
  destruct (isspace c); simpl; lia.
Qed.

Lemma strip_length s : (length (strip s) <= length s)%nat.
Proof.
  unfold strip, rstrip. rewrite length_rev.
  pose proof (lstrip_length (rev (lstrip s))) as H1.
  pose proof (lstrip_length s) as H2. rewrite length_rev in H1. lia.
Qed.

Lemma join_strip_length sep ls :
  (length (join sep (List.map strip ls)) <= length (join sep ls))%nat.
Proof.
  induction ls as [|l ls IH]; [reflexivity|].
  destruct ls as [|l' ls]; [apply strip_length|].
  change (List.map strip (l :: l' :: ls))
    with (strip l :: strip l' :: List.map strip ls).
  change (List.map strip (l' :: ls))
    with (strip l' :: List.map strip ls) in IH.
  rewrite !join_cons, !length_app. pose proof (strip_length l). lia.
Qed.

Lemma remove_extra_whitespace_length t :
  (length (remove_extra_whitespace t) <= length t)%nat.
Proof.
  unfold remove_extra_whitespace.
  pose proof (join_strip_length [NL]
                (split NL (collapse_blank_lines 0 (collapse_spaces t)))) as H1.
  rewrite join_split in H1.
  pose proof (collapse_blank_lines_length 0 (collapse_spaces t)) as H2.
  pose proof (collapse_spaces_length t). lia.
Qed.

Lemma words_count t : (length (words t) <= total_length (words t))%nat.
Proof.
  pose proof (words_spec t) as H.
  induction H as [|w ws [Hw _] _ IH]; [reflexivity|].
  simpl. destruct w; [congruence|]. simpl. lia.
Qed.

Lemma nonspace_length t :
  (length (List.filter nonspace t) + length (List.filter isspace t)
   = length t)%nat.
Proof.
  induction t as [|c t IH]; [reflexivity|]. simpl.
  destruct (isspace c); simpl; lia.
Qed.
End MorePreprocessorFacts.

Section MorePreprocessorTheorems.
Import TextPreprocessor.

(** X10.  [preprocess] has three outcomes, decided by the input alone: it
    raises "Empty text provided for preprocessing" exactly when every
    character is whitespace (the empty text included); it raises "Text
    became empty after preprocessing" exactly when the text has a
    character that is not whitespace but none that is visible, that is,
    kept by the pattern and not whitespace; and it returns a text exactly
    when the input has a visible character. *)
Theorem preprocess_outcomes (text : str) (aggressive : bool) :
  (preprocess text aggressive
     = Raise (ValueError (U "Empty text provided for preprocessing"))
   <-> Forall (fun c => isspace c = true) text)
  /\ (preprocess text aggressive
        = Raise (ValueError (U "Text became empty after preprocessing"))
      <-> Exists (fun c => isspace c = false) text
          /\ Forall (fun c => visible (negb aggressive) c = false) text)
  /\ ((exists s, preprocess text aggressive = Return s)
      <-> Exists (fun c => visible (negb aggressive) c = true) text).
Proof.
  rewrite preprocess_cases.
  destruct (forallb isspace text) eqn:Ef.
  - assert (Hs : Forall (fun c => isspace c = true) text).
    { apply List.Forall_forall. exact (proj1 (forallb_forall _ _) Ef). }
    split; [tauto|]. split.
    + split; [discriminate|]. intros [He _].
      apply List.Exists_exists in He as (c & Hc & Hn).
      rewrite List.Forall_forall in Hs. specialize (Hs c Hc). congruence.
    + split; [intros [s H]; discriminate|]. intros He.
      apply List.Exists_exists in He as (c & Hc & Hv).
      rewrite List.Forall_forall in Hs. specialize (Hs c Hc).
      unfold visible in Hv. rewrite Hs, andb_false_r in Hv. discriminate.
  - assert (Hs : Exists (fun c => isspace c = false) text).
    { apply List.Exists_exists.
      destruct (existsb (fun c => negb (isspace c)) text) eqn:Ee.
      - apply existsb_exists in Ee as (c & Hc & Hn). exists c.
        split; [assumption|]. now destruct (isspace c).
      - exfalso. assert (forallb isspace text = true); [|congruence].
        apply (proj2 (forallb_forall _ _)). intros c Hc.
        destruct (isspace c) eqn:Ec; [reflexivity|].
        assert (existsb (fun c => negb (isspace c)) text = true);
          [|congruence].
        apply existsb_exists. exists c. now rewrite Ec. }
    assert (Hns : ~ Forall (fun c => isspace c = true) text).
    { intros Ha. rewrite List.Forall_forall in Ha.
      apply (proj2 (forallb_forall _ _)) in Ha. congruence. }
    destruct (existsb (visible (negb aggressive)) text) eqn:Ev.
    + assert (Hv : Exists (fun c => visible (negb aggressive) c = true) text).
      { apply List.Exists_exists. now apply existsb_exists. }
      split; [split; [discriminate | tauto]|]. split.
      * split; [discriminate|]. intros [_ Ha].
        apply List.Exists_exists in Hv as (c & Hc & Hv).
        rewrite List.Forall_forall in Ha. specialize (Ha c Hc). congruence.
      * split; [tauto | eauto].
    + assert (Hv : Forall (fun c => visible (negb aggressive) c = false) text).
      { apply List.Forall_forall. intros c Hc.
        destruct (visible (negb aggressive) c) eqn:E; [|reflexivity].
        assert (existsb (visible (negb aggressive)) text = true);
          [|congruence].
        apply existsb_exists. eauto. }
      split; [split; [intros H; vm_compute in H; discriminate | tauto]|].
      split; [tauto|].
      split; [intros [s H]; discriminate|]. intros He.
      apply List.Exists_exists in He as (c & Hc & Hvc).
      rewrite List.Forall_forall in Hv. specialize (Hv c Hc). congruence.
Qed.

(** X11.  What [preprocess] returns is the input with whitespace changed
    and characters outside the pattern removed, and nothing else: its
    characters that are not whitespace are, in the same order, the visible
    characters of the input; each of its characters occurs in the input;
    and it is no longer than the input. *)
Theorem preprocess_keeps_visible_text (text : str) (aggressive : bool)
  (s : str) :
  preprocess text aggressive = Return s ->
  List.filter (fun c => negb (isspace c)) s
    = List.filter (visible (negb aggressive)) text
  /\ (forall c, In c s -> In c text)
  /\ (length s <= length text)%nat.
Proof.
  intros H. apply preprocess_return in H as [-> _].
  split; [apply nonspace_cleaned|]. split.
  - intros c Hc. apply strip_incl in Hc.
    unfold remove_special_characters in Hc. apply filter_In in Hc as [Hc _].
    now apply remove_extra_whitespace_from_input.
  - pose proof (strip_length
                  (remove_special_characters (remove_extra_whitespace text)
                     (negb aggressive))) as H1.
    unfold remove_special_characters in *.
    pose proof (filter_length_le (fun c => allowed (negb aggressive) c)
                  (remove_extra_whitespace text)) as H2.
    pose proof (remove_extra_whitespace_length text). lia.
Qed.

Lemma preprocess_keeps_visible_text_witness :
  preprocess (U "  C++ &  Go! ") false = Return (U "C++  Go")
  /\ List.filter (fun c => negb (isspace c)) (U "C++  Go")
     = List.filter (visible true) (U "  C++ &  Go! ").
Proof.
  split; [reflexivity|].
  apply (preprocess_keeps_visible_text (U "  C++ &  Go! ") false (U "C++  Go")).
  reflexivity.
Defined.

(** X12.  The figures of [get_text_statistics] fit together: the number
    of lines is one more than the number of newline characters; there is
    no word exactly when the text is all whitespace; the words are at most
    as many as the characters that are not whitespace; and the average
    word length (the exact quotient, before Python rounds it to a float)
    times the number of words is the number of characters that are not
    whitespace. *)
Theorem get_text_statistics_consistent (text : str) :
  let st := get_text_statistics text in
  let visible_chars := length (List.filter (fun c => negb (isspace c)) text) in
  total_lines st = S (length (List.filter (Z.eqb NL) text))
  /\ (total_words st = 0%nat <-> Forall (fun c => isspace c = true) text)
  /\ (total_words st <= visible_chars <= total_characters st)%nat
  /\ Qeq (Qmult (avg_word_length st) (inject_Z (Z.of_nat (total_words st))))
         (inject_Z (Z.of_nat visible_chars)).
Proof.
  cbv zeta. unfold get_text_statistics. cbn [total_lines total_words
    total_characters avg_word_length].
  assert (Ht : total_length (words text)
               = length (List.filter (fun c => negb (isspace c)) text)).
  { pose proof (words_total_length text). pose proof (nonspace_length text).
    lia. }
  split; [apply split_length|]. split.
  - rewrite <- words_nil_iff. now destruct (words text).
  - split.
    + pose proof (words_count text).
      pose proof (filter_length_le (fun c => negb (isspace c)) text). lia.
    + rewrite <- Ht. destruct (words text) as [|w ws] eqn:Ew.
      * reflexivity.
      * unfold Qeq, Qmult, inject_Z. cbn [Qnum Qden].
        rewrite Pos.mul_1_r, Z.mul_1_r.
        change (length (w :: ws)) with (S (length ws)).
        rewrite <- positive_nat_Z, Nat2Pos.id by discriminate.
        reflexivity.
Qed.
End MorePreprocessorTheorems.

(** ** More on the recovery parsers *)

Section MoreRecoveryFacts.
Import JSON GeminiAnalyzer.
Implicit Types (r s t p q mid : str) (d : dict) (c : Z).

Lemma rstrip_app_nonspace s c t :
  isspace c = false -> rstrip (s ++ c :: t) = s ++ c :: rstrip t.
Proof.
  intros Hc. unfold rstrip. rewrite rev_app_distr. simpl.
  rewrite <- app_assoc. simpl.
  rewrite lstrip_app_nonspace by assumption.
  rewrite rev_app_distr. simpl. rewrite rev_involutive.
  rewrite <- app_assoc. reflexivity.
Qed.

Lemma rstrip_incl s c : In c (rstrip s) -> In c s.
Proof.
  unfold rstrip. intros H. apply in_rev in H. apply lstrip_incl in H.
  now apply in_rev in H.
Qed.

(** [strip] works on what is around a text whose ends are not
    whitespace. *)
Lemma strip_framed p a mid b q :
  isspace a = false -> isspace b = false ->
  strip (p ++ a :: mid ++ b :: q) = lstrip p ++ a :: mid ++ b :: rstrip q.
Proof.
  intros Ha Hb. unfold strip. rewrite lstrip_app_nonspace by assumption.
  replace (lstrip p ++ a :: mid ++ b :: q)
    with ((lstrip p ++ a :: mid) ++ b :: q)
    by (rewrite <- app_assoc; reflexivity).
  rewrite rstrip_app_nonspace by assumption.
  rewrite <- app_assoc. reflexivity.
Qed.

Lemma startswith_app_inv (f : str) p c t :
  ~ In c f -> startswith f (p ++ c :: t) = true -> exists p', p = f ++ p'.
Proof.
  revert p. induction f as [|a f IH]; intros p Hf H; [now exists p|].
  destruct p as [|x p]; simpl in H.
  - destruct (Z.eqb_spec a c); [|discriminate].
    exfalso. apply Hf. now left.
  - apply andb_true_iff in H as [Hax H]. apply Z.eqb_eq in Hax. subst x.
    destruct (IH p) as [p' ->]; [intros Hi; apply Hf; now right | exact H|].
    now exists p'.
Qed.

Lemma endswith_app_inv (f : str) s c q :
  ~ In c f -> endswith f (s ++ c :: q) = true -> exists q', q = q' ++ f.
Proof.
  unfold endswith. intros Hf H.
  rewrite rev_app_distr in H. simpl in H. rewrite <- app_assoc in H.
  apply startswith_app_inv in H as [p' E].
  - exists (rev p'). rewrite <- (rev_involutive q), E, rev_app_distr.
    now rewrite rev_involutive.
  - intros Hi. apply Hf. now apply in_rev.
Qed.

(** The fences are cut out of the prose around an object, never out of
    the object. *)
Lemma strip_fences_framed p mid q :
  ~ In 123 p -> ~ In 125 q ->
  exists p' q',
    strip_fences (p ++ 123 :: mid ++ 125 :: q) = p' ++ 123 :: mid ++ 125 :: q'
    /\ ~ In 123 p' /\ ~ In 125 q'.
Proof.
  intros Hp Hq. unfold strip_fences.
  set (t := p ++ 123 :: mid ++ 125 :: q).
  assert (Hfront : exists p',
            (if startswith fence_json t then drop 7 t
             else if startswith fence t then drop 3 t else t)
            = p' ++ 123 :: mid ++ 125 :: q /\ ~ In 123 p').
  { destruct (startswith fence_json t) eqn:E1.
    - apply startswith_app_inv in E1 as [p' E];
        [|vm_compute; intuition discriminate].
      exists p'. subst t. rewrite E. split; [reflexivity|].
      intros Hi. apply Hp. rewrite E. apply in_or_app. now right.
    - destruct (startswith fence t) eqn:E2.
      + apply startswith_app_inv in E2 as [p' E];
          [|vm_compute; intuition discriminate].
        exists p'. subst t. rewrite E. split; [reflexivity|].
        intros Hi. apply Hp. rewrite E. apply in_or_app. now right.
      + now exists p. }
  destruct Hfront as (p' & -> & Hp'). clear t.
  destruct (endswith fence (p' ++ 123 :: mid ++ 125 :: q)) eqn:E.
  - replace (p' ++ 123 :: mid ++ 125 :: q)
      with ((p' ++ 123 :: mid) ++ 125 :: q) in *
      by (rewrite <- app_assoc; reflexivity).
    apply endswith_app_inv in E as [q' E];
      [|vm_compute; intuition discriminate].
    exists p', q'. split; [|split; [assumption|]].
    + rewrite E.
      replace ((p' ++ 123 :: mid) ++ 125 :: q' ++ fence)
        with ((p' ++ 123 :: mid ++ 125 :: q') ++ fence)
        by (rewrite <- !app_assoc; simpl; rewrite <- ?app_assoc; reflexivity).
      apply take_app_length'. rewrite (length_app _ fence).
      change (length fence) with 3%nat. lia.
    + intros Hi. apply Hq. rewrite E. apply in_or_app. now left.
  - now exists p', q.
Qed.

Lemma rfind_app c s q :
  ~ In c q -> rfind c (s ++ c :: q) = Z.of_nat (length s).
Proof.
  intros Hq. unfold rfind. rewrite rev_app_distr. simpl.
  rewrite <- app_assoc. simpl.
  rewrite find_app by (intros Hi; apply Hq; now apply in_rev).
  rewrite length_rev, length_app. simpl length.
  destruct (Z.eqb_spec (Z.of_nat (length q)) (-1)); lia.
Qed.

(** The search for braces finds the object in brace-free prose. *)
Lemma json_span_framed p mid q :
  ~ In 123 p -> ~ In 125 q ->
  json_span (p ++ 123 :: mid ++ 125 :: q) = 123 :: mid ++ [125].
Proof.
  intros Hp Hq. unfold json_span. cbv zeta.
  rewrite find_app by assumption.
  assert (E : rfind 125 (p ++ 123 :: mid ++ 125 :: q)
              = Z.of_nat (length (p ++ 123 :: mid))).
  { rewrite <- (rfind_app 125 (p ++ 123 :: mid) q Hq). f_equal.
    now rewrite <- app_assoc. }
  rewrite E.
  destruct (Z.eqb_spec (Z.of_nat (length p)) (-1)); [lia|].
  destruct (Z.eqb_spec (Z.of_nat (length (p ++ 123 :: mid))) (-1)); [lia|].
  simpl andb. cbv iota. unfold slice.
  replace (Z.to_nat (Z.of_nat (length (p ++ 123 :: mid)) + 1))
    with (length (p ++ 123 :: mid ++ [125]))
    by (rewrite !length_app; simpl; rewrite length_app; simpl; lia).
  replace (p ++ 123 :: mid ++ 125 :: q)
    with ((p ++ 123 :: mid ++ [125]) ++ q)
    by (rewrite <- !app_assoc; simpl; rewrite <- app_assoc; reflexivity).
  rewrite take_app_length, Nat2Z.id. apply drop_app_length.
Qed.

Lemma clean_response_framed p mid q :
  ~ In 123 p -> ~ In 125 q ->
  clean_response (p ++ 123 :: mid ++ 125 :: q) = 123 :: mid ++ [125].
Proof.
  intros Hp Hq. unfold clean_response, trimmed.
  rewrite strip_framed by reflexivity.
  destruct (strip_fences_framed (lstrip p) mid (rstrip q))
    as (p' & q' & -> & Hp' & Hq').
  { intros Hi. apply Hp. now apply lstrip_incl. }
  { intros Hi. apply Hq. now apply rstrip_incl. }
  rewrite strip_framed by reflexivity.
  apply json_span_framed.
  - intros Hi. apply Hp'. now apply lstrip_incl.
  - intros Hi. apply Hq'. now apply rstrip_incl.
Qed.

(** A value that is not a dictionary passes the loop over the required
    fields unchanged, or stops it with a [TypeError]. *)
Lemma backfill_non_object fields v :
  (forall d, v <> Obj d) ->
  (backfill fields v = Return v
   /\ Forall (fun f => py_contains v f = Return true) fields)
  \/ (backfill fields v = Raise TypeError
      /\ Exists (fun f => py_contains v f <> Return true) fields).
Proof.
  intros Hv. induction fields as [|f fs IH]; [left; split; [reflexivity|constructor]|].
  assert (Hc : py_contains v f = Return true
               \/ py_contains v f = Return false
               \/ py_contains v f = Raise TypeError).
  { destruct v; simpl; try tauto;
      match goal with |- context [Return ?b] => destruct b; tauto end. }
  assert (Hs : py_setitem v f (default_for f) = Raise TypeError).
  { destruct v; try reflexivity. now destruct (Hv d). }
  simpl. destruct Hc as [Hc|[Hc|Hc]]; rewrite Hc; simpl.
  - destruct IH as [[E Ha]|[E He]].
    + left. split; [exact E | now constructor].
    + right. split; [exact E | now apply Exists_cons_tl].
  - rewrite Hs. right. split; [reflexivity|].
    apply Exists_cons_hd. rewrite Hc. discriminate.
  - right. split; [reflexivity|].
    apply Exists_cons_hd. rewrite Hc. discriminate.
Qed.

Lemma dict_set_same d (k : str) v :
  dict_get d k = Some v -> dict_set d k v = d.
Proof.
  induction d as [|[k' v'] d IH]; simpl; [discriminate|].
  destruct (str_eqb k' k); [now intros [= ->]|].
  intros H. now rewrite IH.
Qed.
End MoreRecoveryFacts.

Section MoreScoreFacts.
Import JSON GeminiAnalyzer.
Variable int_of_float : str -> result Z.
Variable int_of_str : str -> result Z.

(** The loop body returns on dictionaries only, and only when the score,
    if there is one, converts. *)
Lemma validate_skill_return (skill skill' : value) :
  validate_skill int_of_float int_of_str skill = Return skill' ->
  exists d,
    skill = Obj d
    /\ ((dict_get d (U "score") = None
         /\ skill' = Obj (dict_set d (U "score") (Int 5)))
        \/ exists x n,
             dict_get d (U "score") = Some x
             /\ py_int int_of_float int_of_str x = Return n
             /\ skill' = Obj (dict_set d (U "score")
                                (Int (Z.max 1 (Z.min 10 n))))).
Proof.
  unfold validate_skill. destruct skill as [| | | |x|l|d]; simpl;
    try discriminate.
  - destruct (is_substring _ x); simpl; discriminate.
  - destruct (existsb _ l); simpl; discriminate.
  - unfold dict_mem. destruct (dict_get d (U "score")) as [x|] eqn:E; simpl.
    + destruct (py_int int_of_float int_of_str x) as [n|e] eqn:En; simpl;
        [|discriminate].
      intros [= <-]. exists d. split; [reflexivity|]. right. eauto.
    + intros [= <-]. exists d. split; [reflexivity|]. now left.
Qed.

Lemma validate_skill_clamped (d : dict) (n : Z) :
  1 <= n <= 10 ->
  validate_skill int_of_float int_of_str
    (Obj (dict_set d (U "score") (Int n)))
  = Return (Obj (dict_set d (U "score") (Int n))).
Proof.
  intros Hn.
  rewrite (validate_skill_present int_of_float int_of_str _ (Int n) n);
    [|apply dict_get_set_eq | reflexivity].
  replace (Z.max 1 (Z.min 10 n)) with n by lia.
  rewrite dict_set_same; [reflexivity | apply dict_get_set_eq].
Qed.

Lemma validate_skill_fixed (skill skill' : value) :
  validate_skill int_of_float int_of_str skill = Return skill' ->
  validate_skill int_of_float int_of_str skill' = Return skill'.
Proof.
  intros H.
  apply validate_skill_return in H as (d & -> & [[_ ->]|(x & n & _ & _ & ->)]);
    apply validate_skill_clamped; lia.
Qed.

Lemma validate_skill_convertible (skill skill' : value) :
  validate_skill int_of_float int_of_str skill = Return skill' ->
  convertible_entry int_of_float int_of_str skill.
Proof.
  intros H.
  apply validate_skill_return in H as (d & -> & [[E _]|(x & n & E & En & _)]);
    exists d; (split; [reflexivity|]); intros y Hy; rewrite E in Hy;
    [discriminate|]. inversion Hy; subst. eauto.
Qed.
End MoreScoreFacts.

Section MoreRecoveryTheorems.
Import JSON GeminiAnalyzer.

(** X13.  Prose around a JSON object does not matter to either parser,
    as long as no opening brace precedes the object and no closing brace
    follows it: the text handed to [json.loads] is the object alone, with
    or without code fences in the prose, and [parse_gemini_response] and
    [parse_response] of the profile analyzer give the outcome they give on
    the bare object. *)
Theorem parsers_drop_prose (pre mid post : str) :
  ~ In 123 pre -> ~ In 125 post ->
  let object := 123 :: mid ++ [125] in
  let r := pre ++ object ++ post in
  clean_response r = object
  /\ snd (parse_gemini_response r) = snd (parse_gemini_response object)
  /\ snd (GitHubProfileAnalyzer.parse_response r)
     = snd (GitHubProfileAnalyzer.parse_response object).
Proof.
  intros Hpre Hpost object r.
  assert (E : clean_response r = object).
  { subst r object.
    replace (pre ++ (123 :: mid ++ [125]) ++ post)
      with (pre ++ 123 :: mid ++ 125 :: post)
      by (simpl; rewrite <- app_assoc; reflexivity).
    now apply clean_response_framed. }
  assert (E' : clean_response object = object).
  { subst object.
    pose proof (clean_response_framed [] mid []) as H. simpl in H.
    apply H; auto. }
  split; [exact E|].
  unfold parse_gemini_response, GitHubProfileAnalyzer.parse_response.
  rewrite E, E'. split.
  - destruct (loads object) as [v|]; [|reflexivity].
    destruct (backfill required_fields v); reflexivity.
  - destruct (loads object); reflexivity.
Qed.

Lemma parsers_drop_prose_witness :
  clean_response
    (U "Here is the analysis: ```json"
     ++ (123 :: Q "'summary': 'Backend developer'" ++ [125])
     ++ U "``` I hope this helps!")
  = Q "{'summary': 'Backend developer'}".
Proof.
  refine (proj1 (parsers_drop_prose (U "Here is the analysis: ```json")
                   (Q "'summary': 'Backend developer'")
                   (U "``` I hope this helps!") _ _));
    vm_compute; intuition discriminate.
Defined.

(** X14.  When the cleaned text reads as JSON that is not an object,
    [parse_gemini_response] does not return a dictionary: it returns the
    value itself when all four field names are [in] it (a list that holds
    them, a string that contains them), and otherwise fails with the
    error-processing message around a [TypeError], which is what a number,
    a boolean and [null] always give.  The profile analyzer's
    [parse_response] returns the value in either case. *)
Theorem parse_non_object_response (r : str) (v : value) :
  loads (clean_response r) = Some v ->
  (forall d, v <> Obj d) ->
  ((parse_gemini_response r = ([], Return v)
    /\ Forall (fun f => py_contains v f = Return true) required_fields)
   \/ (parse_gemini_response r
       = ([], Raise (ValueErrorFrom (U "Error processing Gemini response: ")
                       TypeError))
       /\ Exists (fun f => py_contains v f <> Return true) required_fields))
  /\ snd (GitHubProfileAnalyzer.parse_response r) = Return v.
Proof.
  intros Hl Hv. split.
  - unfold parse_gemini_response. rewrite Hl.
    destruct (backfill_non_object required_fields v Hv) as [[E H]|[E H]];
      rewrite E; [left | right]; now split.
  - unfold GitHubProfileAnalyzer.parse_response. now rewrite Hl.
Qed.

Lemma parse_non_object_response_witness :
  parse_gemini_response (U "[1, 2, 3]")
  = ([], Raise (ValueErrorFrom (U "Error processing Gemini response: ")
                  TypeError))
  /\ snd (GitHubProfileAnalyzer.parse_response (U "[1, 2, 3]"))
     = Return (Arr [Int 1; Int 2; Int 3]).
Proof.
  destruct (parse_non_object_response (U "[1, 2, 3]")
              (Arr [Int 1; Int 2; Int 3]))
    as [[[_ H]|[H _]] H'].
  - vm_compute. reflexivity.
  - discriminate.
  - inversion H as [|? ? Hc _]. vm_compute in Hc. discriminate.
  - split; [exact H | exact H'].
Defined.

(** X15.  [validate_skill_scores] returns exactly on the lists whose
    entries are all dictionaries with a score that is absent or that
    [int()] converts: an entry that is not a dictionary, or a score that is
    [null], a list or a dictionary, or a text or float [int()] rejects,
    makes the call raise. *)
Theorem validate_skill_scores_returns_iff
    (int_of_float int_of_str : str -> result Z) (skills : list value) :
  (exists out,
     validate_skill_scores int_of_float int_of_str skills = Return out)
  <-> Forall (convertible_entry int_of_float int_of_str) skills.
Proof.
  split.
  - induction skills as [|skill rest IH]; intros [out H]; [constructor|].
    simpl in H.
    destruct (validate_skill int_of_float int_of_str skill) as [s'|e] eqn:Es;
      [|discriminate].
    simpl in H.
    destruct (validate_skill_scores int_of_float int_of_str rest)
      as [rest'|e] eqn:Er; [|discriminate].
    constructor; [eapply validate_skill_convertible; eassumption|].
    apply IH. eauto.
  - induction 1 as [|skill rest Hs _ [out Hout]]; [now exists []|].
    destruct (validate_skill_normalizes _ _ _ Hs) as (skill' & Hv & _).
    exists (skill' :: out). simpl. now rewrite Hv, Hout.
Qed.

(** X16.  What [validate_skill_scores] returns is left as it is by a
    second call, which returns too: clamping a clamped score changes
    nothing. *)
Theorem validate_skill_scores_idempotent
    (int_of_float int_of_str : str -> result Z) (skills out : list value) :
  validate_skill_scores int_of_float int_of_str skills = Return out ->
  validate_skill_scores int_of_float int_of_str out = Return out.
Proof.
  revert out. induction skills as [|skill rest IH]; intros out H; simpl in H.
  - now inversion H.
  - destruct (validate_skill int_of_float int_of_str skill) as [s'|e] eqn:Es;
      [|discriminate].
    simpl in H.
    destruct (validate_skill_scores int_of_float int_of_str rest)
      as [rest'|e] eqn:Er; [|discriminate].
    simpl in H. inversion H; subst out. simpl.
    rewrite (validate_skill_fixed _ _ _ _ Es), (IH rest' eq_refl).
    reflexivity.
Qed.

Lemma validate_skill_scores_idempotent_witness :
  validate_skill_scores
    (fun _ => Raise OverflowError) (fun _ => Raise (ValueError []))
    [Obj [(U "name", Str (U "Python")); (U "score", Int 10)];
     Obj [(U "name", Str (U "Go")); (U "score", Int 5)]]
  = Return [Obj [(U "name", Str (U "Python")); (U "score", Int 10)];
            Obj [(U "name", Str (U "Go")); (U "score", Int 5)]].
Proof.
  apply (validate_skill_scores_idempotent
           (fun _ => Raise OverflowError) (fun _ => Raise (ValueError []))
           [Obj [(U "name", Str (U "Python")); (U "score", Int 42)];
            Obj [(U "name", Str (U "Go"))]]).
  reflexivity.
Defined.
End MoreRecoveryTheorems.

(** ** More on the repository summary *)

Section MoreSummaryFacts.
Import GitHubFetcher.

Lemma repositories_eq (repo_data : list repo) :
  repositories (summarize_data repo_data)
  = take 20 (sort_by_stars (List.map summary_of (kept repo_data))).
Proof.
  unfold summarize_data. simpl.
  rewrite fold_step_kept, fold_step_summaries; [reflexivity|].
  apply kept_not_skipped.
Qed.

Lemma or_default_filled (x : option str) (default : str) :
  default <> [] -> or_default x default <> [].
Proof. destruct x as [[|c r]|]; simpl; congruence. Qed.

Lemma sorted_app_cross (l1 l2 : list repo_summary) :
  StronglySorted by_stars_desc (l1 ++ l2) ->
  forall a b, In a l1 -> In b l2 -> stars b <= stars a.
Proof.
  induction l1 as [|x l1 IH]; intros H a b Ha Hb; [destruct Ha|].
  simpl in H. inversion H as [|? ? Hs Hx]; subst.
  destruct Ha as [->|Ha]; [|now apply IH].
  rewrite List.Forall_forall in Hx. apply Hx. apply in_or_app. now right.
Qed.

(** Inserting an entry moves it past entries with more stars only. *)
Lemma insert_by_stars_ties (k : Z) (x : repo_summary) (l : list repo_summary) :
  List.filter (fun e => stars e =? k) (insert_by_stars x l)
  = List.filter (fun e => stars e =? k) (x :: l).
Proof.
  induction l as [|y l IH]; [reflexivity|].
  change (insert_by_stars x (y :: l))
    with (if stars x <? stars y then y :: insert_by_stars x l
          else x :: y :: l).
  destruct (Z.ltb_spec (stars x) (stars y)) as [Hlt|]; [|reflexivity].
  simpl in *. rewrite IH.
  destruct (Z.eqb_spec (stars x) k), (Z.eqb_spec (stars y) k);
    try reflexivity. lia.
Qed.

Lemma sort_by_stars_ties (k : Z) (l : list repo_summary) :
  List.filter (fun e => stars e =? k) (sort_by_stars l)
  = List.filter (fun e => stars e =? k) l.
Proof.
  induction l as [|x l IH]; [reflexivity|].
  change (sort_by_stars (x :: l)) with (insert_by_stars x (sort_by_stars l)).
  rewrite insert_by_stars_ties. simpl. now rewrite IH.
Qed.
End MoreSummaryFacts.

Section MoreSummaryTheorems.
Import GitHubFetcher.

(** X17.  The [repositories] of the summary are the top of the list: they
    are as many as the repositories that are not skipped, up to 20; each
    is the entry of such a repository, with a description and a language
    that are never empty; and a repository that is not skipped is either
    listed, or the list is full and every listed entry has at least as
    many stars. *)
Theorem top_repositories_dominate (repo_data : list repo) :
  let listed := repositories (summarize_data repo_data) in
  length listed = Nat.min 20 (length (kept repo_data))
  /\ (forall e, In e listed ->
        rs_description e <> [] /\ rs_language e <> []
        /\ exists r, In r repo_data /\ skipped r = false /\ e = summary_of r)
  /\ (forall r, In r repo_data -> skipped r = false ->
        In (summary_of r) listed
        \/ (length listed = 20%nat
            /\ forall e, In e listed -> stargazers_count r <= stars e)).
Proof.
  cbv zeta. rewrite repositories_eq.
  set (l := sort_by_stars (List.map summary_of (kept repo_data))).
  assert (Hperm : Permutation l (List.map summary_of (kept repo_data)))
    by apply sort_by_stars_perm.
  assert (Hlen : length l = length (kept repo_data)).
  { rewrite (Permutation_length Hperm). apply length_map. }
  split; [rewrite length_take; lia|]. split.
  - intros e He.
    assert (He' : In e l)
      by (rewrite <- (take_drop 20 l); apply in_or_app; now left).
    clear He. rename He' into He.
    apply (Permutation_in _ Hperm) in He.
    apply in_map_iff in He as (r & <- & Hr).
    apply filter_In in Hr as [Hr Hs].
    split; [apply or_default_filled; discriminate|].
    split; [apply or_default_filled; discriminate|].
    exists r. split; [assumption|]. split; [|reflexivity].
    now destruct (skipped r).
  - intros r Hr Hs.
    assert (Hin : In (summary_of r) l).
    { apply (Permutation_in _ (Permutation_sym Hperm)).
      apply in_map. apply filter_In. split; [assumption|]. now rewrite Hs. }
    rewrite <- (take_drop 20 l) in Hin.
    apply in_app_or in Hin as [Hin|Hin]; [now left|]. right.
    assert (Hd : (20 < length l)%nat).
    { destruct (Nat.le_gt_cases (length l) 20) as [Hle|]; [|assumption].
      rewrite drop_ge in Hin by assumption. destruct Hin. }
    split; [rewrite length_take; lia|].
    intros e He.
    change (stargazers_count r) with (stars (summary_of r)).
    apply (sorted_app_cross (take 20 l) (drop 20 l)); [|assumption..].
    rewrite take_drop. apply sort_by_stars_sorted.
Qed.

(** X18.  The sort is stable: the listed entries with a given number of
    stars are, in the order of the input, the first of the repositories
    with that number of stars that are not skipped. *)
Theorem ties_keep_input_order (repo_data : list repo) (k : Z) :
  exists later,
    List.filter (fun e => stars e =? k)
      (List.map summary_of (kept repo_data))
    = List.filter (fun e => stars e =? k)
        (repositories (summarize_data repo_data))
      ++ later.
Proof.
  rewrite repositories_eq.
  set (l := sort_by_stars (List.map summary_of (kept repo_data))).
  exists (List.filter (fun e => stars e =? k) (drop 20 l)).
  rewrite <- List.filter_app, take_drop. subst l.
  now rewrite sort_by_stars_ties.
Qed.
End MoreSummaryTheorems.

(** ** The request handlers *)

Section HandlerFacts.
Import TextPreprocessor TextExtractor Main.

Lemma preview_length (x : str) : (length (preview x) <= 1003)%nat.
Proof.
  unfold preview. destruct (Nat.ltb_spec 1000 (length x)); [|lia].
  rewrite length_app, length_take. change (length (U "...")) with 3%nat. lia.
Qed.

(** A text that passes the guard of [analyze_resume] is not blank. *)
Lemma sufficient_text_not_blank (raw : str) :
  insufficient_text raw = false -> forallb isspace raw = false.
Proof.
  unfold insufficient_text. intros H.
  apply orb_false_iff in H as [_ H]. apply Nat.ltb_ge in H.
  rewrite <- falsy_strip. destruct (strip raw); [simpl in H; lia|reflexivity].
Qed.

Lemma preprocess_has_word (text : str) (aggressive : bool) (s : str) :
  preprocess text aggressive = Return s -> (1 <= length (words s))%nat.
Proof.
  intros H. apply preprocess_trimmed in H as [Hs Hne].
  destruct (words s) eqn:E; [|simpl; lia].
  apply words_nil_iff, strip_nil_iff in E. congruence.
Qed.

(** A PDF whose pages are all blank is extracted to the warning line. *)
Lemma blank_pdf_extract (f : file) (pdf : pdf_reader) (texts : list str) :
  PdfReader f = Return pdf ->
  (is_encrypted pdf = true -> decrypt pdf = Return tt) ->
  pages pdf = List.map Return texts ->
  Forall (fun t => strip t = []) texts ->
  extract_from_pdf f = Return scanned_warning.
Proof.
  intros Hreader Hdecrypt Hpages Hblank. unfold extract_from_pdf.
  rewrite Hreader.
  assert (Hd : (if is_encrypted pdf then decrypt pdf else Return tt)
               = Return tt).
  { destruct (is_encrypted pdf); [now apply Hdecrypt | reflexivity]. }
  rewrite Hd, Hpages, pdf_pages_texts. simpl.
  assert (E : existsb (fun t => negb (falsy (strip t))) texts = false).
  { clear -Hblank. induction Hblank as [|t l Ht _ IH]; [reflexivity|].
    simpl. now rewrite Ht, IH. }
  rewrite E. simpl. rewrite nonblank_stripped_nil by assumption. reflexivity.
Qed.
End HandlerFacts.

Section HandlerTheorems.
Import TextPreprocessor TextExtractor Main.

(** X19.  The second test of [validate_file] never fires: a file name
    that is empty has an empty suffix, which is not an allowed extension,
    so the first test has raised already.  The outcome is decided by the
    lower-cased suffix alone. *)
Theorem validate_file_by_suffix (u : upload) :
  (filename u = [] -> filename_suffix u = []) ->
  validate_file u
  = if existsb (JSON.str_eqb (lower (filename_suffix u))) ALLOWED_EXTENSIONS
    then None
    else Some (HTTPException 400 InvalidFileFormat).
Proof.
  intros H. unfold validate_file.
  destruct (existsb _ ALLOWED_EXTENSIONS) eqn:E; [|reflexivity].
  simpl. destruct (filename u) as [|c n]; [|reflexivity].
  rewrite (H eq_refl) in E. discriminate.
Qed.

Lemma validate_file_by_suffix_witness :
  validate_file {| filename := []; filename_suffix := [];
                   saved := Raise LibraryError |}
  = Some (HTTPException 400 InvalidFileFormat).
Proof.
  rewrite (validate_file_by_suffix
             {| filename := []; filename_suffix := [];
                saved := Raise LibraryError |});
    reflexivity.
Defined.

(** X20.  An upload whose extension is not allowed is answered by
    [analyze_resume] with 503 when Gemini is not configured (that test
    comes first) and with 400 when it is, but with 500 by
    [extract_text_only], whose [except Exception] catches the 400 of
    [validate_file] and wraps it. *)
Theorem invalid_format_status (gemini_configured : bool) (u : upload) :
  existsb (JSON.str_eqb (lower (filename_suffix u))) ALLOWED_EXTENSIONS
    = false ->
  analyze_resume_until_gemini gemini_configured u
    = inl (if gemini_configured
           then HTTPException 400 InvalidFileFormat
           else HTTPException 503
                  (Message (U "Gemini AI service not configured. "
                            ++ U "Please set GOOGLE_API_KEY.")))
  /\ extract_text_only u
     = inl (HTTPException 500
              (MessageFrom (U "Text extraction failed: ")
                 (HTTPException 400 InvalidFileFormat))).
Proof.
  intros H.
  assert (E : validate_file u = Some (HTTPException 400 InvalidFileFormat)).
  { unfold validate_file. now rewrite H. }
  unfold analyze_resume_until_gemini, analyze_resume_steps, extract_text_only,
    extract_text_steps.
  rewrite E. destruct gemini_configured; split; reflexivity.
Qed.

Lemma invalid_format_status_witness :
  analyze_resume_until_gemini true
    {| filename := U "cv.rtf"; filename_suffix := U ".rtf";
       saved := Raise LibraryError |}
  = inl (HTTPException 400 InvalidFileFormat)
  /\ analyze_resume_until_gemini false
       {| filename := U "cv.rtf"; filename_suffix := U ".rtf";
          saved := Raise LibraryError |}
     = inl (HTTPException 503
              (Message (U "Gemini AI service not configured. "
                        ++ U "Please set GOOGLE_API_KEY.")))
  /\ extract_text_only {| filename := U "cv.rtf"; filename_suffix := U ".rtf";
                          saved := Raise LibraryError |}
     = inl (HTTPException 500
              (MessageFrom (U "Text extraction failed: ")
                 (HTTPException 400 InvalidFileFormat))).
Proof.
  split; [|split].
  - refine (proj1 (invalid_format_status true
                     {| filename := U "cv.rtf"; filename_suffix := U ".rtf";
                        saved := Raise LibraryError |} _)).
    reflexivity.
  - refine (proj1 (invalid_format_status false
                     {| filename := U "cv.rtf"; filename_suffix := U ".rtf";
                        saved := Raise LibraryError |} _)).
    reflexivity.
  - refine (proj2 (invalid_format_status true
                     {| filename := U "cv.rtf"; filename_suffix := U ".rtf";
                        saved := Raise LibraryError |} _)).
    reflexivity.
Defined.

(** X21.  What [extract_text_only] returns on success: the two texts of
    the response are cut to 1000 characters and three dots, while the
    statistics are those of the whole cleaned text, which has at least one
    word and is no longer than the extracted text. *)
Theorem extract_text_only_response (u : upload) (response : extract_text_response) :
  extract_text_only u = inr response ->
  exists f raw cleaned,
    saved u = Return f
    /\ extract f = Return raw
    /\ preprocess raw false = Return cleaned
    /\ raw_text response = preview raw
    /\ cleaned_text response = preview cleaned
    /\ (length (raw_text response) <= 1003)%nat
    /\ (length (cleaned_text response) <= 1003)%nat
    /\ response_statistics response = get_text_statistics cleaned
    /\ (1 <= total_words (response_statistics response))%nat
    /\ (total_characters (response_statistics response) <= length raw)%nat.
Proof.
  unfold extract_text_only, extract_text_steps, save_upload_file.
  destruct (validate_file u); [discriminate|].
  destruct (saved u) as [f|e]; [|discriminate].
  destruct (extract f) as [raw|e] eqn:Er; [|discriminate]. simpl.
  destruct (preprocess raw false) as [cleaned|e] eqn:Ec; [|discriminate].
  simpl. intros [= <-]. exists f, raw, cleaned. simpl.
  repeat (split; [assumption || reflexivity || apply preview_length|]).
  split; [now apply (preprocess_has_word raw false)|].
  apply preprocess_return in Ec as [-> _].
  pose proof (strip_length
                (remove_special_characters (remove_extra_whitespace raw)
                   (negb false))) as H1.
  unfold remove_special_characters in *.
  pose proof (filter_length_le (fun c => allowed (negb false) c)
                (remove_extra_whitespace raw)) as H2.
  pose proof (remove_extra_whitespace_length raw). lia.
Qed.

Lemma extract_text_only_response_witness :
  exists f raw cleaned,
    saved {| filename := U "cv.txt"; filename_suffix := U ".txt";
             saved := Return {| suffix := U ".txt";
                                content := [Byte.x43; Byte.x23; Byte.x21];
                                PdfReader := Raise LibraryError;
                                Document := Raise LibraryError;
                                textract_process := Raise ImportError |} |}
    = Return f
    /\ extract f = Return raw
    /\ preprocess raw false = Return cleaned
    /\ cleaned = U "C#".
Proof.
  destruct (extract_text_only_response
              {| filename := U "cv.txt"; filename_suffix := U ".txt";
                 saved := Return {| suffix := U ".txt";
                                    content := [Byte.x43; Byte.x23; Byte.x21];
                                    PdfReader := Raise LibraryError;
                                    Document := Raise LibraryError;
                                    textract_process := Raise ImportError |} |}
              _ eq_refl)
    as (f & raw & cleaned & Hf & Hr & Hc & _).
  exists f, raw, cleaned. repeat (split; [assumption|]).
  simpl in Hf. inversion Hf; subst f. vm_compute in Hr.
  inversion Hr; subst raw. vm_compute in Hc. now inversion Hc.
Defined.

(** X22.  Once a text is extracted, [analyze_resume] has three outcomes
    before it calls Gemini.  A text with fewer than 50 characters between
    its first and last character that is not whitespace is answered with
    400.  A longer text without any visible character passes that guard and
    fails in [preprocess], which is answered with 500.  Every other text
    reaches Gemini, cleaned.  The error of [preprocess] for a blank text
    cannot occur behind the guard. *)
Theorem analyze_resume_text_guard (u : upload) (f : file) (raw : str) :
  validate_file u = None ->
  saved u = Return f ->
  extract f = Return raw ->
  (insufficient_text raw = true
   /\ analyze_resume_until_gemini true u
      = inl (HTTPException 400
               (Message (U "Insufficient text content in resume"))))
  \/ (insufficient_text raw = false
      /\ existsb (visible true) raw = false
      /\ analyze_resume_until_gemini true u
         = inl (HTTPException 500
                  (MessageFrom (U "Analysis failed: ")
                     (PyError (ValueError
                        (U "Text became empty after preprocessing"))))))
  \/ (insufficient_text raw = false
      /\ existsb (visible true) raw = true
      /\ exists cleaned,
           preprocess raw false = Return cleaned
           /\ analyze_resume_until_gemini true u
              = inr {| prepared_raw := raw;
                       prepared_cleaned := cleaned;
                       prepared_stats := get_text_statistics cleaned |}).
Proof.
  intros Hv Hs Hr.
  unfold analyze_resume_until_gemini, analyze_resume_steps, save_upload_file.
  rewrite Hv, Hs, Hr. simpl.
  destruct (insufficient_text raw) eqn:Eg; [left; now split|]. right.
  rewrite preprocess_cases, (sufficient_text_not_blank raw Eg).
  change (negb false) with true.
  destruct (existsb (visible true) raw) eqn:Ev; simpl.
  - right. split; [reflexivity|]. split; [reflexivity|].
    eexists. split; reflexivity.
  - left. split; [reflexivity|]. split; reflexivity.
Qed.

Lemma analyze_resume_text_guard_witness :
  analyze_resume_until_gemini true
    {| filename := U "cv.txt"; filename_suffix := U ".txt";
       saved := Return {| suffix := U ".txt";
                          content := repeat Byte.x26 50;
                          PdfReader := Raise LibraryError;
                          Document := Raise LibraryError;
                          textract_process := Raise ImportError |} |}
  = inl (HTTPException 500
           (MessageFrom (U "Analysis failed: ")
              (PyError (ValueError
                 (U "Text became empty after preprocessing"))))).
Proof.
  destruct (analyze_resume_text_guard
              {| filename := U "cv.txt"; filename_suffix := U ".txt";
                 saved := Return {| suffix := U ".txt";
                                    content := repeat Byte.x26 50;
                                    PdfReader := Raise LibraryError;
                                    Document := Raise LibraryError;
                                    textract_process := Raise ImportError |} |}
              {| suffix := U ".txt"; content := repeat Byte.x26 50;
                 PdfReader := Raise LibraryError;
                 Document := Raise LibraryError;
                 textract_process := Raise ImportError |}
              (repeat 38 50) eq_refl eq_refl eq_refl)
    as [[H _]|[(_ & _ & H)|(_ & H & _)]].
  - vm_compute in H. discriminate.
  - exact H.
  - vm_compute in H. discriminate.
Defined.

(** X23.  A scanned PDF is not turned away: when no page of an uploaded
    PDF has text, the warning line that [extract] returns is long enough
    to pass the guard of [analyze_resume], and Gemini is called with that
    line, less its square brackets, as the resume. *)
Theorem scanned_pdf_reaches_gemini (u : upload) (f : file) (pdf : pdf_reader)
    (texts : list str) :
  validate_file u = None ->
  saved u = Return f ->
  lower (suffix f) = U ".pdf" ->
  PdfReader f = Return pdf ->
  (is_encrypted pdf = true -> decrypt pdf = Return tt) ->
  pages pdf = List.map Return texts ->
  Forall (fun t => strip t = []) texts ->
  exists stats,
    analyze_resume_until_gemini true u
    = inr {| prepared_raw := scanned_warning;
             prepared_cleaned :=
               U "Warning: This appears to be a scanned or image-only PDF. "
               ++ U "No text could be extracted. "
               ++ U "Please provide a text-based PDF or use OCR.";
             prepared_stats := stats |}
    /\ total_words stats = 23%nat.
Proof.
  intros Hv Hs Hsuffix Hreader Hdecrypt Hpages Hblank.
  assert (Hr : extract f = Return scanned_warning).
  { unfold extract. rewrite Hsuffix.
    change (JSON.str_eqb (U ".pdf") (U ".pdf")) with true. cbv iota.
    now apply (blank_pdf_extract f pdf texts). }
  unfold analyze_resume_until_gemini, analyze_resume_steps, save_upload_file.
  rewrite Hv, Hs, Hr. simpl.
  eexists. split; [vm_compute; reflexivity|]. vm_compute. reflexivity.
Qed.

Lemma scanned_pdf_reaches_gemini_witness :
  exists p,
    analyze_resume_until_gemini true
      {| filename := U "scan.pdf"; filename_suffix := U ".pdf";
         saved := Return {| suffix := U ".pdf"; content := [];
                            PdfReader :=
                              Return {| is_encrypted := false;
                                        decrypt := Return tt;
                                        pages := [Return (U " "); Return []] |};
                            Document := Raise LibraryError;
                            textract_process := Raise ImportError |} |}
    = inr p
    /\ prepared_raw p = scanned_warning.
Proof.
  destruct (scanned_pdf_reaches_gemini
              {| filename := U "scan.pdf"; filename_suffix := U ".pdf";
                 saved := Return {| suffix := U ".pdf"; content := [];
                                    PdfReader :=
                                      Return {| is_encrypted := false;
                                                decrypt := Return tt;
                                                pages := [Return (U " ");
                                                          Return []] |};
                                    Document := Raise LibraryError;
                                    textract_process := Raise ImportError |} |}
              {| suffix := U ".pdf"; content := [];
                 PdfReader :=
                   Return {| is_encrypted := false; decrypt := Return tt;
                             pages := [Return (U " "); Return []] |};
                 Document := Raise LibraryError;
                 textract_process := Raise ImportError |}
              {| is_encrypted := false; decrypt := Return tt;
                 pages := [Return (U " "); Return []] |}
              [U " "; []])
    as (stats & H & _); try reflexivity.
  - repeat constructor.
  - eexists. split; [exact H | reflexivity].
Defined.
End HandlerTheorems.
